(** * ctapipe_io_lst: DRS4 corrections, event assembly and multi-file merging

    A shallow embedding of the numeric kernels of [calibration.py], of the
    event classification and gain-selection code of [__init__.py] and of
    the [MultiFiles] merger of [multifiles.py], with the properties of the
    specification proved (or refuted) against them.

    Conventions.
    - NumPy arrays are lists; an index is an integer with Python's meaning
      (a negative index counts from the end) and an access outside the
      array is an [IndexError], modelled by [None].
    - Integers are [Z]; where the source works on a fixed-width type the
      wrap-around is written out ([uint64], [int16]).
    - float32 / float64 samples are idealised as real numbers: rounding is
      not modelled.  [x ** y] is [Rpower x y] for [x > 0]. *)

From Stdlib Require Import String.
From Stdlib Require Import ZArith List Bool Lia Reals Lra.
From Stdlib Require Import Permutation Sorted.
Import ListNotations.

Local Open Scope Z_scope.

(** ** The error monad used for fallible array code *)

Definition bind {A B : Type} (m : option A) (k : A -> option B) : option B :=
  match m with
  | Some x => k x
  | None => None
  end.

Notation "x <- m ;; k" := (bind m (fun x => k))
  (at level 61, m at next level, right associativity).

(** [for x in xs: s = body(s, x)], aborting on the first exception. *)
Fixpoint for_each {S X : Type} (xs : list X) (body : S -> X -> option S)
    (s : S) : option S :=
  match xs with
  | [] => Some s
  | x :: rest => s' <- body s x ;; for_each rest body s'
  end.

(** Python's [range(start, stop)] and [range(n)]. *)
Definition range2 (start stop : Z) : list Z :=
  map (fun i => start + Z.of_nat i) (seq 0 (Z.to_nat (stop - start))).

Definition range (n : Z) : list Z := range2 0 n.

(** ** One-dimensional arrays *)

Module NdArray.

Section Indexing.
Context {A : Type}.

(** Index normalisation of Python sequences. *)
Definition norm_index (n : nat) (i : Z) : option nat :=
    let len := Z.of_nat n in
    if (0 <=? i) && (i <? len) then Some (Z.to_nat i)
    else if (- len <=? i) && (i <? 0) then Some (Z.to_nat (i + len))
    else None.

Definition getitem (l : list A) (i : Z) : option A :=
    k <- norm_index (length l) i ;; nth_error l k.

Fixpoint update (l : list A) (k : nat) (v : A) : list A :=
    match l, k with
    | [], _ => []
    | _ :: t, O => v :: t
    | h :: t, S k' => h :: update t k' v
    end.

Definition setitem (l : list A) (i : Z) (v : A) : option (list A) :=
    k <- norm_index (length l) i ;; Some (update l k v).

(** [l[start:stop]] for a unit step: negative bounds count from the end
    and both bounds are clipped to the array. *)
Definition clip_bound (n : nat) (i : Z) : nat :=
    let len := Z.of_nat n in
    let j := if i <? 0 then i + len else i in
    Z.to_nat (Z.min len (Z.max 0 j)).

Definition slice (l : list A) (start stop : Z) : list A :=
    let a := clip_bound (length l) start in
    let b := clip_bound (length l) stop in
    firstn (b - a) (skipn a l).

(** [dst[idx] = src] with an index array: element-wise, in order, so a
    repeated index keeps the last value; the two arrays must have the
    same length. *)
Fixpoint scatter_loop (dst : list A) (idx : list Z) (src : list A)
      : option (list A) :=
    match idx, src with
    | [], [] => Some dst
    | i :: idx', v :: src' =>
        dst' <- setitem dst i v ;; scatter_loop dst' idx' src'
    | _, _ => None
    end.

End Indexing.

End NdArray.

Import NdArray.

(** ** constants.py *)

Definition N_GAINS : Z := 2.
Definition N_MODULES : Z := 265.
Definition N_PIXELS_MODULE : Z := 7.
Definition N_PIXELS : Z := N_MODULES * N_PIXELS_MODULE.
Definition N_CAPACITORS_CHANNEL : Z := 1024.
Definition N_CAPACITORS_PIXEL : Z := 4 * N_CAPACITORS_CHANNEL.
Definition N_SAMPLES : Z := 40.
Definition HIGH_GAIN : Z := 0.
Definition LOW_GAIN : Z := 1.
Definition CLOCK_FREQUENCY_KHZ : R := 133000%R.

(** ** calibration.py: spike A interpolation *)

(** [int(x)] of a float: truncation toward zero. *)
Definition int_of_float (x : R) : Z :=
  if Rle_dec 0 x then Int_part x else - Int_part (- x).

Definition interpolate_spike_A (waveform : list R) (position : Z)
    : option (list R) :=
  wa <- getitem waveform (position - 1) ;;
  let a := int_of_float wa in
  wb <- getitem waveform (position + 2) ;;
  let b := int_of_float wb in
  w0 <- getitem waveform (position - 1) ;;
  waveform <- setitem waveform position (w0 + 0.33 * IZR (b - a))%R ;;
  w1 <- getitem waveform (position - 1) ;;
  setitem waveform (position + 1) (w1 + 0.66 * IZR (b - a))%R.

(** The sample indices [interpolate_spike_A] reads and writes. *)
Definition spike_A_accesses (position : Z) : list Z :=
  [position - 1; position + 2; position; position + 1].

(** The two per-pixel kernels are written once, over the action taken at a
    call of [interpolate_spike_A]: run on a waveform, the action is the
    interpolation itself; run on a log, it records the position. *)
Section SpikeKernels.
Context {W : Type}.
Variable call_interpolate_spike_A : W -> Z -> W.

Definition interpolate_spikes_pixel_iter (current_fc last_fc : Z)
      (waveform : W) (k : Z) : W :=
    let LAST_IN_FIRST_HALF := N_CAPACITORS_CHANNEL / 2 - 1 in
    (* looking for spike A first case *)
    let abspos := N_CAPACITORS_CHANNEL + 1 - N_SAMPLES - 2 - last_fc
                  + k * N_CAPACITORS_CHANNEL + N_CAPACITORS_PIXEL in
    let spike_A_position :=
      (abspos - current_fc + N_CAPACITORS_PIXEL) mod N_CAPACITORS_PIXEL in
    let waveform :=
      if (2 <? spike_A_position) && (spike_A_position <? N_SAMPLES - 2) then
        let last_capacitor :=
          (last_fc + N_SAMPLES - 1) mod N_CAPACITORS_CHANNEL in
        if (last_capacitor mod 2 =? 0)
           && (last_capacitor <=? LAST_IN_FIRST_HALF)
        then call_interpolate_spike_A waveform spike_A_position
        else waveform
      else waveform in
    (* looking for spike A second case *)
    let abspos := N_SAMPLES - 1 + last_fc + k * N_CAPACITORS_CHANNEL in
    let spike_A_position :=
      (abspos - current_fc + N_CAPACITORS_PIXEL) mod N_CAPACITORS_PIXEL in
    if (2 <? spike_A_position) && (spike_A_position <? N_SAMPLES - 2) then
      let last_lc := last_fc + N_SAMPLES - 1 in
      if (last_lc mod 2 =? 0)
         && (last_lc mod N_CAPACITORS_CHANNEL
             <=? N_CAPACITORS_CHANNEL / 2 - 1)
      then call_interpolate_spike_A waveform spike_A_position
      else waveform
    else waveform.

Definition interpolate_spikes_pixel_with (waveform : W)
      (current_fc last_fc : Z) : W :=
    fold_left (interpolate_spikes_pixel_iter current_fc last_fc)
              (range 4) waveform.

Definition interpolate_spikes_pixel_old_firmware_iter
      (current_fc last_fc : Z) (waveform : W) (k : Z) : W :=
    (* looking for spike A first case *)
    let abspos := N_CAPACITORS_CHANNEL - N_SAMPLES - 2 - last_fc
                  + k * N_CAPACITORS_CHANNEL + N_CAPACITORS_PIXEL in
    let spike_A_position :=
      (abspos - current_fc + N_CAPACITORS_PIXEL) mod N_CAPACITORS_PIXEL in
    let waveform :=
      if (2 <? spike_A_position) && (spike_A_position <? N_SAMPLES - 2) then
        let last_capacitor :=
          (last_fc + N_SAMPLES - 1) mod N_CAPACITORS_CHANNEL in
        if (last_capacitor mod 2 =? 0)
           && (last_capacitor <=? N_CAPACITORS_CHANNEL / 2 - 2)
        then call_interpolate_spike_A waveform spike_A_position
        else waveform
      else waveform in
    (* looking for spike A second case *)
    let abspos := N_SAMPLES - 2 + last_fc + k * N_CAPACITORS_CHANNEL in
    let spike_A_position :=
      (abspos - current_fc + N_CAPACITORS_PIXEL) mod N_CAPACITORS_PIXEL in
    if (2 <? spike_A_position) && (spike_A_position <? N_SAMPLES - 2) then
      let last_lc := last_fc + N_SAMPLES - 1 in
      if (last_lc mod 2 =? 0)
         && (last_lc mod N_CAPACITORS_CHANNEL
             <=? N_CAPACITORS_CHANNEL / 2 - 1)
      then call_interpolate_spike_A waveform spike_A_position
      else waveform
    else waveform.

Definition interpolate_spikes_pixel_old_firmware_with (waveform : W)
      (current_fc last_fc : Z) : W :=
    fold_left (interpolate_spikes_pixel_old_firmware_iter current_fc last_fc)
              (range 4) waveform.

End SpikeKernels.

(** The action on a waveform: an exception raised by an earlier call
    ends the kernel. *)
Definition spike_A_on_waveform (waveform : option (list R)) (position : Z)
    : option (list R) :=
  w <- waveform ;; interpolate_spike_A w position.

(** The action on a log of calls. *)
Definition spike_A_on_log (log : list Z) (position : Z) : list Z :=
  log ++ [position].

Definition interpolate_spikes_pixel (waveform : list R)
    (current_fc last_fc : Z) : option (list R) :=
  interpolate_spikes_pixel_with spike_A_on_waveform (Some waveform)
                                current_fc last_fc.

Definition interpolate_spikes_pixel_old_firmware (waveform : list R)
    (current_fc last_fc : Z) : option (list R) :=
  interpolate_spikes_pixel_old_firmware_with spike_A_on_waveform
    (Some waveform) current_fc last_fc.

(** The positions at which the kernels call [interpolate_spike_A], in
    call order. *)
Definition spike_A_calls (current_fc last_fc : Z) : list Z :=
  interpolate_spikes_pixel_with spike_A_on_log [] current_fc last_fc.

Definition spike_A_calls_old_firmware (current_fc last_fc : Z) : list Z :=
  interpolate_spikes_pixel_old_firmware_with spike_A_on_log []
    current_fc last_fc.

(** The candidate positions of the loops, by case and loop index. *)
Definition spike_A_candidate (old_firmware : bool) (case : Z)
    (current_fc last_fc k : Z) : Z :=
  let abspos :=
    match old_firmware, case with
    | false, 1 => N_CAPACITORS_CHANNEL + 1 - N_SAMPLES - 2 - last_fc
                  + k * N_CAPACITORS_CHANNEL + N_CAPACITORS_PIXEL
    | false, _ => N_SAMPLES - 1 + last_fc + k * N_CAPACITORS_CHANNEL
    | true, 1 => N_CAPACITORS_CHANNEL - N_SAMPLES - 2 - last_fc
                 + k * N_CAPACITORS_CHANNEL + N_CAPACITORS_PIXEL
    | true, _ => N_SAMPLES - 2 + last_fc + k * N_CAPACITORS_CHANNEL
    end in
  (abspos - current_fc + N_CAPACITORS_PIXEL) mod N_CAPACITORS_PIXEL.

(** The candidates in the order the loop visits them. *)
Definition spike_A_candidates (old_firmware : bool) (current_fc last_fc : Z)
    : list Z :=
  flat_map (fun k => [spike_A_candidate old_firmware 1 current_fc last_fc k;
                      spike_A_candidate old_firmware 2 current_fc last_fc k])
           (range 4).

(** The qualification of a candidate as the specification words it: not at
    the sample boundaries, and the last capacitor of the previous event
    even and at most [limit] within its channel. *)
Definition spike_A_qualifies (limit last_fc pos : Z) : bool :=
  (2 <? pos) && (pos <? 38)
  && Z.even (last_fc + 39)
  && ((last_fc + 39) mod 1024 <=? limit).

(** ** Two-dimensional access [a[i, j]] *)

Definition getitem2 {A : Type} (a : list (list A)) (i j : Z) : option A :=
  row <- getitem a i ;; getitem row j.

Definition setitem2 {A : Type} (a : list (list A)) (i j : Z) (v : A)
    : option (list (list A)) :=
  row <- getitem a i ;; row' <- setitem row j v ;; setitem a i row'.

Definition has_shape2 {A : Type} (a : list (list A)) (n m : nat) : bool :=
  Nat.eqb (length a) n && forallb (fun row => Nat.eqb (length row) m) a.

Definition has_shape3 {A : Type} (a : list (list (list A))) (n m k : nat)
    : bool :=
  Nat.eqb (length a) n && forallb (fun plane => has_shape2 plane m k) a.

(** ** calibration.py: DRS4 pedestal *)

Definition int16 (z : Z) : Z := (z + 32768) mod 65536 - 32768.

(** [path] is the content of HDU 1 of the pedestal file, or [None] when no
    path is configured.  Each row of the table is the file row followed by
    its first [N_SAMPLES] values; the offset is subtracted in int16. *)
Definition _get_drs4_pedestal_data (path : option (list (list (list Z))))
    (offset : Z) : option (list (list (list Z))) :=
  match path with
  | None => None
  | Some data =>
      if has_shape3 data (Z.to_nat N_GAINS)
                    (Z.to_nat (N_PIXELS_MODULE * N_MODULES))
                    (Z.to_nat N_CAPACITORS_PIXEL)
      then
        let pedestal_data :=
          map (map (fun row => row ++ slice row 0 N_SAMPLES)) data in
        if offset =? 0 then Some pedestal_data
        else Some (map (map (map (fun x => int16 (x - offset))))
                       pedestal_data)
      else None
  end.

(** [row -= pedestal] for a float row and an integer array: element-wise
    when the lengths agree; an array of length one is broadcast. *)
Definition isub (row : list R) (pedestal : list Z) : option (list R) :=
  if Nat.eqb (length pedestal) (length row) then
    Some (map (fun '(w, p) => (w - IZR p)%R) (combine row pedestal))
  else
    match pedestal with
    | [p] => Some (map (fun w => (w - IZR p)%R) row)
    | _ => None
    end.

Definition subtract_pedestal (waveform : list (list (list R)))
    (first_capacitors : list (list Z))
    (pedestal_value_array : list (list (list Z)))
    : option (list (list (list R))) :=
  for_each (range N_GAINS) (fun waveform gain =>
    for_each (range N_PIXELS) (fun waveform pixel_id =>
      first_cap <- getitem2 first_capacitors gain pixel_id ;;
      pedestal_row <- getitem2 pedestal_value_array gain pixel_id ;;
      let pedestal :=
        slice pedestal_row first_cap (first_cap + N_SAMPLES) in
      row <- getitem2 waveform gain pixel_id ;;
      row' <- isub row pedestal ;;
      setitem2 waveform gain pixel_id row') waveform) waveform.

(** ** calibration.py: time-lapse correction *)

Definition uint64 (z : Z) : Z := z mod 2 ^ 64.

(** A float64 value that may be +inf. *)
Inductive float_result : Type :=
| Finite (x : R)
| PlusInfinity.

(** In the compiled kernel [timediff ** (-0.22)] is the power function of
    the C library, which is +inf at a zero base; [timediff] is never
    negative, being an unsigned difference divided by a positive
    constant. *)
Definition ped_time (timediff : R) : float_result :=
  if Req_dec_T timediff 0 then PlusInfinity
  else Finite (32.99 * Rpower timediff (-0.22) - 11.9)%R.

(** [min(a, b)] for a possibly infinite [a]. *)
Definition float_min (a : float_result) (b : R) : R :=
  match a with
  | Finite x => Rmin x b
  | PlusInfinity => b
  end.

(** [time_diff / CLOCK_FREQUENCY_KHZ] for [time_diff = time_now - prev]
    taken on unsigned 64-bit counters. *)
Definition time_diff_ms (time_now prev : Z) : R :=
  (IZR (uint64 (time_now - prev)) / CLOCK_FREQUENCY_KHZ)%R.

Definition apply_timelapse_correction_pixel (waveform : list R)
    (first_capacitor time_now : Z) (last_readout_time : list Z)
    : option (list R) :=
  for_each (range N_SAMPLES) (fun waveform sample =>
    let capacitor := (first_capacitor + sample) mod N_CAPACITORS_PIXEL in
    last_readout_time_cap <- getitem last_readout_time capacitor ;;
    (* apply correction if last readout available *)
    if 0 <? last_readout_time_cap then
      let time_diff := uint64 (time_now - last_readout_time_cap) in
      let time_diff_ms := (IZR time_diff / CLOCK_FREQUENCY_KHZ)%R in
      if Rlt_dec time_diff_ms 100 then
        (* prevent underflow of the unsigned int value *)
        w <- getitem waveform sample ;;
        setitem waveform sample (w - float_min (ped_time time_diff_ms) w)%R
      else Some waveform
    else Some waveform) waveform.

(** [for capacitor in caps: last_readout_time[capacitor % N] = time_now] *)
Definition stamp (time_now : Z) (caps : list Z) (last_readout_time : list Z)
    : option (list Z) :=
  for_each caps (fun last_readout_time capacitor =>
    setitem last_readout_time (capacitor mod N_CAPACITORS_PIXEL) time_now)
    last_readout_time.

Definition update_last_readout_time (pixel_in_module first_capacitor
    time_now : Z) (last_readout_time : list Z) : option (list Z) :=
  (* update the last read time for all samples *)
  last_readout_time <-
    stamp time_now (map (fun sample => first_capacitor + sample)
                        (range N_SAMPLES)) last_readout_time ;;
  if pixel_in_module mod 2 =? 0 then
    let first_capacitor_in_channel :=
      first_capacitor mod N_CAPACITORS_CHANNEL in
    if (767 <? first_capacitor_in_channel)
       && (first_capacitor_in_channel <? 1013) then
      let start := first_capacitor + N_CAPACITORS_CHANNEL in
      let end_ := start + 12 in
      stamp time_now (range2 start end_) last_readout_time
    else if 1013 <=? first_capacitor_in_channel then
      let start := first_capacitor + N_CAPACITORS_CHANNEL in
      let channel := first_capacitor / N_CAPACITORS_CHANNEL in
      let end_ := (channel + 2) * N_CAPACITORS_CHANNEL in
      stamp time_now (range2 start end_) last_readout_time
    else Some last_readout_time
  else Some last_readout_time.

Definition update_last_readout_time_old_firmware (pixel_in_module
    first_capacitor time_now : Z) (last_readout_time : list Z)
    : option (list Z) :=
  last_readout_time <-
    stamp time_now (map (fun sample => first_capacitor + sample)
                        (range2 (-1) (N_SAMPLES - 1))) last_readout_time ;;
  if pixel_in_module mod 2 =? 0 then
    let first_capacitor_in_channel :=
      first_capacitor mod N_CAPACITORS_CHANNEL in
    if (766 <? first_capacitor_in_channel)
       && (first_capacitor_in_channel <? 1013) then
      let start := first_capacitor + N_CAPACITORS_CHANNEL - 1 in
      let end_ := first_capacitor + N_CAPACITORS_CHANNEL + 11 in
      stamp time_now (range2 start end_) last_readout_time
    else if 1013 <=? first_capacitor_in_channel then
      let start := first_capacitor + N_CAPACITORS_CHANNEL in
      let channel := first_capacitor / N_CAPACITORS_CHANNEL in
      let end_ := (channel + 2) * N_CAPACITORS_CHANNEL in
      stamp time_now (range2 start end_) last_readout_time
    else Some last_readout_time
  else Some last_readout_time.

(** The arrays the time-lapse stage mutates. *)
Record TimelapseState : Type := mkTimelapseState {
  waveform_of : list (list (list R));
  last_readout_time_of : list (list (list Z))
}.

Section Firmware.
(** [LAST_RUN_WITH_OLD_FIRMWARE] is imported from [constants.py]; its
    value is not needed by any property below. *)
Variable LAST_RUN_WITH_OLD_FIRMWARE : Z.

(** The body of the innermost loop of [apply_timelapse_correction]. *)
Definition apply_timelapse_correction_slot
      (first_capacitors : list (list Z))
      (expected_pixels_id : list Z) (run_id gain module time_now : Z)
      (st : TimelapseState) (pixel_in_module : Z) : option TimelapseState :=
    let pixel_index := module * N_PIXELS_MODULE + pixel_in_module in
    pixel_id <- getitem expected_pixels_id pixel_index ;;
    waveform_row <- getitem2 (waveform_of st) gain pixel_id ;;
    first_capacitor <- getitem2 first_capacitors gain pixel_id ;;
    last_readout_row <- getitem2 (last_readout_time_of st) gain pixel_id ;;
    waveform_row' <-
      apply_timelapse_correction_pixel waveform_row first_capacitor
        time_now last_readout_row ;;
    waveform' <- setitem2 (waveform_of st) gain pixel_id waveform_row' ;;
    last_readout_row' <-
      (if LAST_RUN_WITH_OLD_FIRMWARE <? run_id then
         update_last_readout_time pixel_in_module first_capacitor
           time_now last_readout_row
       else
         update_last_readout_time_old_firmware pixel_in_module
           first_capacitor time_now last_readout_row) ;;
    last_readout_time' <-
      setitem2 (last_readout_time_of st) gain pixel_id last_readout_row' ;;
    Some (mkTimelapseState waveform' last_readout_time').

Definition apply_timelapse_correction (waveform : list (list (list R)))
      (local_clock_counter : list Z) (first_capacitors : list (list Z))
      (last_readout_time : list (list (list Z)))
      (expected_pixels_id : list Z) (run_id : Z) : option TimelapseState :=
    let n_modules :=
      Z.of_nat (length expected_pixels_id) / N_PIXELS_MODULE in
    for_each (range N_GAINS) (fun st gain =>
      for_each (range n_modules) (fun st module =>
        time_now <- getitem local_clock_counter module ;;
        for_each (range N_PIXELS_MODULE)
          (apply_timelapse_correction_slot first_capacitors
             expected_pixels_id run_id gain module time_now) st) st)
      (mkTimelapseState waveform last_readout_time).

(** What the time-lapse stage reads of one event. *)
Record TimelapseInput : Type := mkTimelapseInput {
    in_waveform : list (list (list R));
    in_local_clock_counter : list Z;
    in_first_capacitors : list (list Z)
  }.

(** [LSTR0Corrections.time_lapse_corr] over the events of a session, for
    events that are not gain selected: [last_readout_time] is the
    corrector's own array, carried from one event to the next.  The
    result lists the array after each event. *)
Fixpoint time_lapse_session (last_readout_time : list (list (list Z)))
      (expected_pixels_id : list Z) (run_id : Z)
      (events : list TimelapseInput) : option (list (list (list (list Z)))) :=
    match events with
    | [] => Some []
    | ev :: rest =>
        st <- apply_timelapse_correction (in_waveform ev)
                (in_local_clock_counter ev) (in_first_capacitors ev)
                last_readout_time expected_pixels_id run_id ;;
        later <- time_lapse_session (last_readout_time_of st)
                   expected_pixels_id run_id rest ;;
        Some (last_readout_time_of st :: later)
    end.

End Firmware.

(** [np.zeros(shape)] for the last-readout table of [LSTR0Corrections]. *)
Definition zeros3 (n m k : nat) : list (list (list Z)) :=
  repeat (repeat (repeat 0 k) m) n.

Definition getitem3 {A : Type} (a : list (list (list A))) (i j k : Z)
    : option A :=
  row <- getitem2 a i j ;; getitem row k.

(** ** __init__.py: trigger bits and event types *)

Module TriggerBits.
Definition UNKNOWN : Z := 0.
Definition MONO : Z := 1.
Definition STEREO : Z := 2.
Definition CALIBRATION : Z := 4.
Definition SINGLE_PE : Z := 8.
Definition SOFTWARE : Z := 16.
Definition PEDESTAL : Z := 32.
Definition SLOW_CONTROL : Z := 64.
Definition PHYSICS : Z := Z.lor MONO STEREO.
Definition OTHER : Z :=
    Z.lor CALIBRATION
      (Z.lor SINGLE_PE (Z.lor SOFTWARE (Z.lor PEDESTAL SLOW_CONTROL))).
End TriggerBits.

Module EventType.
Inductive t : Type :=
  | SUBARRAY
  | FLATFIELD
  | SKY_PEDESTAL
  | SINGLE_PE
  | UNKNOWN.
End EventType.

(** Truth value of a Python integer. *)
Definition truthy (z : Z) : bool := negb (z =? 0).

Definition _event_type_from_trigger_bits (trigger_bits : Z) : EventType.t :=
  if truthy (Z.land trigger_bits TriggerBits.PHYSICS)
     && negb (truthy (Z.land trigger_bits TriggerBits.OTHER))
  then EventType.SUBARRAY
  else if trigger_bits =? TriggerBits.CALIBRATION
  then EventType.FLATFIELD
  else if trigger_bits =? Z.lor TriggerBits.CALIBRATION TriggerBits.MONO
  then EventType.FLATFIELD
  else if trigger_bits =? TriggerBits.PEDESTAL
  then EventType.SKY_PEDESTAL
  else if trigger_bits =? TriggerBits.SINGLE_PE
  then EventType.SINGLE_PE
  else EventType.UNKNOWN.

(** The fields of [lst.evt] read by [fill_trigger_info]. *)
Record LSTEventContainer : Type := mkLSTEventContainer {
  extdevices_presence : Z;
  tib_masked_trigger : Z;
  ucts_trigger_type : Z
}.

(** The trigger bits [fill_trigger_info] selects: [None] when neither
    source is available. *)
Definition selected_trigger_bits (default_trigger_type : string)
    (evt : LSTEventContainer) : option Z :=
  let tib_available := Z.land (extdevices_presence evt) 1 in
  let ucts_available := Z.land (extdevices_presence evt) 2 in
  if truthy tib_available && truthy ucts_available then
    if String.eqb default_trigger_type "ucts"
    then Some (ucts_trigger_type evt)
    else Some (tib_masked_trigger evt)
  else if truthy tib_available then Some (tib_masked_trigger evt)
  else if truthy ucts_available then Some (ucts_trigger_type evt)
  else None.

(** The event type set by [fill_trigger_info]. *)
Definition fill_trigger_info (default_trigger_type : string)
    (evt : LSTEventContainer) : EventType.t :=
  match selected_trigger_bits default_trigger_type evt with
  | None => EventType.UNKNOWN
  | Some trigger_bits => _event_type_from_trigger_bits trigger_bits
  end.

(** The earlier [fill_trigger_info], kept under [ctapipe_io_lst/__init__.py],
    selects the trigger bits in the same way and classifies them in line:
    after the physics case it only tests whether a flag is present. *)
Module Legacy.
Definition fill_trigger_info (default_trigger_type : string)
    (evt : LSTEventContainer) : EventType.t :=
  match selected_trigger_bits default_trigger_type evt with
  | None => EventType.UNKNOWN
  | Some trigger_bits =>
      if truthy (Z.land trigger_bits TriggerBits.PHYSICS)
         && negb (truthy (Z.land trigger_bits TriggerBits.OTHER))
      then EventType.SUBARRAY
      else if truthy (Z.land trigger_bits TriggerBits.CALIBRATION)
      then EventType.FLATFIELD
      else if truthy (Z.land trigger_bits TriggerBits.PEDESTAL)
      then EventType.SKY_PEDESTAL
      else if truthy (Z.land trigger_bits TriggerBits.SINGLE_PE)
      then EventType.SINGLE_PE
      else EventType.UNKNOWN
  end.
End Legacy.

(** ** __init__.py: assembling the R0 / R1 container *)

Module PixelStatus.
Definition HIGH_GAIN_STORED : Z := 4.
Definition LOW_GAIN_STORED : Z := 8.
End PixelStatus.

Record CameraConfiguration : Type := mkCameraConfiguration {
  num_pixels : Z;
  num_samples : Z;
  expected_pixels_id : list Z
}.

(** The fields of a raw event read by the assembler; [waveform_max] is
    [np.iinfo(waveform.dtype).max]. *)
Record ZfitsEvent : Type := mkZfitsEvent {
  pixel_status : list Z;
  waveform : list Z;
  waveform_max : Z
}.

Record R0R1 : Type := mkR0R1 {
  r0_waveform : option (list (list (list Z)));
  r1_waveform : option (list (list Z));
  r1_selected_gain_channel : option (list Z)
}.

(** [flat.reshape((-1, n_samples))]: an error unless the size is a
    multiple of a positive [n_samples]. *)
Fixpoint chunks {A : Type} (rows n : nat) (flat : list A) : list (list A) :=
  match rows with
  | O => []
  | S rows' => firstn n flat :: chunks rows' n (skipn n flat)
  end.

Definition reshape_rows {A : Type} (flat : list A) (n_samples : Z)
    : option (list (list A)) :=
  if (0 <? n_samples)
     && (Z.of_nat (length flat) mod n_samples =? 0)
  then Some (chunks (Z.to_nat (Z.of_nat (length flat) / n_samples))
                    (Z.to_nat n_samples) flat)
  else None.

Definition full {A : Type} (n : Z) (fill : A) : list A :=
  repeat fill (Z.to_nat n).

(** [dst[idx] = src] for arrays of rows of [N_SAMPLES] samples. *)
Definition scatter_rows (dst : list (list Z)) (idx : list Z)
    (src : list (list Z)) (n_samples : Z) : option (list (list Z)) :=
  if n_samples =? N_SAMPLES then scatter_loop dst idx src else None.

Definition fill_r0r1_camera_container (camera_config : CameraConfiguration)
    (zfits_event : ZfitsEvent) : option R0R1 :=
  let n_pixels := num_pixels camera_config in
  let n_samples := num_samples camera_config in
  let expected_pixels := expected_pixels_id camera_config in
  let has_low_gain :=
    map (fun s => truthy (Z.land s PixelStatus.LOW_GAIN_STORED))
        (pixel_status zfits_event) in
  let has_high_gain :=
    map (fun s => truthy (Z.land s PixelStatus.HIGH_GAIN_STORED))
        (pixel_status zfits_event) in
  let broken_pixels :=
    map (fun '(l, h) => negb (l || h)) (combine has_low_gain has_high_gain) in
  (* broken pixels have both false, so gain selected means checking
     if there are any pixels where exactly one of high or low gain is stored *)
  let gain_selected :=
    existsb (fun '(l, h) => xorb l h) (combine has_low_gain has_high_gain) in
  (* fill value for broken pixels *)
  let fill := waveform_max zfits_event in
  if gain_selected then
    let selected_gain :=
      map (fun h : bool => if h then 0 else 1) has_high_gain in
    waveform <- reshape_rows (waveform zfits_event) n_samples ;;
    if existsb (fun b => b) broken_pixels
       && (Z.of_nat (length waveform) <? n_pixels)
    then None
    else
      let reordered_waveform := full N_PIXELS (full N_SAMPLES fill) in
      reordered_waveform <-
        scatter_rows reordered_waveform expected_pixels waveform n_samples ;;
      let reordered_selected_gain := full N_PIXELS (-1) in
      reordered_selected_gain <-
        scatter_loop reordered_selected_gain expected_pixels selected_gain ;;
      Some (mkR0R1 None (Some reordered_waveform)
                   (Some reordered_selected_gain))
  else
    rows <- reshape_rows (waveform zfits_event) n_samples ;;
    if Z.of_nat (length rows) =? N_GAINS * n_pixels then
      let gain_rows :=
        chunks (Z.to_nat N_GAINS) (Z.to_nat n_pixels) rows in
      reordered_waveform <-
        for_each gain_rows (fun acc per_gain =>
          plane <- scatter_rows (full N_PIXELS (full N_SAMPLES fill))
                     expected_pixels per_gain n_samples ;;
          Some (acc ++ [plane])) [] ;;
      Some (mkR0R1 (Some reordered_waveform) None None)
    else None.

(** The companion vector the assembler emits: [None] when the assembly
    fails or the event is not gain selected. *)
Definition emitted_selected_gain (camera_config : CameraConfiguration)
    (zfits_event : ZfitsEvent) : option (list Z) :=
  r <- fill_r0r1_camera_container camera_config zfits_event ;;
  r1_selected_gain_channel r.

(** ** multifiles.py *)

Module MultiFiles.

Inductive exn : Type :=
| StopIteration
| ValueError_empty_paths
| IOError_multiple_run_ids
| IOError_no_camera_config
| KeyError.

Inductive result (A : Type) : Type :=
| Ok (a : A)
| Raise (e : exn).
Arguments Ok {A} a.
Arguments Raise {A} e.

(** The fields of the decoded messages the merger looks at. *)
Record Event : Type := mkEvent {
  event_id : Z;
  event_data : Z
}.

Record CameraConfig : Type := mkCameraConfig {
  configuration_id : Z;
  config_data : Z
}.

(** A table of an open file is an iterator over its rows; [len(table)] is
    the number of rows of the table, whatever has been consumed. *)
Record Table (A : Type) : Type := mkTable {
  rows_left : list A;
  n_rows : nat
}.
Arguments mkTable {A} _ _.
Arguments rows_left {A} _.
Arguments n_rows {A} _.

Definition table_of {A : Type} (rows : list A) : Table A :=
  mkTable rows (length rows).

(** [next(table)]: [None] stands for [StopIteration]. *)
Definition next {A : Type} (t : Table A) : option (A * Table A) :=
  match rows_left t with
  | [] => None
  | x :: rest => Some (x, mkTable rest (n_rows t))
  end.

(** An open [protozfits.File]; [CameraConfig] is [None] when the file has
    no such attribute. *)
Record File : Type := mkFile {
  Events : Table Event;
  CameraConfig_ : option (Table CameraConfig)
}.

(** What is stored under a path. *)
Record FileContent : Type := mkFileContent {
  stored_events : list Event;
  stored_camera_config : option (list CameraConfig)
}.

Definition open_file (c : FileContent) : File :=
  mkFile (table_of (stored_events c))
         (option_map table_of (stored_camera_config c)).

(** Python dictionaries keep insertion order: assigning to a key that is
    present keeps its place, a new key goes last. *)
Section Dict.
Context {V : Type}.

Fixpoint dict_get (d : list (string * V)) (k : string) : option V :=
    match d with
    | [] => None
    | (k', v) :: rest => if String.eqb k' k then Some v else dict_get rest k
    end.

Fixpoint dict_set (d : list (string * V)) (k : string) (v : V)
      : list (string * V) :=
    match d with
    | [] => [(k, v)]
    | (k', v') :: rest =>
        if String.eqb k' k then (k', v) :: rest
        else (k', v') :: dict_set rest k v
    end.

Fixpoint dict_del (d : list (string * V)) (k : string)
      : list (string * V) :=
    match d with
    | [] => []
    | (k', v') :: rest =>
        if String.eqb k' k then rest else (k', v') :: dict_del rest k
    end.

Definition values (d : list (string * V)) : list V := map snd d.
Definition keys (d : list (string * V)) : list string := map fst d.
End Dict.

(** The dictionaries of a [MultiFiles] object.  [_events_table[path]] is
    the very object [_file[path].Events], so only its keys are kept. *)
Record Tables : Type := mkTables {
  _file : list (string * File);
  _events : list (string * Event);
  _events_table : list (string * unit);
  _camera_config : list (string * CameraConfig)
}.

Record t : Type := mkMultiFiles {
  tables : Tables;
  camera_config : CameraConfig
}.

(** The body of the loop over [paths] in [__init__]; [disk] gives the
    content found at a path. *)
Definition init_path (disk : string -> FileContent) (tb : Tables)
    (path : string) : Tables :=
  let f := open_file (disk path) in
  let tb := mkTables (dict_set (_file tb) path f) (_events tb)
                     (dict_set (_events_table tb) path tt)
                     (_camera_config tb) in
  match next (Events f) with
  | None => tb (* except StopIteration: pass *)
  | Some (ev, events') =>
      let f := mkFile events' (CameraConfig_ f) in
      let tb := mkTables (dict_set (_file tb) path f)
                         (dict_set (_events tb) path ev)
                         (_events_table tb) (_camera_config tb) in
      match CameraConfig_ f with
      | Some table =>
          match next table with
          | None => tb (* except StopIteration: pass *)
          | Some (config, table') =>
              mkTables (dict_set (_file tb) path (mkFile events' (Some table')))
                       (_events tb) (_events_table tb)
                       (dict_set (_camera_config tb) path config)
          end
      | None => tb (* only a warning *)
      end
  end.

Definition run_ids (tb : Tables) : list Z :=
  nodup Z.eq_dec (map configuration_id (values (_camera_config tb))).

Definition __init__ (disk : string -> FileContent) (paths : list string)
    : result t :=
  match paths with
  | [] => Raise ValueError_empty_paths
  | _ =>
      let tb := fold_left (init_path disk) paths (mkTables [] [] [] []) in
      if (1 <? length (run_ids tb))%nat
      then Raise IOError_multiple_run_ids
      else
        (* verify that we found a CameraConfig *)
        match values (_camera_config tb) with
        | [] => Raise IOError_no_camera_config
        | config :: _ => Ok (mkMultiFiles tb config)
        end
  end.

(** [min(items, key=lambda item: item[1].event_id)]: the first item among
    those of least key. *)
Fixpoint min_item (best : string * Event) (items : list (string * Event))
    : string * Event :=
  match items with
  | [] => best
  | item :: rest =>
      if event_id (snd item) <? event_id (snd best)
      then min_item item rest
      else min_item best rest
  end.

Definition next_event (mf : t) : result (Event * t) :=
  let tb := tables mf in
  match _events tb with
  | [] => Raise StopIteration
  | first :: others =>
      let min_path := fst (min_item first others) in
      (* return the minimal event id *)
      match dict_get (_events tb) min_path, dict_get (_file tb) min_path with
      | Some next_event, Some f =>
          match next (Events f) with
          | Some (ev, events') =>
              Ok (next_event,
                  mkMultiFiles
                    (mkTables
                       (dict_set (_file tb) min_path
                                 (mkFile events' (CameraConfig_ f)))
                       (dict_set (_events tb) min_path ev)
                       (_events_table tb) (_camera_config tb))
                    (camera_config mf))
          | None =>
              Ok (next_event,
                  mkMultiFiles
                    (mkTables (_file tb) (dict_del (_events tb) min_path)
                              (_events_table tb) (_camera_config tb))
                    (camera_config mf))
          end
      | _, _ => Raise KeyError
      end
  end.

Definition __len__ (mf : t) : nat :=
  list_sum
    (map (fun path =>
            match dict_get (_file (tables mf)) path with
            | Some f => n_rows (Events f)
            | None => O
            end)
         (keys (_events_table (tables mf)))).

(** [n] successive calls of [next_event], stopping at the first exception:
    the events returned and the object afterwards. *)
Fixpoint take (n : nat) (mf : t) : list Event * t :=
  match n with
  | O => ([], mf)
  | S n' =>
      match next_event mf with
      | Ok (ev, mf') => let (evs, mf'') := take n' mf' in (ev :: evs, mf'')
      | Raise _ => ([], mf)
      end
  end.

End MultiFiles.

(** * Vocabulary of the properties, and inputs they are tried on *)

(** The value written at [position] (weight 0.33) and at [position + 1]
    (weight 0.66) from the neighbours [wa] and [wb]. *)
Definition spike_A_value (weight wa wb : R) : R :=
  (wa + weight * IZR (int_of_float wb - int_of_float wa))%R.

(** A waveform with a fractional neighbour: sample 2 is 1/2, sample 5 is 1. *)
Definition fractional_waveform : list R :=
  [0; 0; 1 / 2; 0; 0; 1]%R ++ repeat 0%R 34.

Definition high_gain_stored (status : Z) : bool :=
  truthy (Z.land status PixelStatus.HIGH_GAIN_STORED).

Definition low_gain_stored (status : Z) : bool :=
  truthy (Z.land status PixelStatus.LOW_GAIN_STORED).

(** A two-pixel camera and an event whose first pixel stores the high gain
    only, whose second pixel stores both gains and whose third pixel stores
    none. *)
Definition three_pixel_camera : CameraConfiguration :=
  mkCameraConfiguration 3 40 [0; 1; 2].

Definition mixed_event : ZfitsEvent :=
  mkZfitsEvent [4; 12; 0] (repeat 0 120) 65535.

Definition gain_selected_event : ZfitsEvent :=
  mkZfitsEvent [4; 8; 4] (repeat 0 120) 65535.

Definition Shape2 {A : Type} (a : list (list A)) (n m : Z) : Prop :=
    Z.of_nat (length a) = n
    /\ Forall (fun row => Z.of_nat (length row) = m) a.

Definition All2 {A : Type} (P : A -> Prop) (a : list (list A)) : Prop :=
    Forall (Forall P) a.

(** A row of the pedestal table: 4096 + 40 values, the last 40 repeating
    the first 40. *)
Definition Wrapped (row : list Z) : Prop :=
  Z.of_nat (length row) = 4136
  /\ forall s, 0 <= s < 40 -> getitem row (4096 + s) = getitem row s.

(** What the specification asks of the row of pixel (g, p). *)
Definition pedestal_subtracted (waveform0 : list (list (list R)))
    (first_capacitors : list (list Z)) (pedestal : list (list (list Z)))
    (g p : Z) (row' : list R) : Prop :=
    forall s, 0 <= s < 40 ->
      exists old f pv,
        getitem3 waveform0 g p s = Some old
        /\ getitem2 first_capacitors g p = Some f
        /\ getitem3 pedestal g p ((f + s) mod 4096) = Some pv
        /\ getitem row' s = Some (old - IZR pv)%R.

(** The state of the two loops when gains below [G], and pixels below
    [Pn] of gain [G], have been treated. *)
Definition pedestal_progress (waveform0 : list (list (list R)))
    (first_capacitors : list (list Z)) (pedestal : list (list (list Z)))
    (G Pn : Z) (wf : list (list (list R))) : Prop :=
    Shape2 wf 2 1855
    /\ All2 (fun row : list R => Z.of_nat (length row) = 40) wf
    /\ forall g p, 0 <= g < 2 -> 0 <= p < 1855 ->
         ((g < G \/ (g = G /\ p < Pn)) ->
          exists row', getitem2 wf g p = Some row'
                       /\ pedestal_subtracted waveform0 first_capacitors
                            pedestal g p row')
         /\ (~ (g < G \/ (g = G /\ p < Pn)) ->
             getitem2 wf g p = getitem2 waveform0 g p).

(** [max(old - ped, 0)] for a possibly infinite [ped]. *)
Definition clamped_difference (old : R) (ped : float_result) : R :=
  match ped with
  | Finite p => Rmax (old - p) 0
  | PlusInfinity => 0%R
  end.

(** What the correction does to sample [s], given its value before and the
    last readout time of its capacitor. *)
Definition timelapse_corrected (time_now : Z) (old : R) (prev : Z)
    (new : R) : Prop :=
  (0 < prev /\ (time_diff_ms time_now prev < 100)%R ->
   new = clamped_difference old (ped_time (time_diff_ms time_now prev)))
  /\ (~ (0 < prev /\ (time_diff_ms time_now prev < 100)%R) -> new = old).

(** [l'] is [l] with some entries overwritten by [t]. *)
Definition StampedRow (t : Z) (l l' : list Z) : Prop :=
  length l' = length l
  /\ forall c, 0 <= c < Z.of_nat (length l) ->
               getitem l' c = getitem l c \/ getitem l' c = Some t.

(** Every entry of [lr'] is the entry of [lr] or a time allowed for its
    pixel. *)
Definition Stamped3 (allowed : Z -> Z -> Prop) (np : Z)
    (lr lr' : list (list (list Z))) : Prop :=
  forall g p c, 0 <= g < 2 -> 0 <= p < np -> 0 <= c < 4096 ->
    getitem3 lr' g p c = getitem3 lr g p c
    \/ exists t, allowed p t /\ getitem3 lr' g p c = Some t.

(** The shapes the stage relies on, for [np] pixels. *)
Definition TimelapseShapes (np : Z) (st : TimelapseState) : Prop :=
  Shape2 (waveform_of st) 2 np
  /\ All2 (fun row : list R => Z.of_nat (length row) = 40) (waveform_of st)
  /\ Shape2 (last_readout_time_of st) 2 np
  /\ All2 (fun row : list Z => Z.of_nat (length row) = 4096)
          (last_readout_time_of st).

(** The times an event may write for pixel [p]: the clock of a module one
    of whose seven slots is mapped to [p]. *)
Definition event_stamp (expected_pixels_id local_clock_counter : list Z)
    (p t : Z) : Prop :=
  exists module pixel_in_module,
    0 <= module < Z.of_nat (length expected_pixels_id) / N_PIXELS_MODULE
    /\ 0 <= pixel_in_module < N_PIXELS_MODULE
    /\ getitem expected_pixels_id
         (module * N_PIXELS_MODULE + pixel_in_module) = Some p
    /\ getitem local_clock_counter module = Some t.

(** An event the stage can process for [np] pixels and [n_modules]
    modules: a (2, np, 40) waveform, (2, np) first capacitors and a clock
    counter, an unsigned number, for every module. *)
Definition wf_timelapse_input (np : nat) (n_modules : Z)
    (ev : TimelapseInput) : bool :=
  has_shape3 (in_waveform ev) 2 np 40
  && has_shape2 (in_first_capacitors ev) 2 np
  && (n_modules <=? Z.of_nat (length (in_local_clock_counter ev)))
  && forallb (fun t => 0 <=? t) (in_local_clock_counter ev).

(** No module clock goes back from [ev1] to [ev2]. *)
Definition clocks_advance_pair (n_modules : Z) (ev1 ev2 : TimelapseInput)
    : bool :=
  forallb (fun m =>
             match getitem (in_local_clock_counter ev1) m,
                   getitem (in_local_clock_counter ev2) m with
             | Some t1, Some t2 => t1 <=? t2
             | _, _ => false
             end)
          (range n_modules).

Fixpoint clocks_advance (n_modules : Z) (events : list TimelapseInput)
    : bool :=
  match events with
  | ev1 :: ((ev2 :: _) as rest) =>
      clocks_advance_pair n_modules ev1 ev2 && clocks_advance n_modules rest
  | _ => true
  end.

(** No entry of [lr] exceeds a time the event with clocks [ck] may write
    for its pixel. *)
Definition Bounded (expected : list Z) (np : Z)
    (lr : list (list (list Z))) (ck : list Z) : Prop :=
  forall g p c v, 0 <= g < 2 -> 0 <= p < np -> 0 <= c < 4096 ->
    getitem3 lr g p c = Some v ->
    forall t, event_stamp expected ck p t -> v <= t.

(** Consecutive tables of a session: entry by entry the later value is the
    earlier one or a time written by the event in between, and is not
    smaller. *)
Definition Chain (expected : list Z) (np : Z)
    (tables : list (list (list (list Z)))) (events : list TimelapseInput)
    : Prop :=
  forall i a b,
    nth_error tables i = Some a -> nth_error tables (S i) = Some b ->
    forall g p c, 0 <= g < 2 -> 0 <= p < np -> 0 <= c < 4096 ->
      exists va vb,
        getitem3 a g p c = Some va
        /\ getitem3 b g p c = Some vb
        /\ va <= vb
        /\ (vb = va
            \/ exists ev,
                 nth_error events i = Some ev
                 /\ event_stamp expected (in_local_clock_counter ev) p vb).

(** A one-module camera and two events whose clock goes back from 10 to 5;
    the first event reads pixel 0 from capacitor 1824, the second from
    capacitor 800, which stamps twelve more capacitors from 1824 on. *)
Definition one_module_camera : list Z := [0; 1; 2; 3; 4; 5; 6].

Definition event_at_10 : TimelapseInput :=
  mkTimelapseInput (repeat (repeat (repeat 0%R 40) 7) 2) [10]
    [[1824; 0; 0; 0; 0; 0; 0]; [0; 0; 0; 0; 0; 0; 0]].

Definition event_at_5 : TimelapseInput :=
  mkTimelapseInput (repeat (repeat (repeat 0%R 40) 7) 2) [5]
    [[800; 100; 100; 100; 100; 100; 100];
     [100; 100; 100; 100; 100; 100; 100]].

Definition event_at_20 : TimelapseInput :=
  mkTimelapseInput (repeat (repeat (repeat 0%R 40) 7) 2) [20]
    [[800; 100; 100; 100; 100; 100; 100];
     [100; 100; 100; 100; 100; 100; 100]].

Module MultiFilesSpec.
Import MultiFiles.

(** The camera configuration [__init__] reads from a path: the first
    record of the CameraConfig table, and only when the file yields an
    event. *)
Definition config_read (disk : string -> FileContent) (path : string)
    : option CameraConfig :=
  match stored_events (disk path) with
  | [] => None
  | _ :: _ =>
      match stored_camera_config (disk path) with
      | Some (config :: _) => Some config
      | _ => None
      end
  end.

Definition configs_read (disk : string -> FileContent) (paths : list string)
    : list CameraConfig :=
  flat_map (fun path => match config_read disk path with
                        | Some config => [config]
                        | None => []
                        end) paths.

(** A run whose only file holds a camera configuration and no event, and
    a run whose second file holds a configuration of another run and no
    event. *)
Definition config_without_events (path : string) : FileContent :=
  mkFileContent [] (Some [mkCameraConfig 2008 0]).

Definition second_file_without_events (path : string) : FileContent :=
  if String.eqb path "b"
  then mkFileContent [] (Some [mkCameraConfig 2009 0])
  else mkFileContent [mkEvent 1 0] (Some [mkCameraConfig 2008 0]).

Definition two_file_run (path : string) : FileContent :=
  if String.eqb path "b"
  then mkFileContent [mkEvent 2 0; mkEvent 4 0; mkEvent 6 0]
                     (Some [mkCameraConfig 2008 1])
  else mkFileContent [mkEvent 1 0; mkEvent 3 0; mkEvent 5 0]
                     (Some [mkCameraConfig 2008 0]).

Definition le_id (e1 e2 : Event) : Prop := event_id e1 <= event_id e2.

(** The rows an input has not yet handed out. *)
Definition rows_of (tb : Tables) (path : string) : list Event :=
  match dict_get (_file tb) path with
  | Some f => rows_left (Events f)
  | None => []
  end.

(** The events still to be returned: for every cursor, its head event and
    the rows left in its file. *)
Definition pending (tb : Tables) : list Event :=
  flat_map (fun item => snd item :: rows_of tb (fst item)) (_events tb).

Definition MergeInv (tb : Tables) : Prop :=
  NoDup (keys (_events tb))
  /\ forall p, In p (keys (_events tb)) ->
               exists f, dict_get (_file tb) p = Some f.

Definition streams_sorted (tb : Tables) : Prop :=
  forall p e, In (p, e) (_events tb) ->
              StronglySorted le_id (e :: rows_of tb p).

Definition first_cursor (disk : string -> FileContent) (path : string)
    : list (string * Event) :=
  match stored_events (disk path) with
  | e :: _ => [(path, e)]
  | [] => []
  end.

(** The dictionaries when the paths [processed], all distinct, have been
    opened. *)
Definition Opened (disk : string -> FileContent) (tb : Tables)
    (processed : list string) : Prop :=
  keys (_file tb) = processed
  /\ keys (_events_table tb) = processed
  /\ (forall p, In p processed ->
        exists f,
          dict_get (_file tb) p = Some f
          /\ n_rows (Events f) = length (stored_events (disk p))
          /\ rows_left (Events f) = tl (stored_events (disk p)))
  /\ _events tb = flat_map (first_cursor disk) processed.

End MultiFilesSpec.

(** Events whose trigger bits come from the TIB alone: CALIBRATION|MONO
    and CALIBRATION|STEREO. *)
Definition calibration_mono_event : LSTEventContainer :=
  mkLSTEventContainer 1 5 0.

Definition calibration_stereo_event : LSTEventContainer :=
  mkLSTEventContainer 1 6 0.


(** * Further parts of the code *)

(** ** calibration.py: the capacitors stamped by one readout *)

(** Capacitor [c] lies among the [len] capacitors of the ring that start
    at [start]. *)
Definition in_ring_window (start len c : Z) : Prop :=
  (c - start) mod N_CAPACITORS_PIXEL < len.

(** The capacitors [update_last_readout_time] stamps: the 40 read out
    and, for an even pixel of the module whose region of interest starts
    in the last quarter of a channel, capacitors of the next channel. *)
Definition stamped (pixel_in_module first_capacitor c : Z) : Prop :=
  in_ring_window first_capacitor 40 c
  \/ (pixel_in_module mod 2 = 0
      /\ 767 < first_capacitor mod 1024 < 1013
      /\ in_ring_window (first_capacitor + 1024) 12 c)
  \/ (pixel_in_module mod 2 = 0
      /\ 1013 <= first_capacitor mod 1024
      /\ in_ring_window (first_capacitor + 1024)
           (1024 - first_capacitor mod 1024) c).

Definition stamped_old_firmware (pixel_in_module first_capacitor c : Z)
    : Prop :=
  in_ring_window (first_capacitor - 1) 40 c
  \/ (pixel_in_module mod 2 = 0
      /\ 766 < first_capacitor mod 1024 < 1013
      /\ in_ring_window (first_capacitor + 1023) 12 c)
  \/ (pixel_in_module mod 2 = 0
      /\ 1013 <= first_capacitor mod 1024
      /\ in_ring_window (first_capacitor + 1024)
           (1024 - first_capacitor mod 1024) c).

(** ** calibration.py: spike positions *)

(** A position at which [interpolate_spike_A] may be called. *)
Definition in_spike_window (p : Z) : bool := (2 <? p) && (p <? 38).

(** The four positions a quarter of the ring apart, starting at [a]. *)
Definition quarter_turns (a : Z) : list Z :=
  map (fun k => (a + k * 1024) mod 4096) (range 4).

(** ** calibration.py: the spike and pedestal stages over a camera *)

Section CameraStages.
Variable LAST_RUN_WITH_OLD_FIRMWARE : Z.

Definition interpolate_spikes (waveform : list (list (list R)))
      (first_capacitors previous_first_capacitors : list (list Z))
      (run_id : Z) : option (list (list (list R))) :=
    for_each (range N_GAINS) (fun waveform gain =>
      for_each (range N_PIXELS) (fun waveform pixel =>
        current_fc <- getitem2 first_capacitors gain pixel ;;
        last_fc <- getitem2 previous_first_capacitors gain pixel ;;
        row <- getitem2 waveform gain pixel ;;
        row' <-
          (if LAST_RUN_WITH_OLD_FIRMWARE <? run_id then
             interpolate_spikes_pixel row current_fc last_fc
           else
             interpolate_spikes_pixel_old_firmware row current_fc last_fc) ;;
        setitem2 waveform gain pixel row') waveform) waveform.

Definition interpolate_spikes_gain_selected (waveform : list (list R))
      (first_capacitors previous_first_capacitors : list (list Z))
      (selected_gain_channel : list Z) (run_id : Z)
      : option (list (list R)) :=
    for_each (range N_PIXELS) (fun waveform pixel =>
      gain <- getitem selected_gain_channel pixel ;;
      current_fc <- getitem2 first_capacitors gain pixel ;;
      last_fc <- getitem2 previous_first_capacitors gain pixel ;;
      row <- getitem waveform pixel ;;
      row' <-
        (if LAST_RUN_WITH_OLD_FIRMWARE <? run_id then
           interpolate_spikes_pixel row current_fc last_fc
         else
           interpolate_spikes_pixel_old_firmware row current_fc last_fc) ;;
      setitem waveform pixel row') waveform.

End CameraStages.

Definition subtract_pedestal_gain_selected (waveform : list (list R))
    (first_capacitors : list (list Z))
    (pedestal_value_array : list (list (list Z)))
    (selected_gain_channel : list Z) : option (list (list R)) :=
  for_each (range N_PIXELS) (fun waveform pixel_id =>
    gain <- getitem selected_gain_channel pixel_id ;;
    first_cap <- getitem2 first_capacitors gain pixel_id ;;
    pedestal_row <- getitem2 pedestal_value_array gain pixel_id ;;
    let pedestal :=
      slice pedestal_row first_cap (first_cap + N_SAMPLES) in
    row <- getitem waveform pixel_id ;;
    row' <- isub row pedestal ;;
    setitem waveform pixel_id row') waveform.

(** The gain plane an entry of [selected_gain_channel] indexes: the
    marker -1 of a pixel without data counts from the end, which is the
    low gain. *)
Definition gain_plane (marker : Z) : Z := marker mod N_GAINS.

(** A camera of identical pixels, and a gain-selected camera whose last
    pixel has no data. *)
Definition uniform2 {A : Type} (x : A) : list (list A) :=
  repeat (repeat x 1855) 2.

Definition markers_with_absent_pixel : list Z := repeat 0 1854 ++ [-1].

(** ** calibration.py: first capacitors of the pixels *)

Definition N_CHANNELS_MODULE : Z := 8.
Definition CHANNEL_ORDER_HIGH_GAIN : list Z := [0; 0; 1; 1; 2; 2; 3].
Definition CHANNEL_ORDER_LOW_GAIN : list Z := [4; 4; 5; 5; 6; 6; 7].

Definition uint16 (z : Z) : Z := z mod 2 ^ 16.

(** [np.repeat(a, k)] and [np.tile(a, n)]. *)
Definition np_repeat {A : Type} (a : list A) (k : nat) : list A :=
  flat_map (fun x => repeat x k) a.

Definition np_tile {A : Type} (a : list A) (n : Z) : list A :=
  concat (repeat a (Z.to_nat n)).

(** The pair (low_gain, high_gain) of channel indices. *)
Definition pixel_channel_indices (n_modules : Z) : list Z * list Z :=
  let module_index := np_repeat (range n_modules) 7 in
  let low_gain :=
    map (fun '(m, c) => m * N_CHANNELS_MODULE + c)
        (combine module_index (np_tile CHANNEL_ORDER_LOW_GAIN n_modules)) in
  let high_gain :=
    map (fun '(m, c) => m * N_CHANNELS_MODULE + c)
        (combine module_index (np_tile CHANNEL_ORDER_HIGH_GAIN n_modules)) in
  (low_gain, high_gain).

(** [a[idx]] with an index array. *)
Fixpoint take_indices {A : Type} (a : list A) (idx : list Z)
    : option (list A) :=
  match idx with
  | [] => Some []
  | i :: idx' =>
      x <- getitem a i ;; xs <- take_indices a idx' ;; Some (x :: xs)
  end.

(** [dst[:] = src] for a row: the lengths must agree, or [src] hold one
    value. *)
Definition assign_row {A : Type} (dst src : list A) : option (list A) :=
  if Nat.eqb (length src) (length dst) then Some src
  else
    match src with
    | [x] => Some (repeat x (length dst))
    | _ => None
    end.

(** [fc] has dtype uint16: what is stored is cast to it. *)
Definition get_first_capacitors_for_pixels (first_capacitor_id : list Z)
    (expected_pixel_id : option (list Z)) : option (list (list Z)) :=
  let fc := repeat (repeat 0 (Z.to_nat N_PIXELS)) (Z.to_nat N_GAINS) in
  let n_modules :=
    Z.of_nat (length first_capacitor_id) / N_CHANNELS_MODULE in
  let '(low_gain_channels, high_gain_channels) :=
    pixel_channel_indices n_modules in
  low_gain <- take_indices first_capacitor_id low_gain_channels ;;
  high_gain <- take_indices first_capacitor_id high_gain_channels ;;
  match expected_pixel_id with
  | None =>
      row <- getitem fc LOW_GAIN ;;
      row <- assign_row row (map uint16 low_gain) ;;
      fc <- setitem fc LOW_GAIN row ;;
      row <- getitem fc HIGH_GAIN ;;
      row <- assign_row row (map uint16 high_gain) ;;
      setitem fc HIGH_GAIN row
  | Some expected_pixel_id =>
      row <- getitem fc LOW_GAIN ;;
      row <- scatter_loop row expected_pixel_id (map uint16 low_gain) ;;
      fc <- setitem fc LOW_GAIN row ;;
      row <- getitem fc HIGH_GAIN ;;
      row <- scatter_loop row expected_pixel_id (map uint16 high_gain) ;;
      setitem fc HIGH_GAIN row
  end.

(** The first capacitors a camera of one module delivers, chip by chip,
    and its pixel ids. *)
Definition one_module_first_capacitor_id : list Z :=
  [10; 20; 30; 40; 50; 60; 70; 80].

Definition one_module_pixel_ids : list Z := [3; 1; 4; 0; 5; 9; 2].

(** ** __init__.py: the monitoring container *)

Definition get_channel_info (pixel_status : list Z) : list Z :=
  map (fun status => Z.shiftr (Z.land status 12) 2) pixel_status.

(** The array [hardware_failing_pixels], of shape (N_GAINS, N_PIXELS),
    after [fill_mon_container]: the row [channel_info == 0] is broadcast
    to both gains. *)
Definition fill_mon_container (expected_pixels_id : list Z)
    (pixel_status : list Z) : option (list (list bool)) :=
  let reordered_pixel_status := full N_PIXELS 0 in
  reordered_pixel_status <-
    scatter_loop reordered_pixel_status expected_pixels_id pixel_status ;;
  let channel_info := get_channel_info reordered_pixel_status in
  Some (repeat (map (fun c => c =? 0) channel_info) (Z.to_nat N_GAINS)).

(** ** __init__.py: event types set after the trigger information *)

Definition event_type_eqb (a b : EventType.t) : bool :=
  match a, b with
  | EventType.SUBARRAY, EventType.SUBARRAY
  | EventType.FLATFIELD, EventType.FLATFIELD
  | EventType.SKY_PEDESTAL, EventType.SKY_PEDESTAL
  | EventType.SINGLE_PE, EventType.SINGLE_PE
  | EventType.UNKNOWN, EventType.UNKNOWN => true
  | _, _ => false
  end.

(** [pedestal_ids] is the set of event ids read from the table of
    interleaved pedestals. *)
Definition check_interleaved_pedestal (pedestal_ids : list Z)
    (event_id : Z) (event_type : EventType.t) : EventType.t :=
  if existsb (Z.eqb event_id) pedestal_ids then EventType.SKY_PEDESTAL
  else if event_type_eqb event_type EventType.SKY_PEDESTAL
  then EventType.SUBARRAY
  else event_type.

(** The R1 waveform of an event: both gains, or gain selected. *)
Inductive R1Waveform : Type :=
| BothGains (waveform : list (list (list R)))
| GainSelected (waveform : list (list R)).

(** [a.sum(axis=1)] and [np.count_nonzero]. *)
Definition sum_axis1 (a : list (list R)) : list R :=
  map (fun row => fold_left Rplus row 0%R) a.

Definition count_nonzero (a : list bool) : nat :=
  length (filter (fun b => b) a).

Definition Rleb (x y : R) : bool := if Rle_dec x y then true else false.

(** The test of [tag_flatfield_events]. *)
Definition looks_like_ff (min_flatfield_adc max_flatfield_adc
    min_flatfield_pixel_fraction : R) (waveform : R1Waveform)
    : option bool :=
  image <-
    match waveform with
    | BothGains waveform =>
        plane <- getitem waveform HIGH_GAIN ;; Some (sum_axis1 plane)
    | GainSelected waveform => Some (sum_axis1 waveform)
    end ;;
  let in_range :=
    map (fun x => Rleb min_flatfield_adc x && Rleb x max_flatfield_adc)
        image in
  let n_in_range := count_nonzero in_range in
  Some (Rleb (min_flatfield_pixel_fraction * INR (length image))
             (INR n_in_range)).

Definition tag_flatfield_events (min_flatfield_adc max_flatfield_adc
    min_flatfield_pixel_fraction : R) (waveform : R1Waveform)
    (event_type : EventType.t) : option EventType.t :=
  ff <- looks_like_ff min_flatfield_adc max_flatfield_adc
          min_flatfield_pixel_fraction waveform ;;
  if ff then Some EventType.FLATFIELD
  else if event_type_eqb event_type EventType.FLATFIELD
  then Some EventType.UNKNOWN
  else Some event_type.

(** A gain-selected waveform of two pixels, the first of which sums to a
    value between 100 and 200. *)
Definition two_pixel_waveform : R1Waveform :=
  GainSelected [[60; 50]; [1; 1]]%R.

(** ** __init__.py: inputs of the container assembly *)

(** A gain-selected event of three pixels with 40 samples each, the
    samples numbered from 0. *)
Definition numbered_event : ZfitsEvent :=
  mkZfitsEvent [4; 8; 4] (range 120) 65535.

Definition shuffled_camera : CameraConfiguration :=
  mkCameraConfiguration 3 40 [2; 0; 1].

(** An event of three pixels that stores both gains, 40 samples each,
    the samples numbered from 0. *)
Definition numbered_event_both_gains : ZfitsEvent :=
  mkZfitsEvent [12; 12; 12] (range 240) 65535.

(** ** multifiles.py: the number of inputs *)


(** A merger whose two cursors hold events of the same id. *)
Definition tied_cursors : MultiFiles.t :=
  MultiFiles.mkMultiFiles
    (MultiFiles.mkTables
       [("a"%string,
         MultiFiles.mkFile
           (MultiFiles.mkTable [MultiFiles.mkEvent 9 0] 2) None);
        ("b"%string,
         MultiFiles.mkFile (MultiFiles.mkTable [] 1) None)]
       [("a"%string, MultiFiles.mkEvent 7 0);
        ("b"%string, MultiFiles.mkEvent 7 1)]
       [("a"%string, tt); ("b"%string, tt)]
       [("a"%string, MultiFiles.mkCameraConfig 2008 0)])
    (MultiFiles.mkCameraConfig 2008 0).

(** ** calibration.py: a row of last readout times for the time-lapse
    kernel *)

(** No capacitor read before, except capacitor 3, read at time 1000. *)
Definition one_capacitor_read : list Z :=
  repeat 0 3 ++ [1000] ++ repeat 0 4092.

(** ** calibration.py: what the time-lapse stage does to one pixel *)

Section TimelapseSlot.
Variable LAST_RUN_WITH_OLD_FIRMWARE : Z.

(** The row of last readout times of a pixel after its readout at
    [time_now], by the firmware of the run. *)
Definition update_last_readout_time_of_run (run_id pixel_in_module
      first_capacitor time_now : Z) (last_readout_time : list Z)
      : option (list Z) :=
    if LAST_RUN_WITH_OLD_FIRMWARE <? run_id then
      update_last_readout_time pixel_in_module first_capacitor time_now
        last_readout_time
    else
      update_last_readout_time_old_firmware pixel_in_module
        first_capacitor time_now last_readout_time.

End TimelapseSlot.

(** The rows of pixel (g, p) in the two arrays of the stage. *)
Definition pixel_rows (st : TimelapseState) (g p : Z)
    : option (list R) * option (list Z) :=
  (getitem2 (waveform_of st) g p, getitem2 (last_readout_time_of st) g p).

Section TimelapseProgress.
Variable LAST_RUN_WITH_OLD_FIRMWARE : Z.
Variable np : Z.
Variable waveform0 : list (list (list R)).
Variable last_readout_time0 : list (list (list Z)).
Variable local_clock_counter : list Z.
Variable first_capacitors : list (list Z).
Variable expected_pixels_id : list Z.
Variable run_id : Z.

(** What slot [i] of [expected_pixels_id] makes of the rows of its pixel
    [p] in gain [g]: the module is [i / 7], the pixel in the module
    [i mod 7]. *)
Definition slot_result (g i p : Z)
      (rows : option (list R) * option (list Z)) : Prop :=
    exists wrow fc lrow time_now,
      getitem2 waveform0 g p = Some wrow
      /\ getitem2 first_capacitors g p = Some fc
      /\ getitem2 last_readout_time0 g p = Some lrow
      /\ getitem local_clock_counter (i / 7) = Some time_now
      /\ fst rows = apply_timelapse_correction_pixel wrow fc time_now lrow
      /\ snd rows
         = update_last_readout_time_of_run LAST_RUN_WITH_OLD_FIRMWARE
             run_id (i mod 7) fc time_now lrow.

(** The state when the gains below [G], and the slots below [I] of gain
    [G], have been treated. *)
Definition slots_done (G I : Z) (st : TimelapseState) : Prop :=
    TimelapseShapes np st
    /\ (forall g i p, 0 <= g < 2 ->
          0 <= i < 7 * (Z.of_nat (length expected_pixels_id)
                        / N_PIXELS_MODULE) ->
          getitem expected_pixels_id i = Some p ->
          ((g < G \/ (g = G /\ i < I)) ->
           slot_result g i p (pixel_rows st g p))
          /\ (~ (g < G \/ (g = G /\ i < I)) ->
              pixel_rows st g p
              = pixel_rows
                  (mkTimelapseState waveform0 last_readout_time0) g p))
    /\ (forall g p, 0 <= g < 2 -> 0 <= p < np ->
          (forall i, 0 <= i < 7 * (Z.of_nat (length expected_pixels_id)
                                   / N_PIXELS_MODULE) ->
                     getitem expected_pixels_id i <> Some p) ->
          pixel_rows st g p
          = pixel_rows (mkTimelapseState waveform0 last_readout_time0)
              g p).

End TimelapseProgress.

(** The arrays of a camera of ten pixels with one module, read at clock
    134000. *)
Definition ten_pixels {A : Type} (x : A) : list (list A) :=
  repeat (repeat x 10) 2.

(** * Properties *)

(** ** Array access *)

Section IndexingFacts.
Context {A : Type}.

Lemma norm_index_nonneg (n : nat) (i : Z) :
    0 <= i < Z.of_nat n -> norm_index n i = Some (Z.to_nat i).
  Proof.
    intros H. unfold norm_index.
    replace (0 <=? i) with true by (symmetry; apply Z.leb_le; lia).
    replace (i <? Z.of_nat n) with true by (symmetry; apply Z.ltb_lt; lia).
    reflexivity.
  Qed.

Lemma norm_index_lt (n : nat) (i : Z) (k : nat) :
    norm_index n i = Some k -> (k < n)%nat.
  Proof.
    unfold norm_index.
    destruct ((0 <=? i) && (i <? Z.of_nat n)) eqn:E1.
    - apply andb_prop in E1 as [H1 H2].
      apply Z.leb_le in H1. apply Z.ltb_lt in H2.
      intros [= <-]. lia.
    - destruct ((- Z.of_nat n <=? i) && (i <? 0)) eqn:E2; [|discriminate].
      apply andb_prop in E2 as [H1 H2].
      apply Z.leb_le in H1. apply Z.ltb_lt in H2.
      intros [= <-]. lia.
  Qed.

Lemma length_update (l : list A) (k : nat) (v : A) :
    length (update l k v) = length l.
  Proof.
    revert k. induction l as [|h t IH]; intros [|k]; simpl; auto.
  Qed.

Lemma nth_error_update_eq (l : list A) (k : nat) (v : A) :
    (k < length l)%nat -> nth_error (update l k v) k = Some v.
  Proof.
    revert k. induction l as [|h t IH]; intros [|k] H; simpl in *;
      try lia; auto.
    apply IH. lia.
  Qed.

Lemma nth_error_update_neq (l : list A) (k j : nat) (v : A) :
    j <> k -> nth_error (update l k v) j = nth_error l j.
  Proof.
    revert k j. induction l as [|h t IH]; intros [|k] [|j] H; simpl;
      try congruence; auto.
  Qed.

Lemma getitem_nonneg (l : list A) (i : Z) :
    0 <= i < Z.of_nat (length l) -> getitem l i = nth_error l (Z.to_nat i).
  Proof.
    intros H. unfold getitem. rewrite norm_index_nonneg by exact H.
    reflexivity.
  Qed.

Lemma getitem_some (l : list A) (i : Z) :
    0 <= i < Z.of_nat (length l) -> exists v, getitem l i = Some v.
  Proof.
    intros H. rewrite getitem_nonneg by exact H.
    destruct (nth_error l (Z.to_nat i)) eqn:E; [eauto|].
    apply nth_error_None in E. lia.
  Qed.

Lemma setitem_nonneg (l : list A) (i : Z) (v : A) :
    0 <= i < Z.of_nat (length l) ->
    setitem l i v = Some (update l (Z.to_nat i) v).
  Proof.
    intros H. unfold setitem. rewrite norm_index_nonneg by exact H.
    reflexivity.
  Qed.

Lemma setitem_length (l l' : list A) (i : Z) (v : A) :
    setitem l i v = Some l' -> length l' = length l.
  Proof.
    unfold setitem. destruct (norm_index (length l) i); simpl; [|discriminate].
    intros [= <-]. apply length_update.
  Qed.

Lemma getitem_update_eq (l : list A) (i : Z) (v : A) :
    0 <= i < Z.of_nat (length l) ->
    getitem (update l (Z.to_nat i) v) i = Some v.
  Proof.
    intros H. rewrite getitem_nonneg by (rewrite length_update; exact H).
    apply nth_error_update_eq. lia.
  Qed.

Lemma getitem_update_neq (l : list A) (i j : Z) (v : A) :
    0 <= i -> 0 <= j < Z.of_nat (length l) -> j <> i ->
    getitem (update l (Z.to_nat i) v) j = getitem l j.
  Proof.
    intros Hi Hj Hne.
    rewrite !getitem_nonneg by (rewrite ?length_update; exact Hj).
    apply nth_error_update_neq. lia.
  Qed.

Lemma getitem_setitem_eq (l l' : list A) (i : Z) (v : A) :
    0 <= i < Z.of_nat (length l) ->
    setitem l i v = Some l' -> getitem l' i = Some v.
  Proof.
    intros H. rewrite setitem_nonneg by exact H. intros [= <-].
    apply getitem_update_eq, H.
  Qed.

Lemma getitem_setitem_neq (l l' : list A) (i j : Z) (v : A) :
    0 <= i < Z.of_nat (length l) -> 0 <= j < Z.of_nat (length l) ->
    j <> i -> setitem l i v = Some l' -> getitem l' j = getitem l j.
  Proof.
    intros Hi Hj Hne. rewrite setitem_nonneg by exact Hi. intros [= <-].
    apply getitem_update_neq; lia.
  Qed.

End IndexingFacts.

Lemma range_4 : range 4 = [0; 1; 2; 3].
Proof. reflexivity. Qed.

Lemma bind_some {A B : Type} (m : option A) (k : A -> option B) (x : A) :
  m = Some x -> bind m k = k x.
Proof. intros ->. reflexivity. Qed.

(** ** Spike A: which candidates are interpolated *)

Lemma even_eqb (x : Z) : Z.even x = (x mod 2 =? 0).
Proof.
  rewrite (Zmod_even x). destruct (Z.even x); reflexivity.
Qed.

(** The two ways the source tests the last capacitor agree with the
    specification's wording, for both limits: an even capacitor that is at
    most 511 is at most 510. *)
Lemma last_capacitor_test (x limit : Z) :
  510 <= limit <= 511 ->
  ((x mod 1024) mod 2 =? 0) && (x mod 1024 <=? limit)
  = Z.even x && (x mod 1024 <=? 510).
Proof.
  intros Hl. rewrite even_eqb. apply eq_true_iff_eq.
  rewrite !andb_true_iff, !Z.eqb_eq, !Z.leb_le.
  Z.div_mod_to_equations. lia.
Qed.

Lemma last_lc_test (x limit : Z) :
  510 <= limit <= 511 ->
  (x mod 2 =? 0) && (x mod 1024 <=? limit)
  = Z.even x && (x mod 1024 <=? 510).
Proof.
  intros Hl. rewrite even_eqb. apply eq_true_iff_eq.
  rewrite !andb_true_iff, !Z.eqb_eq, !Z.leb_le.
  Z.div_mod_to_equations. lia.
Qed.

Lemma spike_A_qualifies_510 (limit last_fc pos : Z) :
  510 <= limit <= 511 ->
  spike_A_qualifies limit last_fc pos
  = (2 <? pos) && (pos <? 38)
    && (Z.even (last_fc + 39) && ((last_fc + 39) mod 1024 <=? 510)).
Proof.
  intros Hl. unfold spike_A_qualifies.
  rewrite <- !andb_assoc. do 2 f_equal.
  rewrite even_eqb. apply eq_true_iff_eq.
  rewrite !andb_true_iff, !Z.eqb_eq, !Z.leb_le.
  Z.div_mod_to_equations. lia.
Qed.

Section SpikeKernelFacts.
Context {W : Type}.
Variable f : W -> Z -> W.

(** One loop iteration makes exactly the calls of its two candidates
    that qualify, in order. *)
Lemma interpolate_spikes_pixel_iter_calls (current_fc last_fc : Z)
      (w : W) (k : Z) :
    interpolate_spikes_pixel_iter f current_fc last_fc w k
    = fold_left f
        (filter (spike_A_qualifies 511 last_fc)
           [spike_A_candidate false 1 current_fc last_fc k;
            spike_A_candidate false 2 current_fc last_fc k]) w.
  Proof.
    unfold interpolate_spikes_pixel_iter, spike_A_candidate.
    unfold N_SAMPLES, N_CAPACITORS_PIXEL, N_CAPACITORS_CHANNEL.
    change (1024 / 2 - 1) with 511. change (40 - 2) with 38.
    replace (last_fc + 40 - 1) with (last_fc + 39) by lia.
    set (p1 := (1024 + 1 - 40 - 2 - last_fc + k * 1024 + 4 * 1024
                - current_fc + 4 * 1024) mod (4 * 1024)).
    set (p2 := (40 - 1 + last_fc + k * 1024 - current_fc + 4 * 1024)
               mod (4 * 1024)).
    simpl filter.
    rewrite !(spike_A_qualifies_510 511) by lia.
    rewrite (last_capacitor_test _ 511), (last_lc_test _ 511) by lia.
    destruct ((2 <? p1) && (p1 <? 38)), ((2 <? p2) && (p2 <? 38));
      destruct (Z.even (last_fc + 39) && ((last_fc + 39) mod 1024 <=? 510));
      reflexivity.
  Qed.

Lemma interpolate_spikes_pixel_old_firmware_iter_calls
      (current_fc last_fc : Z) (w : W) (k : Z) :
    interpolate_spikes_pixel_old_firmware_iter f current_fc last_fc w k
    = fold_left f
        (filter (spike_A_qualifies 510 last_fc)
           [spike_A_candidate true 1 current_fc last_fc k;
            spike_A_candidate true 2 current_fc last_fc k]) w.
  Proof.
    unfold interpolate_spikes_pixel_old_firmware_iter, spike_A_candidate.
    unfold N_SAMPLES, N_CAPACITORS_PIXEL, N_CAPACITORS_CHANNEL.
    change (1024 / 2 - 1) with 511. change (1024 / 2 - 2) with 510.
    replace (last_fc + 40 - 1) with (last_fc + 39) by lia.
    set (p1 := (1024 - 40 - 2 - last_fc + k * 1024 + 4 * 1024
                - current_fc + 4 * 1024) mod (4 * 1024)).
    set (p2 := (40 - 2 + last_fc + k * 1024 - current_fc + 4 * 1024)
               mod (4 * 1024)).
    change (40 - 2) with 38.
    simpl filter.
    rewrite !(spike_A_qualifies_510 510) by lia.
    rewrite (last_capacitor_test _ 510), (last_lc_test _ 511) by lia.
    destruct ((2 <? p1) && (p1 <? 38)), ((2 <? p2) && (p2 <? 38));
      destruct (Z.even (last_fc + 39) && ((last_fc + 39) mod 1024 <=? 510));
      reflexivity.
  Qed.

Lemma interpolate_spikes_pixel_with_calls (current_fc last_fc : Z)
      (w : W) :
    interpolate_spikes_pixel_with f w current_fc last_fc
    = fold_left f
        (filter (spike_A_qualifies 511 last_fc)
                (spike_A_candidates false current_fc last_fc)) w.
  Proof.
    unfold interpolate_spikes_pixel_with, spike_A_candidates.
    rewrite range_4. cbn [fold_left flat_map].
    rewrite !interpolate_spikes_pixel_iter_calls.
    rewrite !filter_app, !fold_left_app. reflexivity.
  Qed.

Lemma interpolate_spikes_pixel_old_firmware_with_calls
      (current_fc last_fc : Z) (w : W) :
    interpolate_spikes_pixel_old_firmware_with f w current_fc last_fc
    = fold_left f
        (filter (spike_A_qualifies 510 last_fc)
                (spike_A_candidates true current_fc last_fc)) w.
  Proof.
    unfold interpolate_spikes_pixel_old_firmware_with, spike_A_candidates.
    rewrite range_4. cbn [fold_left flat_map].
    rewrite !interpolate_spikes_pixel_old_firmware_iter_calls.
    rewrite !filter_app, !fold_left_app. reflexivity.
  Qed.

End SpikeKernelFacts.

Lemma fold_left_spike_A_on_log (positions log : list Z) :
  fold_left spike_A_on_log positions log = log ++ positions.
Proof.
  revert log. induction positions as [|p ps IH]; intros log; simpl.
  - now rewrite app_nil_r.
  - rewrite IH. unfold spike_A_on_log. now rewrite <- app_assoc.
Qed.

Lemma spike_A_calls_filter (current_fc last_fc : Z) :
  spike_A_calls current_fc last_fc
  = filter (spike_A_qualifies 511 last_fc)
           (spike_A_candidates false current_fc last_fc).
Proof.
  unfold spike_A_calls.
  now rewrite interpolate_spikes_pixel_with_calls, fold_left_spike_A_on_log.
Qed.

Lemma spike_A_calls_old_firmware_filter (current_fc last_fc : Z) :
  spike_A_calls_old_firmware current_fc last_fc
  = filter (spike_A_qualifies 510 last_fc)
           (spike_A_candidates true current_fc last_fc).
Proof.
  unfold spike_A_calls_old_firmware.
  now rewrite interpolate_spikes_pixel_old_firmware_with_calls,
    fold_left_spike_A_on_log.
Qed.

(** C3.  For every current and previous first capacitor, the calls of
    [interpolate_spike_A] made by the per-pixel kernel are, in loop order,
    exactly those of the eight candidate positions (case 1 and case 2 for
    each k in 0..3) with 2 < pos < 38 whose previous last capacitor
    fc_prev + 39 is even and at most 511 within its 1024-capacitor channel
    (new firmware), respectively at most 510 (old firmware). *)
Theorem spike_A_candidate_qualification (current_fc last_fc : Z) :
  spike_A_calls current_fc last_fc
  = filter (spike_A_qualifies 511 last_fc)
           (spike_A_candidates false current_fc last_fc)
  /\ spike_A_calls_old_firmware current_fc last_fc
     = filter (spike_A_qualifies 510 last_fc)
              (spike_A_candidates true current_fc last_fc).
Proof.
  split.
  - apply spike_A_calls_filter.
  - apply spike_A_calls_old_firmware_filter.
Qed.

(** ** Spike A: the interpolation *)

Lemma int_of_float_IZR (z : Z) : int_of_float (IZR z) = z.
Proof.
  unfold int_of_float. destruct (Rle_dec 0 (IZR z)) as [H|H].
  - symmetry. apply Int_part_spec. lra.
  - rewrite <- opp_IZR.
    rewrite <- (Int_part_spec (IZR (- z)) (- z)) by lra. lia.
Qed.

Lemma int_of_float_half : int_of_float (1 / 2)%R = 0.
Proof.
  unfold int_of_float. destruct (Rle_dec 0 (1 / 2)) as [H|H]; [|lra].
  symmetry. apply Int_part_spec. simpl. lra.
Qed.

Lemma interpolate_spike_A_result (w : list R) (pos : Z) (wa wb : R) :
  1 <= pos -> pos + 2 < Z.of_nat (length w) ->
  getitem w (pos - 1) = Some wa ->
  getitem w (pos + 2) = Some wb ->
  interpolate_spike_A w pos
  = Some (update (update w (Z.to_nat pos) (spike_A_value 0.33 wa wb))
                 (Z.to_nat (pos + 1)) (spike_A_value 0.66 wa wb)).
Proof.
  intros Hlo Hhi Ha Hb. unfold interpolate_spike_A.
  rewrite Ha, Hb. cbn [bind].
  rewrite setitem_nonneg by lia. cbn [bind].
  rewrite getitem_update_neq by lia. rewrite Ha. cbn [bind].
  rewrite setitem_nonneg by (rewrite length_update; lia).
  reflexivity.
Qed.

Lemma interpolate_spike_A_ok (w : list R) (pos : Z) :
  1 <= pos -> pos + 2 < Z.of_nat (length w) ->
  exists w', interpolate_spike_A w pos = Some w' /\ length w' = length w.
Proof.
  intros Hlo Hhi.
  destruct (getitem_some w (pos - 1)) as [wa Ha]; [lia|].
  destruct (getitem_some w (pos + 2)) as [wb Hb]; [lia|].
  eexists. split.
  - apply (interpolate_spike_A_result w pos wa wb); assumption.
  - now rewrite !length_update.
Qed.

(** C8, as stated, fails: at position 3 of [fractional_waveform] the kernel
    writes 1/2 + 0.33 * (int(1) - int(1/2)) = 0.83, not
    1/2 + 0.33 * (1 - 1/2) = 0.665. *)
Lemma interpolate_spike_A_truncates :
  exists w',
    interpolate_spike_A fractional_waveform 3 = Some w'
    /\ getitem fractional_waveform (3 - 1) = Some (1 / 2)%R
    /\ getitem fractional_waveform (3 + 2) = Some 1%R
    /\ getitem w' 3 = Some 0.83%R
    /\ (0.83 <> 1 / 2 + 0.33 * (1 - 1 / 2))%R.
Proof.
  eexists. split.
  - apply (interpolate_spike_A_result _ 3 (1 / 2)%R 1%R);
      [lia | simpl; lia | reflexivity | reflexivity].
  - split; [reflexivity|]. split; [reflexivity|]. split.
    + rewrite getitem_update_neq by (rewrite ?length_update; simpl; lia).
      rewrite getitem_update_eq by (simpl; lia).
      unfold spike_A_value.
      rewrite int_of_float_half, (int_of_float_IZR 1).
      f_equal. simpl. lra.
    + lra.
Qed.

(** C8, amended.  At a qualifying position of a 40-sample waveform the
    kernel overwrites samples pos and pos+1 with w[pos-1] + 0.33 * d and
    w[pos-1] + 0.66 * d, where d = int(w[pos+2]) - int(w[pos-1]) is the
    difference of the neighbours truncated toward zero, and leaves every
    other sample unchanged; when both neighbours are integer-valued this is
    the linear interpolation w[pos-1] + 0.33 * (w[pos+2] - w[pos-1]),
    respectively with 0.66. *)
Theorem interpolate_spike_A_values (waveform : list R) (pos : Z) :
  2 < pos < 38 ->
  length waveform = 40%nat ->
  exists a b w',
    getitem waveform (pos - 1) = Some a
    /\ getitem waveform (pos + 2) = Some b
    /\ interpolate_spike_A waveform pos = Some w'
    /\ getitem w' pos
       = Some (a + 0.33 * IZR (int_of_float b - int_of_float a))%R
    /\ getitem w' (pos + 1)
       = Some (a + 0.66 * IZR (int_of_float b - int_of_float a))%R
    /\ (forall i, 0 <= i < 40 -> i <> pos -> i <> pos + 1 ->
        getitem w' i = getitem waveform i)
    /\ (IZR (int_of_float a) = a -> IZR (int_of_float b) = b ->
        getitem w' pos = Some (a + 0.33 * (b - a))%R
        /\ getitem w' (pos + 1) = Some (a + 0.66 * (b - a))%R).
Proof.
  intros Hpos Hlen.
  destruct (getitem_some waveform (pos - 1)) as [a Ha]; [lia|].
  destruct (getitem_some waveform (pos + 2)) as [b Hb]; [lia|].
  exists a, b. eexists.
  split; [exact Ha|]. split; [exact Hb|].
  split; [apply (interpolate_spike_A_result waveform pos a b); lia || assumption|].
  assert (E0 : getitem (update (update waveform (Z.to_nat pos)
                                  (spike_A_value 0.33 a b))
                          (Z.to_nat (pos + 1)) (spike_A_value 0.66 a b)) pos
               = Some (spike_A_value 0.33 a b)).
  { rewrite getitem_update_neq by (rewrite ?length_update; lia).
    apply getitem_update_eq. lia. }
  assert (E1 : getitem (update (update waveform (Z.to_nat pos)
                                  (spike_A_value 0.33 a b))
                          (Z.to_nat (pos + 1)) (spike_A_value 0.66 a b))
                       (pos + 1)
               = Some (spike_A_value 0.66 a b)).
  { apply getitem_update_eq. rewrite length_update. lia. }
  split; [exact E0|]. split; [exact E1|]. split.
  - intros i Hi Hn0 Hn1.
    rewrite getitem_update_neq by (rewrite ?length_update; lia).
    apply getitem_update_neq; lia.
  - intros Ia Ib. rewrite E0, E1. unfold spike_A_value.
    rewrite minus_IZR, Ia, Ib. split; reflexivity.
Qed.

Lemma interpolate_spike_A_values_witness :
  exists a b w',
    getitem (repeat 7%R 40) (10 - 1) = Some a
    /\ getitem (repeat 7%R 40) (10 + 2) = Some b
    /\ interpolate_spike_A (repeat 7%R 40) 10 = Some w'
    /\ getitem w' 10
       = Some (a + 0.33 * IZR (int_of_float b - int_of_float a))%R
    /\ getitem w' (10 + 1)
       = Some (a + 0.66 * IZR (int_of_float b - int_of_float a))%R
    /\ (forall i, 0 <= i < 40 -> i <> 10 -> i <> 10 + 1 ->
        getitem w' i = getitem (repeat 7%R 40) i)
    /\ (IZR (int_of_float a) = a -> IZR (int_of_float b) = b ->
        getitem w' 10 = Some (a + 0.33 * (b - a))%R
        /\ getitem w' (10 + 1) = Some (a + 0.66 * (b - a))%R).
Proof.
  apply (interpolate_spike_A_values (repeat 7%R 40) 10); [lia | reflexivity].
Defined.

(** ** Spike A: the accesses stay inside the waveform *)

Lemma spike_A_qualifies_position (limit last_fc pos : Z) :
  spike_A_qualifies limit last_fc pos = true -> 2 < pos < 38.
Proof.
  unfold spike_A_qualifies. rewrite !andb_true_iff, !Z.ltb_lt. lia.
Qed.

Lemma spike_A_on_waveform_ok (positions : list Z) (w : list R) :
  length w = 40%nat ->
  Forall (fun pos => 2 < pos < 38) positions ->
  exists w',
    fold_left spike_A_on_waveform positions (Some w) = Some w'
    /\ length w' = 40%nat.
Proof.
  intros Hlen Hall. revert w Hlen.
  induction Hall as [|p ps Hp _ IH]; intros w Hlen; simpl.
  - eauto.
  - destruct (interpolate_spike_A_ok w p) as (w1 & E1 & L1); [lia | lia |].
    rewrite E1. apply IH. congruence.
Qed.

Lemma spike_A_accesses_in_bounds (pos : Z) :
  2 < pos < 38 -> Forall (fun i => 1 <= i <= 39) (spike_A_accesses pos).
Proof.
  intros H. unfold spike_A_accesses. repeat constructor; lia.
Qed.

(** C10.  Whatever the two first-capacitor values, every position at which
    either firmware variant calls [interpolate_spike_A] satisfies
    2 < position < 38, so the four samples the call reads or writes have
    indices in [1, 39]; and on a 40-sample waveform neither kernel ever
    raises an index error. *)
Theorem spike_stage_bounds_safety (current_fc last_fc : Z) :
  (forall pos,
      In pos (spike_A_calls current_fc last_fc)
      \/ In pos (spike_A_calls_old_firmware current_fc last_fc) ->
      2 < pos < 38
      /\ Forall (fun i => 1 <= i <= 39) (spike_A_accesses pos))
  /\ (forall waveform,
         length waveform = 40%nat ->
         exists w_new w_old,
           interpolate_spikes_pixel waveform current_fc last_fc = Some w_new
           /\ length w_new = 40%nat
           /\ interpolate_spikes_pixel_old_firmware waveform current_fc
                last_fc = Some w_old
           /\ length w_old = 40%nat).
Proof.
  assert (Hpos : forall pos,
             In pos (spike_A_calls current_fc last_fc)
             \/ In pos (spike_A_calls_old_firmware current_fc last_fc) ->
             2 < pos < 38).
  { intros pos [H|H].
    - rewrite spike_A_calls_filter in H. apply filter_In in H as [_ H].
      exact (spike_A_qualifies_position _ _ _ H).
    - rewrite spike_A_calls_old_firmware_filter in H.
      apply filter_In in H as [_ H].
      exact (spike_A_qualifies_position _ _ _ H). }
  split.
  - intros pos H. split; [auto|]. apply spike_A_accesses_in_bounds; auto.
  - intros waveform Hlen.
    unfold interpolate_spikes_pixel, interpolate_spikes_pixel_old_firmware.
    rewrite interpolate_spikes_pixel_with_calls,
      interpolate_spikes_pixel_old_firmware_with_calls.
    destruct (spike_A_on_waveform_ok
                (filter (spike_A_qualifies 511 last_fc)
                        (spike_A_candidates false current_fc last_fc))
                waveform Hlen) as (w1 & E1 & L1).
    { apply Forall_forall. intros pos H. apply Hpos. left.
      now rewrite spike_A_calls_filter. }
    destruct (spike_A_on_waveform_ok
                (filter (spike_A_qualifies 510 last_fc)
                        (spike_A_candidates true current_fc last_fc))
                waveform Hlen) as (w2 & E2 & L2).
    { apply Forall_forall. intros pos H. apply Hpos. right.
      now rewrite spike_A_calls_old_firmware_filter. }
    exists w1, w2. auto.
Qed.

Lemma spike_stage_bounds_safety_witness :
  (2 < 10 < 38 /\ Forall (fun i => 1 <= i <= 39) (spike_A_accesses 10))
  /\ exists w_new w_old,
       interpolate_spikes_pixel (repeat 0%R 40) 30 1 = Some w_new
       /\ length w_new = 40%nat
       /\ interpolate_spikes_pixel_old_firmware (repeat 0%R 40) 30 1
          = Some w_old
       /\ length w_old = 40%nat.
Proof.
  split.
  - apply (proj1 (spike_stage_bounds_safety 30 1) 10).
    left. vm_compute. left. reflexivity.
  - apply (proj2 (spike_stage_bounds_safety 30 1)). reflexivity.
Defined.

(** ** Event types *)

Lemma in_range (n i : Z) : 0 <= i < n -> In i (range n).
Proof.
  intros H. unfold range, range2. apply in_map_iff.
  exists (Z.to_nat i). split; [lia|]. apply in_seq. lia.
Qed.

Ltac settle_event_type :=
  vm_compute;
  repeat split; intros;
  try discriminate; try congruence;
  intuition (try discriminate; try congruence; try lia).

(** C5.  For every 7-bit value of the trigger bits the classifier
    [_event_type_from_trigger_bits] returns SUBARRAY exactly when a MONO or
    STEREO bit is set and no other bit is; FLATFIELD exactly for CALIBRATION
    and CALIBRATION|MONO; SKY_PEDESTAL exactly for PEDESTAL; SINGLE_PE
    exactly for SINGLE_PE; and UNKNOWN in every other case, SOFTWARE among
    them; [fill_trigger_info] sets what this classifier returns on the bits
    it selects.  The earlier [fill_trigger_info] sets SUBARRAY in the same
    case, but otherwise goes by the presence of a flag: FLATFIELD exactly
    when the CALIBRATION bit is set; SKY_PEDESTAL exactly when the PEDESTAL
    bit is set and the CALIBRATION bit is not; SINGLE_PE exactly when the
    SINGLE_PE bit is set and neither of these two; UNKNOWN in every other
    case. *)
Theorem event_type_classification (bits : Z) :
  0 <= bits < 128 ->
  (_event_type_from_trigger_bits bits = EventType.SUBARRAY
   <-> Z.land bits (Z.lor TriggerBits.MONO TriggerBits.STEREO) <> 0
       /\ Z.land bits (Z.lnot (Z.lor TriggerBits.MONO TriggerBits.STEREO))
          = 0)
  /\ (_event_type_from_trigger_bits bits = EventType.FLATFIELD
      <-> bits = TriggerBits.CALIBRATION
          \/ bits = Z.lor TriggerBits.CALIBRATION TriggerBits.MONO)
  /\ (_event_type_from_trigger_bits bits = EventType.SKY_PEDESTAL
      <-> bits = TriggerBits.PEDESTAL)
  /\ (_event_type_from_trigger_bits bits = EventType.SINGLE_PE
      <-> bits = TriggerBits.SINGLE_PE)
  /\ (_event_type_from_trigger_bits bits = EventType.UNKNOWN
      <-> ~ (Z.land bits (Z.lor TriggerBits.MONO TriggerBits.STEREO) <> 0
             /\ Z.land bits
                  (Z.lnot (Z.lor TriggerBits.MONO TriggerBits.STEREO)) = 0)
          /\ bits <> TriggerBits.CALIBRATION
          /\ bits <> Z.lor TriggerBits.CALIBRATION TriggerBits.MONO
          /\ bits <> TriggerBits.PEDESTAL
          /\ bits <> TriggerBits.SINGLE_PE)
  /\ _event_type_from_trigger_bits TriggerBits.SOFTWARE = EventType.UNKNOWN
  /\ forall (default_trigger_type : string) (evt : LSTEventContainer),
       selected_trigger_bits default_trigger_type evt = Some bits ->
       fill_trigger_info default_trigger_type evt
       = _event_type_from_trigger_bits bits
       /\ (Legacy.fill_trigger_info default_trigger_type evt
           = EventType.SUBARRAY
           <-> Z.land bits (Z.lor TriggerBits.MONO TriggerBits.STEREO) <> 0
               /\ Z.land bits
                    (Z.lnot (Z.lor TriggerBits.MONO TriggerBits.STEREO))
                  = 0)
       /\ (Legacy.fill_trigger_info default_trigger_type evt
           = EventType.FLATFIELD
           <-> Z.land bits TriggerBits.CALIBRATION <> 0)
       /\ (Legacy.fill_trigger_info default_trigger_type evt
           = EventType.SKY_PEDESTAL
           <-> Z.land bits TriggerBits.CALIBRATION = 0
               /\ Z.land bits TriggerBits.PEDESTAL <> 0)
       /\ (Legacy.fill_trigger_info default_trigger_type evt
           = EventType.SINGLE_PE
           <-> Z.land bits TriggerBits.CALIBRATION = 0
               /\ Z.land bits TriggerBits.PEDESTAL = 0
               /\ Z.land bits TriggerBits.SINGLE_PE <> 0)
       /\ (Legacy.fill_trigger_info default_trigger_type evt
           = EventType.UNKNOWN
           <-> ~ (Z.land bits (Z.lor TriggerBits.MONO TriggerBits.STEREO)
                  <> 0
                  /\ Z.land bits
                       (Z.lnot (Z.lor TriggerBits.MONO TriggerBits.STEREO))
                     = 0)
               /\ Z.land bits TriggerBits.CALIBRATION = 0
               /\ Z.land bits TriggerBits.PEDESTAL = 0
               /\ Z.land bits TriggerBits.SINGLE_PE = 0).
Proof.
  intros H. apply in_range in H. vm_compute in H.
  repeat (destruct H as [<- | H];
          [refine (conj _ (conj _ (conj _ (conj _ (conj _ (conj _ _))))));
           [settle_event_type .. |
            intros default_trigger_type evt Hsel;
            unfold fill_trigger_info, Legacy.fill_trigger_info;
            rewrite Hsel; settle_event_type]|]).
  contradiction.
Qed.

Lemma event_type_classification_witness :
  0 <= 5 < 128
  /\ selected_trigger_bits "tib" calibration_mono_event = Some 5
  /\ (_event_type_from_trigger_bits 5 = EventType.FLATFIELD
      <-> 5 = TriggerBits.CALIBRATION
          \/ 5 = Z.lor TriggerBits.CALIBRATION TriggerBits.MONO)
  /\ fill_trigger_info "tib" calibration_mono_event
     = _event_type_from_trigger_bits 5
  /\ (Legacy.fill_trigger_info "tib" calibration_mono_event
      = EventType.FLATFIELD
      <-> Z.land 5 TriggerBits.CALIBRATION <> 0).
Proof.
  pose proof (event_type_classification 5 ltac:(lia)) as H.
  destruct H as (_ & Hflat & _ & _ & _ & _ & Hfill).
  destruct (Hfill "tib"%string calibration_mono_event eq_refl)
    as (Hnew & _ & Hold & _).
  split; [lia|]. split; [reflexivity|]. split; [exact Hflat|].
  split; [exact Hnew | exact Hold].
Defined.

(** C5, as stated, fails for the earlier [fill_trigger_info]: on the bits
    CALIBRATION|STEREO, which are neither CALIBRATION nor CALIBRATION|MONO,
    it sets FLATFIELD, where the current one sets UNKNOWN. *)
Lemma legacy_flatfield_by_flag_presence :
  selected_trigger_bits "tib" calibration_stereo_event
  = Some (Z.lor TriggerBits.CALIBRATION TriggerBits.STEREO)
  /\ Legacy.fill_trigger_info "tib" calibration_stereo_event
     = EventType.FLATFIELD
  /\ Z.lor TriggerBits.CALIBRATION TriggerBits.STEREO
     <> TriggerBits.CALIBRATION
  /\ Z.lor TriggerBits.CALIBRATION TriggerBits.STEREO
     <> Z.lor TriggerBits.CALIBRATION TriggerBits.MONO
  /\ fill_trigger_info "tib" calibration_stereo_event = EventType.UNKNOWN.
Proof.
  split; [reflexivity|]. split; [reflexivity|].
  split; [discriminate|]. split; [discriminate | reflexivity].
Qed.

(** [fill_trigger_info] classifies the bits of the source it selects with
    [_event_type_from_trigger_bits], and reports UNKNOWN without them. *)
Lemma fill_trigger_info_classifies (default_trigger_type : string)
    (evt : LSTEventContainer) :
  fill_trigger_info default_trigger_type evt
  = match selected_trigger_bits default_trigger_type evt with
    | Some bits => _event_type_from_trigger_bits bits
    | None => EventType.UNKNOWN
    end.
Proof. reflexivity. Qed.

(** ** Assignment through an index array *)

Section ScatterFacts.
Context {A : Type}.

Lemma Forall_update (P : A -> Prop) (l : list A) (k : nat) (v : A) :
    Forall P l -> P v -> Forall P (update l k v).
  Proof.
    intros Hl Hv. revert k.
    induction Hl as [|h t Hh Ht IH]; intros [|k]; simpl; auto.
  Qed.

Lemma scatter_loop_Forall (P : A -> Prop) (idx : list Z) (src dst dst' : list A) :
    Forall P dst -> Forall P src ->
    scatter_loop dst idx src = Some dst' -> Forall P dst'.
  Proof.
    revert src dst. induction idx as [|i idx IH]; intros [|v src] dst Hd Hs;
      simpl; try discriminate.
    - now intros [= <-].
    - unfold setitem. destruct (norm_index (length dst) i) as [k|];
        simpl; [|discriminate].
      inversion Hs; subst. apply IH; auto using Forall_update.
  Qed.

Lemma scatter_loop_length (idx : list Z) (src dst dst' : list A) :
    scatter_loop dst idx src = Some dst' -> length dst' = length dst.
  Proof.
    revert src dst. induction idx as [|i idx IH]; intros [|v src] dst;
      simpl; try discriminate.
    - now intros [= <-].
    - destruct (setitem dst i v) as [d1|] eqn:E; simpl; [|discriminate].
      intros H. apply IH in H. apply setitem_length in E. congruence.
  Qed.

(** A slot that no index names keeps its value. *)
Lemma scatter_loop_untouched (idx : list Z) (src dst dst' : list A) (p : Z) :
    Forall (fun i => 0 <= i) idx ->
    0 <= p < Z.of_nat (length dst) -> ~ In p idx ->
    scatter_loop dst idx src = Some dst' -> getitem dst' p = getitem dst p.
  Proof.
    revert src dst. induction idx as [|i idx IH]; intros [|v src] dst Hnn Hp Hin;
      simpl; try discriminate.
    - now intros [= <-].
    - destruct (setitem dst i v) as [d1|] eqn:E; simpl; [|discriminate].
      intros H. inversion Hnn; subst.
      assert (Hi : 0 <= i < Z.of_nat (length dst)).
      { unfold setitem in E.
        destruct (norm_index (length dst) i) as [k|] eqn:En; [|discriminate].
        unfold norm_index in En.
        destruct ((0 <=? i) && (i <? Z.of_nat (length dst))) eqn:Eb.
        - apply andb_prop in Eb as [_ Eb]. apply Z.ltb_lt in Eb. lia.
        - destruct ((- Z.of_nat (length dst) <=? i) && (i <? 0)) eqn:Ec;
            [|discriminate].
          apply andb_prop in Ec as [_ Ec]. apply Z.ltb_lt in Ec. lia. }
      rewrite (IH src d1); auto.
      + apply (getitem_setitem_neq dst d1 i p v); auto.
        intros ->. apply Hin. now left.
      + apply setitem_length in E. lia.
      + intros Hc. apply Hin. now right.
  Qed.

(** With distinct indices, the slot named by the i-th index holds the
    i-th source value. *)
Lemma scatter_loop_written (idx : list Z) (src dst dst' : list A)
      (i : nat) (p : Z) (v : A) :
    NoDup idx -> Forall (fun i => 0 <= i) idx ->
    scatter_loop dst idx src = Some dst' ->
    nth_error idx i = Some p -> nth_error src i = Some v ->
    getitem dst' p = Some v.
  Proof.
    revert src dst i.
    induction idx as [|j idx IH]; intros [|u src] dst i Hnd Hnn;
      simpl; try discriminate.
    - destruct i; discriminate.
    - destruct (setitem dst j u) as [d1|] eqn:E; simpl; [|discriminate].
      intros H Hi Hv. inversion Hnd; subst. inversion Hnn; subst.
      assert (Hj : 0 <= j < Z.of_nat (length dst)).
      { unfold setitem in E.
        destruct (norm_index (length dst) j) as [k|] eqn:En; [|discriminate].
        apply norm_index_lt in En as Hk.
        unfold norm_index in En.
        destruct ((0 <=? j) && (j <? Z.of_nat (length dst))) eqn:Eb.
        - apply andb_prop in Eb as [_ Eb]. apply Z.ltb_lt in Eb. lia.
        - destruct ((- Z.of_nat (length dst) <=? j) && (j <? 0)) eqn:Ec;
            [|discriminate].
          apply andb_prop in Ec as [_ Ec]. apply Z.ltb_lt in Ec. lia. }
      destruct i as [|i]; simpl in Hi, Hv.
      + injection Hi as <-. injection Hv as <-.
        rewrite (scatter_loop_untouched idx src d1 dst' j); auto.
        * apply (getitem_setitem_eq dst d1 j u); auto.
        * apply setitem_length in E. lia.
      + apply (IH src d1 i); auto.
  Qed.

End ScatterFacts.

(** ** The selected-gain marker of a gain-selected event *)

(** C6, as stated, fails: the event is gain selected (pixel 0 stores one
    gain only); pixel 1 has HIGH_GAIN_STORED and LOW_GAIN_STORED both set
    and yet is marked 0; pixel 2 is broken and is marked 1, not -1. *)
Lemma selected_gain_marker_counterexample :
  exists sg,
    emitted_selected_gain three_pixel_camera mixed_event = Some sg
    /\ getitem (pixel_status mixed_event) 1 = Some 12
    /\ high_gain_stored 12 = true /\ low_gain_stored 12 = true
    /\ getitem sg 1 = Some 0
    /\ getitem (pixel_status mixed_event) 2 = Some 0
    /\ high_gain_stored 0 = false /\ low_gain_stored 0 = false
    /\ getitem sg 2 = Some 1.
Proof.
  eexists.
  split; [vm_compute; reflexivity|].
  repeat split; vm_compute; reflexivity.
Qed.

Lemma Forall_repeat {A : Type} (P : A -> Prop) (x : A) (n : nat) :
  P x -> Forall P (repeat x n).
Proof. intros H. induction n; simpl; auto. Qed.

(** C6, amended.  In the container assembled for a gain-selected event
    (pixel ids distinct and non-negative), the marker has 1855 entries, all
    in {0, 1, -1}; the logical pixel p fed by hardware slot i is marked 0
    if and only if the status of slot i has HIGH_GAIN_STORED set, and 1
    otherwise, so that for a pixel that does not store both gains the mark
    is 0 if and only if HIGH_GAIN_STORED is set and LOW_GAIN_STORED is
    clear; the logical pixels that no hardware slot feeds are marked -1. *)
Theorem selected_gain_marker (camera_config : CameraConfiguration)
    (zfits_event : ZfitsEvent) (sg : list Z) :
  NoDup (expected_pixels_id camera_config) ->
  Forall (fun p => 0 <= p) (expected_pixels_id camera_config) ->
  emitted_selected_gain camera_config zfits_event = Some sg ->
  length sg = 1855%nat
  /\ Forall (fun v => v = 0 \/ v = 1 \/ v = -1) sg
  /\ (forall i p status,
         nth_error (expected_pixels_id camera_config) i = Some p ->
         nth_error (pixel_status zfits_event) i = Some status ->
         getitem sg p = Some (if high_gain_stored status then 0 else 1)
         /\ (getitem sg p = Some 0 <-> high_gain_stored status = true)
         /\ (high_gain_stored status && low_gain_stored status = false ->
             (getitem sg p = Some 0
              <-> high_gain_stored status = true
                  /\ low_gain_stored status = false)))
  /\ (forall p, 0 <= p < 1855 ->
                ~ In p (expected_pixels_id camera_config) ->
                getitem sg p = Some (-1)).
Proof.
  intros Hnd Hnn Hsg. unfold emitted_selected_gain in Hsg.
  destruct (fill_r0r1_camera_container camera_config zfits_event)
    as [r|] eqn:Hfill; cbn [bind] in Hsg; [|discriminate].
  unfold fill_r0r1_camera_container in Hfill.
  destruct (existsb _ _) in Hfill.
  2:{ destruct (reshape_rows _ _); cbn [bind] in Hfill; [|discriminate].
      destruct (_ =? _); [|discriminate].
      destruct (for_each _ _ _); cbn [bind] in Hfill; [|discriminate].
      injection Hfill as <-. discriminate. }
  destruct (reshape_rows _ _) as [rows|]; cbn [bind] in Hfill; [|discriminate].
  destruct (_ && _); [discriminate|].
  destruct (scatter_rows _ _ _ _) as [rw|]; cbn [bind] in Hfill; [|discriminate].
  destruct (scatter_loop (full N_PIXELS (-1)) _ _) as [sg'|] eqn:Esc;
    cbn [bind] in Hfill; [|discriminate].
  injection Hfill as <-. simpl in Hsg. injection Hsg as ->.
  assert (Hlen : length sg = 1855%nat).
  { apply scatter_loop_length in Esc. rewrite Esc. unfold full.
    now rewrite repeat_length. }
  split; [exact Hlen|]. split; [|split].
  - apply (scatter_loop_Forall (fun v => v = 0 \/ v = 1 \/ v = -1)
             _ _ _ _) with (3 := Esc).
    + apply Forall_repeat. auto.
    + apply Forall_map. apply Forall_map. apply Forall_forall.
      intros s _. destruct (truthy _); auto.
  - intros i p status Hi Hs.
    assert (E : getitem sg p
                = Some (if high_gain_stored status then 0 else 1)).
    { apply (scatter_loop_written _ _ _ _ i p _ Hnd Hnn Esc Hi).
      rewrite !nth_error_map, Hs. reflexivity. }
    split; [exact E|]. rewrite E.
    destruct (high_gain_stored status), (low_gain_stored status); simpl;
      repeat split; intros; try discriminate; try congruence;
      intuition (try discriminate; try congruence).
  - intros p Hp Hin.
    assert (Hfull : length (full N_PIXELS (-1)) = 1855%nat)
      by (unfold full; now rewrite repeat_length).
    rewrite (scatter_loop_untouched _ _ _ _ p Hnn
               ltac:(rewrite Hfull; exact Hp) Hin Esc).
    unfold full. rewrite getitem_nonneg by (rewrite repeat_length; exact Hp).
    apply nth_error_repeat. change (Z.to_nat N_PIXELS) with 1855%nat. lia.
Qed.

Lemma selected_gain_marker_witness :
  exists sg,
    emitted_selected_gain three_pixel_camera gain_selected_event = Some sg
    /\ length sg = 1855%nat
    /\ Forall (fun v => v = 0 \/ v = 1 \/ v = -1) sg
    /\ (forall i p status,
           nth_error (expected_pixels_id three_pixel_camera) i = Some p ->
           nth_error (pixel_status gain_selected_event) i = Some status ->
           getitem sg p = Some (if high_gain_stored status then 0 else 1)
           /\ (getitem sg p = Some 0 <-> high_gain_stored status = true)
           /\ (high_gain_stored status && low_gain_stored status = false ->
               (getitem sg p = Some 0
                <-> high_gain_stored status = true
                    /\ low_gain_stored status = false)))
    /\ (forall p, 0 <= p < 1855 ->
                  ~ In p (expected_pixels_id three_pixel_camera) ->
                  getitem sg p = Some (-1)).
Proof.
  eexists.
  split; [vm_compute; reflexivity|].
  apply (selected_gain_marker three_pixel_camera gain_selected_event).
  - simpl. repeat constructor; simpl; intuition lia.
  - simpl. repeat constructor; lia.
  - vm_compute. reflexivity.
Defined.

(** ** Loops over a range *)

Lemma for_each_offsets {St : Type} (P : Z -> St -> Prop)
    (body : St -> Z -> option St) (a : Z) (m k : nat) (s : St) :
  P (a + Z.of_nat k) s ->
  (forall i s0, a + Z.of_nat k <= i < a + Z.of_nat (k + m) -> P i s0 ->
                exists s1, body s0 i = Some s1 /\ P (i + 1) s1) ->
  exists s',
    for_each (map (fun i => a + Z.of_nat i) (seq k m)) body s = Some s'
    /\ P (a + Z.of_nat (k + m)) s'.
Proof.
  revert k s. induction m as [|m IH]; intros k s H0 Hstep; simpl.
  - exists s. split; [reflexivity|]. now replace (k + 0)%nat with k by lia.
  - destruct (Hstep (a + Z.of_nat k) s) as (s1 & E1 & P1); [lia | exact H0 |].
    rewrite E1. cbn [bind].
    destruct (IH (S k) s1) as (s' & E' & P').
    + now replace (a + Z.of_nat (S k)) with (a + Z.of_nat k + 1) by lia.
    + intros i s0 Hi. apply Hstep. lia.
    + exists s'. split; [exact E'|].
      now replace (k + S m)%nat with (S k + m)%nat by lia.
Qed.

(** The invariant rule for [for i in range(start, stop)]. *)
Lemma for_each_range2 {St : Type} (P : Z -> St -> Prop)
    (body : St -> Z -> option St) (start stop : Z) (s : St) :
  start <= stop ->
  P start s ->
  (forall i s0, start <= i < stop -> P i s0 ->
                exists s1, body s0 i = Some s1 /\ P (i + 1) s1) ->
  exists s', for_each (range2 start stop) body s = Some s' /\ P stop s'.
Proof.
  intros Hle H0 Hstep. unfold range2.
  destruct (for_each_offsets P body start (Z.to_nat (stop - start)) 0 s)
    as (s' & E & H').
  - now replace (start + Z.of_nat 0) with start by lia.
  - intros i s0 Hi. apply Hstep. lia.
  - exists s'. split; [exact E|].
    now replace (start + Z.of_nat (0 + Z.to_nat (stop - start))) with stop
      in H' by lia.
Qed.

Lemma for_each_range {St : Type} (P : Z -> St -> Prop)
    (body : St -> Z -> option St) (n : Z) (s : St) :
  0 <= n ->
  P 0 s ->
  (forall i s0, 0 <= i < n -> P i s0 ->
                exists s1, body s0 i = Some s1 /\ P (i + 1) s1) ->
  exists s', for_each (range n) body s = Some s' /\ P n s'.
Proof. apply for_each_range2. Qed.

(** The invariant rule for a loop over any list, for an invariant that
    does not depend on the position. *)
Lemma for_each_invariant {St X : Type} (P : St -> Prop)
    (body : St -> X -> option St) (xs : list X) (s : St) :
  P s ->
  (forall x s0, In x xs -> P s0 -> exists s1, body s0 x = Some s1 /\ P s1) ->
  exists s', for_each xs body s = Some s' /\ P s'.
Proof.
  revert s. induction xs as [|x xs IH]; intros s H0 Hstep; simpl.
  - eauto.
  - destruct (Hstep x s) as (s1 & E1 & P1); [now left | exact H0 |].
    rewrite E1. cbn [bind]. apply IH; [exact P1|].
    intros y s0 Hy. apply Hstep. now right.
Qed.

(** ** Two-dimensional arrays *)

Section TwoDimensional.
Context {A : Type}.

Lemma has_shape2_Shape2 (a : list (list A)) (n m : nat) :
    has_shape2 a n m = true -> Shape2 a (Z.of_nat n) (Z.of_nat m).
  Proof.
    unfold has_shape2, Shape2. rewrite andb_true_iff, forallb_forall.
    intros [H1 H2]. apply Nat.eqb_eq in H1. split; [lia|].
    apply Forall_forall. intros row Hr. apply H2 in Hr.
    apply Nat.eqb_eq in Hr. lia.
  Qed.

Lemma Shape2_row (a : list (list A)) (n m i : Z) :
    Shape2 a n m -> 0 <= i < n ->
    exists row, getitem a i = Some row /\ Z.of_nat (length row) = m.
  Proof.
    intros [Hn Hm] Hi.
    destruct (getitem_some a i) as [row Hrow]; [lia|].
    exists row. split; [exact Hrow|].
    rewrite getitem_nonneg in Hrow by lia.
    apply nth_error_In in Hrow.
    rewrite Forall_forall in Hm. auto.
  Qed.

Lemma getitem2_some (a : list (list A)) (n m i j : Z) :
    Shape2 a n m -> 0 <= i < n -> 0 <= j < m ->
    exists v, getitem2 a i j = Some v.
  Proof.
    intros Hs Hi Hj. destruct (Shape2_row a n m i Hs Hi) as (row & Hrow & Hl).
    unfold getitem2. rewrite Hrow. cbn [bind]. apply getitem_some. lia.
  Qed.

Lemma All2_getitem2 (P : A -> Prop) (a : list (list A)) (i j : Z) (v : A) :
    All2 P a -> getitem2 a i j = Some v -> P v.
  Proof.
    intros Hall. unfold getitem2, getitem.
    destruct (norm_index (length a) i) as [k|]; cbn [bind]; [|discriminate].
    destruct (nth_error a k) as [row|] eqn:Er; cbn [bind]; [|discriminate].
    destruct (norm_index (length row) j) as [k'|]; cbn [bind]; [|discriminate].
    intros Hv. apply nth_error_In in Er, Hv.
    unfold All2 in Hall. rewrite Forall_forall in Hall.
    specialize (Hall row Er). rewrite Forall_forall in Hall. auto.
  Qed.

(** [a[i, j] = v] inside the array: it succeeds, keeps the shape, and
    changes that entry only. *)
Lemma setitem2_spec (a : list (list A)) (n m i j : Z) (v : A) :
    Shape2 a n m -> 0 <= i < n -> 0 <= j < m ->
    exists a',
      setitem2 a i j v = Some a'
      /\ Shape2 a' n m
      /\ getitem2 a' i j = Some v
      /\ (forall i' j', 0 <= i' < n -> 0 <= j' < m ->
                        (i', j') <> (i, j) ->
                        getitem2 a' i' j' = getitem2 a i' j')
      /\ (forall P : A -> Prop, All2 P a -> P v -> All2 P a').
  Proof.
    intros Hs Hi Hj.
    destruct (Shape2_row a n m i Hs Hi) as (row & Hrow & Hl).
    destruct Hs as [Hn Hm].
    unfold setitem2. rewrite Hrow. cbn [bind].
    rewrite (setitem_nonneg row j v) by lia. cbn [bind].
    rewrite setitem_nonneg by lia.
    eexists. split; [reflexivity|].
    split; [|split; [|split]].
    - split; [now rewrite length_update|].
      apply Forall_update; [exact Hm|]. rewrite length_update. exact Hl.
    - unfold getitem2. rewrite getitem_update_eq by lia. cbn [bind].
      apply getitem_update_eq. lia.
    - intros i' j' Hi' Hj' Hne. unfold getitem2.
      destruct (Z.eq_dec i' i) as [->|Hii].
      + rewrite getitem_update_eq by lia. rewrite Hrow. cbn [bind].
        apply getitem_update_neq; [lia | lia |]. congruence.
      + now rewrite getitem_update_neq by lia.
    - intros P Hall Hv. unfold All2. apply Forall_update; [exact Hall|].
      apply Forall_update; [|exact Hv].
      rewrite getitem_nonneg in Hrow by lia. apply nth_error_In in Hrow.
      unfold All2 in Hall. rewrite Forall_forall in Hall. auto.
  Qed.

End TwoDimensional.

(** ** The pedestal table and its subtraction *)

Lemma slice_nonneg {A : Type} (row : list A) (a b : Z) :
  0 <= a <= b -> b <= Z.of_nat (length row) ->
  slice row a b = firstn (Z.to_nat (b - a)) (skipn (Z.to_nat a) row).
Proof.
  intros Ha Hb. unfold slice, clip_bound.
  replace (a <? 0) with false by (symmetry; apply Z.ltb_ge; lia).
  replace (b <? 0) with false by (symmetry; apply Z.ltb_ge; lia).
  rewrite !Z.max_r, !Z.min_r by lia.
  f_equal. lia.
Qed.

Lemma length_slice {A : Type} (row : list A) (a n : Z) :
  0 <= a -> 0 <= n -> a + n <= Z.of_nat (length row) ->
  Z.of_nat (length (slice row a (a + n))) = n.
Proof.
  intros Ha Hn Hb. rewrite slice_nonneg by lia.
  rewrite length_firstn, length_skipn. lia.
Qed.

Lemma getitem_slice {A : Type} (row : list A) (a n s : Z) :
  0 <= a -> 0 <= s < n -> a + n <= Z.of_nat (length row) ->
  getitem (slice row a (a + n)) s = getitem row (a + s).
Proof.
  intros Ha Hs Hb.
  rewrite getitem_nonneg by (rewrite length_slice; lia).
  rewrite getitem_nonneg by lia.
  rewrite slice_nonneg by lia.
  rewrite nth_error_firstn, nth_error_skipn.
  replace (Z.to_nat s <? Z.to_nat (a + n - a))%nat with true
    by (symmetry; apply Nat.ltb_lt; lia).
  f_equal. lia.
Qed.

Lemma getitem_map {A B : Type} (h : A -> B) (row : list A) (i : Z) :
  getitem (map h row) i = option_map h (getitem row i).
Proof.
  unfold getitem. rewrite length_map.
  destruct (norm_index (length row) i) as [k|]; cbn [bind]; [|reflexivity].
  apply nth_error_map.
Qed.

Lemma Wrapped_extend (row : list Z) :
  length row = 4096%nat -> Wrapped (row ++ slice row 0 N_SAMPLES).
Proof.
  intros Hlen. unfold N_SAMPLES.
  rewrite slice_nonneg by lia. change (skipn (Z.to_nat 0) row) with row.
  change (Z.to_nat (40 - 0)) with 40%nat.
  split.
  - rewrite length_app, length_firstn. lia.
  - intros s Hs.
    rewrite !getitem_nonneg by (rewrite length_app, length_firstn; lia).
    rewrite nth_error_app2 by lia.
    rewrite nth_error_app1 by lia.
    rewrite nth_error_firstn.
    replace (Z.to_nat (4096 + s) - length row <? 40)%nat with true
      by (symmetry; apply Nat.ltb_lt; lia).
    f_equal. lia.
Qed.

Lemma Wrapped_map (h : Z -> Z) (row : list Z) :
  Wrapped row -> Wrapped (map h row).
Proof.
  intros [Hlen Hw]. split.
  - now rewrite length_map.
  - intros s Hs. rewrite !getitem_map. now rewrite Hw.
Qed.

(** The wrap-free window of a table row is the modular one. *)
Lemma Wrapped_window (row : list Z) (first_cap s : Z) :
  Wrapped row -> 0 <= first_cap < 4096 -> 0 <= s < 40 ->
  getitem (slice row first_cap (first_cap + N_SAMPLES)) s
  = getitem row ((first_cap + s) mod N_CAPACITORS_PIXEL).
Proof.
  intros [Hlen Hw] Hf Hs. unfold N_SAMPLES.
  rewrite getitem_slice by lia.
  change N_CAPACITORS_PIXEL with 4096.
  destruct (Z_lt_ge_dec (first_cap + s) 4096) as [Hlt|Hge].
  - now rewrite Z.mod_small by lia.
  - replace ((first_cap + s) mod 4096) with (first_cap + s - 4096)
      by (Z.div_mod_to_equations; lia).
    rewrite <- (Hw (first_cap + s - 4096)) by lia. f_equal. lia.
Qed.

Lemma get_drs4_pedestal_data_table (data ped : list (list (list Z)))
    (offset : Z) :
  _get_drs4_pedestal_data (Some data) offset = Some ped ->
  Shape2 ped 2 1855 /\ All2 Wrapped ped.
Proof.
  unfold _get_drs4_pedestal_data.
  destruct (has_shape3 _ _ _ _) eqn:Hshape; [|discriminate].
  unfold has_shape3 in Hshape. apply andb_prop in Hshape as [H1 H2].
  apply Nat.eqb_eq in H1. rewrite forallb_forall in H2.
  assert (Hrows : forall plane row, In plane data -> In row plane ->
                                    length row = 4096%nat).
  { intros plane row Hp Hr. apply H2 in Hp. unfold has_shape2 in Hp.
    apply andb_prop in Hp as [_ Hp]. rewrite forallb_forall in Hp.
    apply Hp in Hr. now apply Nat.eqb_eq in Hr. }
  assert (Hplanes : forall plane, In plane data -> length plane = 1855%nat).
  { intros plane Hp. apply H2 in Hp. unfold has_shape2 in Hp.
    apply andb_prop in Hp as [Hp _]. now apply Nat.eqb_eq in Hp. }
  destruct (offset =? 0); intros [= <-]; (split; [split|]).
  - rewrite length_map, H1. reflexivity.
  - apply Forall_map, Forall_forall. intros plane Hp.
    rewrite length_map, (Hplanes plane Hp). reflexivity.
  - apply Forall_map, Forall_forall. intros plane Hp.
    apply Forall_map, Forall_forall. intros row Hr.
    apply Wrapped_extend. eauto.
  - rewrite !length_map, H1. reflexivity.
  - apply Forall_map, Forall_forall. intros plane' Hp'.
    apply in_map_iff in Hp' as (plane & <- & Hp).
    rewrite !length_map, (Hplanes plane Hp). reflexivity.
  - apply Forall_map, Forall_forall. intros plane' Hp'.
    apply in_map_iff in Hp' as (plane & <- & Hp).
    apply Forall_map, Forall_forall. intros row' Hr'.
    apply in_map_iff in Hr' as (row & <- & Hr).
    apply Wrapped_map, Wrapped_extend. eauto.
Qed.

Lemma isub_same_length (row : list R) (pedestal : list Z) :
  length pedestal = length row ->
  exists row',
    isub row pedestal = Some row'
    /\ length row' = length row
    /\ forall s w p, getitem row s = Some w -> getitem pedestal s = Some p ->
                     getitem row' s = Some (w - IZR p)%R.
Proof.
  intros Hlen. unfold isub. rewrite Hlen, Nat.eqb_refl.
  eexists. split; [reflexivity|].
  assert (Hl : length (map (fun '(w, p) => (w - IZR p)%R)
                           (combine row pedestal)) = length row).
  { rewrite length_map, length_combine. lia. }
  split; [exact Hl|].
  intros s w p. unfold getitem. rewrite Hl, Hlen.
  destruct (norm_index (length row) s) as [k|]; cbn [bind]; [|discriminate].
  intros Hw Hp. rewrite nth_error_map.
  assert (E : nth_error (combine row pedestal) k = Some (w, p)).
  { clear Hl Hlen. revert k pedestal Hw Hp.
    induction row as [|x row IH]; intros [|k] [|y pedestal]; simpl;
      try discriminate.
    - now intros [= ->] [= ->].
    - apply IH. }
  rewrite E. reflexivity.
Qed.

Lemma has_shape3_Shape2 {A : Type} (a : list (list (list A))) (n m k : nat) :
  has_shape3 a n m k = true ->
  Shape2 a (Z.of_nat n) (Z.of_nat m)
  /\ All2 (fun row => Z.of_nat (length row) = Z.of_nat k) a.
Proof.
  unfold has_shape3. rewrite andb_true_iff, forallb_forall.
  intros [H1 H2]. apply Nat.eqb_eq in H1.
  split; [split; [lia|]|].
  - apply Forall_forall. intros plane Hp. apply H2 in Hp.
    apply has_shape2_Shape2 in Hp. destruct Hp as [Hp _]. exact Hp.
  - apply Forall_forall. intros plane Hp. apply H2 in Hp.
    apply has_shape2_Shape2 in Hp. destruct Hp as [_ Hp]. exact Hp.
Qed.

Section SubtractPedestal.
Variable waveform0 : list (list (list R)).
Variable first_capacitors : list (list Z).
Variable pedestal : list (list (list Z)).

Hypothesis waveform0_shape : Shape2 waveform0 2 1855.
Hypothesis waveform0_rows :
    All2 (fun row : list R => Z.of_nat (length row) = 40) waveform0.
Hypothesis first_capacitors_shape : Shape2 first_capacitors 2 1855.
Hypothesis first_capacitors_range :
    All2 (fun f => 0 <= f < 4096) first_capacitors.
Hypothesis pedestal_shape : Shape2 pedestal 2 1855.
Hypothesis pedestal_rows : All2 Wrapped pedestal.

Lemma subtract_pedestal_pixel (G i : Z) (wf : list (list (list R))) :
    0 <= G < 2 -> 0 <= i < 1855 ->
    pedestal_progress waveform0 first_capacitors pedestal G i wf ->
    exists wf',
      (first_cap <- getitem2 first_capacitors G i ;;
       pedestal_row <- getitem2 pedestal G i ;;
       row <- getitem2 wf G i ;;
       row' <- isub row (slice pedestal_row first_cap
                               (first_cap + N_SAMPLES)) ;;
       setitem2 wf G i row') = Some wf'
      /\ pedestal_progress waveform0 first_capacitors pedestal G (i + 1) wf'.
  Proof.
    intros HG Hi (Hshape & Hrows & Hinv).
    destruct (getitem2_some _ _ _ G i first_capacitors_shape HG Hi)
      as [f Hf].
    destruct (getitem2_some _ _ _ G i pedestal_shape HG Hi) as [prow Hprow].
    destruct (getitem2_some _ _ _ G i Hshape HG Hi) as [row Hrow].
    pose proof (All2_getitem2 _ _ _ _ _ first_capacitors_range Hf) as Hfr.
    pose proof (All2_getitem2 _ _ _ _ _ pedestal_rows Hprow) as Hw.
    pose proof (All2_getitem2 _ _ _ _ _ Hrows Hrow) as Hlen.
    simpl in Hfr, Hlen.
    rewrite Hf, Hprow, Hrow. cbn [bind].
    assert (Hsl : Z.of_nat (length (slice prow f (f + N_SAMPLES))) = 40).
    { destruct Hw as [Hw _]. apply length_slice; unfold N_SAMPLES; lia. }
    destruct (isub_same_length row (slice prow f (f + N_SAMPLES)))
      as (row' & Erow' & Lrow' & Hsub); [lia|].
    rewrite Erow'. cbn [bind].
    destruct (setitem2_spec wf 2 1855 G i row' Hshape HG Hi)
      as (wf' & Ewf' & Hshape' & Hget & Hother & Hall).
    exists wf'. split; [exact Ewf'|].
    split; [exact Hshape'|]. split.
    { apply Hall; [exact Hrows|]. simpl. lia. }
    intros g p Hg Hp.
    destruct (Z.eq_dec g G) as [->|HgG]; [destruct (Z.eq_dec p i) as [->|Hpi]|].
    - (* the pixel just treated *)
      split; [|intros Hn; exfalso; apply Hn; right; lia].
      intros _. exists row'. split; [exact Hget|].
      intros s Hs.
      destruct (getitem_some row s) as [old Hold]; [lia|].
      destruct (getitem_some prow ((f + s) mod 4096)) as [pv Hpv].
      { destruct Hw as [Hw _]. Z.div_mod_to_equations. lia. }
      exists old, f, pv.
      assert (Hun : getitem2 wf G i = getitem2 waveform0 G i).
      { apply (Hinv G i HG Hi). lia. }
      split; [|split; [exact Hf|split]].
      + unfold getitem3. rewrite <- Hun, Hrow. exact Hold.
      + unfold getitem3. rewrite Hprow. exact Hpv.
      + apply Hsub; [exact Hold|].
        rewrite (Wrapped_window prow f s Hw Hfr Hs). exact Hpv.
    - rewrite (Hother G p) by (try lia; congruence).
      destruct (Hinv G p Hg Hp) as [H1 H2].
      split; intros H; [apply H1 | apply H2]; lia.
    - rewrite (Hother g p) by (try lia; congruence).
      destruct (Hinv g p Hg Hp) as [H1 H2].
      split; intros H; [apply H1 | apply H2]; lia.
  Qed.

Lemma subtract_pedestal_loops :
    exists wf',
      subtract_pedestal waveform0 first_capacitors pedestal = Some wf'
      /\ pedestal_progress waveform0 first_capacitors pedestal 2 0 wf'.
  Proof.
    unfold subtract_pedestal.
    apply (for_each_range (fun G wf => pedestal_progress waveform0 first_capacitors pedestal G 0 wf)).
    - unfold N_GAINS. lia.
    - split; [exact waveform0_shape|]. split; [exact waveform0_rows|].
      intros g p Hg Hp. split; [lia | reflexivity].
    - intros G wf HG Hprog. unfold N_GAINS in HG.
      destruct (for_each_range (fun i wf => pedestal_progress waveform0 first_capacitors pedestal G i wf)
                  (fun waveform pixel_id =>
                     first_cap <- getitem2 first_capacitors G pixel_id ;;
                     pedestal_row <- getitem2 pedestal G pixel_id ;;
                     row <- getitem2 waveform G pixel_id ;;
                     row' <- isub row (slice pedestal_row first_cap
                                             (first_cap + N_SAMPLES)) ;;
                     setitem2 waveform G pixel_id row')
                  N_PIXELS wf) as (wf' & E & Hprog').
      + vm_compute. discriminate.
      + exact Hprog.
      + intros i wf1 Hi. apply subtract_pedestal_pixel; [exact HG|].
        exact Hi.
      + exists wf'. split; [exact E|].
        destruct Hprog' as (S1 & S2 & S3).
        split; [exact S1|]. split; [exact S2|].
        intros g p Hg Hp. destruct (S3 g p Hg Hp) as [H1 H2].
        change N_PIXELS with 1855 in H1, H2.
        split; intros H; [apply H1 | apply H2]; lia.
  Qed.

End SubtractPedestal.

Lemma get_drs4_pedestal_data_loads (data : list (list (list Z)))
    (offset : Z) :
  has_shape3 data 2 1855 4096 = true ->
  exists ped, _get_drs4_pedestal_data (Some data) offset = Some ped.
Proof.
  intros H. unfold _get_drs4_pedestal_data.
  change (Z.to_nat N_GAINS) with 2%nat.
  change (Z.to_nat (N_PIXELS_MODULE * N_MODULES)) with 1855%nat.
  change (Z.to_nat N_CAPACITORS_PIXEL) with 4096%nat.
  rewrite H. destruct (offset =? 0); eauto.
Qed.

(** C4.  With every first capacitor in [0, 4096), a waveform of shape
    (2, 1855, 40) and the table that [_get_drs4_pedestal_data] builds from
    a pedestal file of shape (2, 1855, 4096), [subtract_pedestal] succeeds
    and sets waveform[g, p, s] to old - pedestal[g, p, (fc[g, p] + s) mod
    4096] for every gain, pixel and sample; the table satisfies
    pedestal[g, p, 4096 + s] = pedestal[g, p, s] for s in 0..39, which is
    why the slice fc : fc + 40 needs no wrap-around. *)
Theorem subtract_pedestal_modular (waveform : list (list (list R)))
    (first_capacitors : list (list Z)) (data : list (list (list Z)))
    (offset : Z) :
  has_shape3 waveform 2 1855 40 = true ->
  has_shape2 first_capacitors 2 1855 = true ->
  Forall (Forall (fun f => 0 <= f < 4096)) first_capacitors ->
  has_shape3 data 2 1855 4096 = true ->
  exists pedestal waveform',
    _get_drs4_pedestal_data (Some data) offset = Some pedestal
    /\ subtract_pedestal waveform first_capacitors pedestal = Some waveform'
    /\ forall g p s, 0 <= g < 2 -> 0 <= p < 1855 -> 0 <= s < 40 ->
         (exists old f pv,
             getitem3 waveform g p s = Some old
             /\ getitem2 first_capacitors g p = Some f
             /\ getitem3 pedestal g p ((f + s) mod 4096) = Some pv
             /\ getitem3 waveform' g p s = Some (old - IZR pv)%R)
         /\ getitem3 pedestal g p (4096 + s) = getitem3 pedestal g p s.
Proof.
  intros Hwf Hfc Hrange Hdata.
  destruct (get_drs4_pedestal_data_loads data offset Hdata) as [ped Eped].
  destruct (get_drs4_pedestal_data_table data ped offset Eped)
    as [Hpshape Hprows].
  apply has_shape3_Shape2 in Hwf as [Hwshape Hwrows].
  apply has_shape2_Shape2 in Hfc.
  destruct (subtract_pedestal_loops waveform first_capacitors ped
              Hwshape Hwrows Hfc Hrange Hpshape Hprows)
    as (wf' & Ewf' & _ & _ & Hfinal).
  exists ped, wf'. split; [exact Eped|]. split; [exact Ewf'|].
  intros g p s Hg Hp Hs. split.
  - destruct (Hfinal g p Hg Hp) as [Hdone _].
    destruct Hdone as (row' & Hrow' & Hsub); [lia|].
    destruct (Hsub s Hs) as (old & f & pv & H1 & H2 & H3 & H4).
    exists old, f, pv. repeat split; try assumption.
    unfold getitem3. rewrite Hrow'. exact H4.
  - destruct (getitem2_some _ _ _ g p Hpshape Hg Hp) as [prow Hprow].
    unfold getitem3. rewrite Hprow. cbn [bind].
    apply (All2_getitem2 _ _ _ _ _ Hprows Hprow). exact Hs.
Qed.

Lemma subtract_pedestal_modular_witness :
  exists pedestal waveform',
    _get_drs4_pedestal_data
      (Some (repeat (repeat (repeat 7 4096) 1855) 2)) 400 = Some pedestal
    /\ subtract_pedestal (repeat (repeat (repeat 500%R 40) 1855) 2)
         (repeat (repeat 4090 1855) 2) pedestal = Some waveform'
    /\ forall g p s, 0 <= g < 2 -> 0 <= p < 1855 -> 0 <= s < 40 ->
         (exists old f pv,
             getitem3 (repeat (repeat (repeat 500%R 40) 1855) 2) g p s
             = Some old
             /\ getitem2 (repeat (repeat 4090 1855) 2) g p = Some f
             /\ getitem3 pedestal g p ((f + s) mod 4096) = Some pv
             /\ getitem3 waveform' g p s = Some (old - IZR pv)%R)
         /\ getitem3 pedestal g p (4096 + s) = getitem3 pedestal g p s.
Proof.
  apply (subtract_pedestal_modular
           (repeat (repeat (repeat 500%R 40) 1855) 2)
           (repeat (repeat 4090 1855) 2)
           (repeat (repeat (repeat 7 4096) 1855) 2) 400).
  - vm_compute. reflexivity.
  - vm_compute. reflexivity.
  - apply Forall_repeat, Forall_repeat. lia.
  - vm_compute. reflexivity.
Defined.

(** ** Time-lapse correction of one pixel *)

Lemma clamped_subtraction (old : R) (ped : float_result) :
  (old - float_min ped old)%R = clamped_difference old ped.
Proof.
  destruct ped as [p|]; simpl; [|lra].
  unfold Rmin, Rmax.
  destruct (Rle_dec p old), (Rle_dec (old - p) 0); lra.
Qed.

Lemma clamped_difference_nonneg (old : R) (ped : float_result) :
  (0 <= clamped_difference old ped)%R.
Proof.
  destruct ped as [p|]; simpl; [apply Rmax_r | lra].
Qed.

Lemma ped_time_finite (timediff : R) :
  timediff <> 0%R ->
  ped_time timediff = Finite (32.99 * Rpower timediff (-0.22) - 11.9)%R.
Proof.
  intros H. unfold ped_time.
  destruct (Req_dec_T timediff 0); [contradiction | reflexivity].
Qed.

Lemma apply_timelapse_correction_pixel_spec (waveform : list R)
    (first_capacitor time_now : Z) (last_readout_time : list Z) :
  length waveform = 40%nat ->
  length last_readout_time = 4096%nat ->
  exists waveform',
    apply_timelapse_correction_pixel waveform first_capacitor time_now
      last_readout_time = Some waveform'
    /\ length waveform' = 40%nat
    /\ forall s, 0 <= s < 40 ->
         exists old prev new,
           getitem waveform s = Some old
           /\ getitem last_readout_time ((first_capacitor + s) mod 4096)
              = Some prev
           /\ getitem waveform' s = Some new
           /\ timelapse_corrected time_now old prev new.
Proof.
  intros Hlen Hlrt. unfold apply_timelapse_correction_pixel.
  destruct (for_each_range
    (fun i wf =>
       length wf = 40%nat
       /\ forall s, 0 <= s < 40 ->
            (i <= s -> getitem wf s = getitem waveform s)
            /\ (s < i ->
                exists old prev new,
                  getitem waveform s = Some old
                  /\ getitem last_readout_time
                       ((first_capacitor + s) mod 4096) = Some prev
                  /\ getitem wf s = Some new
                  /\ timelapse_corrected time_now old prev new))
    (fun waveform sample =>
       let capacitor := (first_capacitor + sample) mod N_CAPACITORS_PIXEL in
       last_readout_time_cap <- getitem last_readout_time capacitor ;;
       if 0 <? last_readout_time_cap then
         let time_diff := uint64 (time_now - last_readout_time_cap) in
         let time_diff_ms := (IZR time_diff / CLOCK_FREQUENCY_KHZ)%R in
         if Rlt_dec time_diff_ms 100 then
           w <- getitem waveform sample ;;
           setitem waveform sample (w - float_min (ped_time time_diff_ms) w)%R
         else Some waveform
       else Some waveform)
    N_SAMPLES waveform) as (wf' & E & Hl' & Hfinal).
  - unfold N_SAMPLES. lia.
  - split; [exact Hlen|]. intros s Hs. split; [reflexivity | lia].
  - intros i wf Hi [Hl Hinv]. unfold N_SAMPLES in Hi.
    change N_CAPACITORS_PIXEL with 4096.
    destruct (getitem_some last_readout_time
                ((first_capacitor + i) mod 4096)) as [prev Hprev].
    { Z.div_mod_to_equations. lia. }
    destruct (getitem_some wf i) as [w Hw]; [lia|].
    assert (Hold : getitem waveform i = Some w).
    { rewrite <- Hw. symmetry. apply (Hinv i Hi). lia. }
    cbv zeta. rewrite Hprev. cbn [bind].
    fold (time_diff_ms time_now prev).
    assert (Hkeep : forall wf1 new,
               length wf1 = 40%nat ->
               getitem wf1 i = Some new ->
               (forall s, 0 <= s < 40 -> s <> i ->
                          getitem wf1 s = getitem wf s) ->
               timelapse_corrected time_now w prev new ->
               forall s, 0 <= s < 40 ->
                 (i + 1 <= s -> getitem wf1 s = getitem waveform s)
                 /\ (s < i + 1 ->
                     exists old prev0 new0,
                       getitem waveform s = Some old
                       /\ getitem last_readout_time
                            ((first_capacitor + s) mod 4096) = Some prev0
                       /\ getitem wf1 s = Some new0
                       /\ timelapse_corrected time_now old prev0 new0)).
    { intros wf1 new L1 G1 O1 C1 s Hs. split.
      - intros Hge. rewrite O1 by lia. apply (Hinv s Hs). lia.
      - intros Hlt. destruct (Z.eq_dec s i) as [->|Hne].
        + exists w, prev, new. auto.
        + rewrite O1 by lia. apply (Hinv s Hs). lia. }
    destruct (0 <? prev) eqn:Epos.
    + apply Z.ltb_lt in Epos.
      destruct (Rlt_dec (time_diff_ms time_now prev) 100) as [Hdt|Hdt].
      * rewrite Hw. cbn [bind].
        rewrite setitem_nonneg by lia.
        eexists. split; [reflexivity|]. split; [now rewrite length_update|].
        apply (Hkeep _ (w - float_min (ped_time (time_diff_ms time_now prev))
                                  w)%R).
        -- now rewrite length_update.
        -- apply getitem_update_eq. lia.
        -- intros s Hs Hne. apply getitem_update_neq; lia.
        -- split; [intros _; apply clamped_subtraction|].
           intros Hn. exfalso. apply Hn. split; [lia | exact Hdt].
      * exists wf. split; [reflexivity|]. split; [exact Hl|].
        apply (Hkeep wf w Hl Hw); [reflexivity|].
        split; [intros [_ Hc]; contradiction | reflexivity].
    + apply Z.ltb_ge in Epos.
      exists wf. split; [reflexivity|]. split; [exact Hl|].
      apply (Hkeep wf w Hl Hw); [reflexivity|].
      split; [intros [Hc _]; lia | reflexivity].
  - exists wf'. split; [exact E|]. split; [exact Hl'|].
    intros s Hs. apply (Hfinal s Hs). unfold N_SAMPLES. lia.
Qed.

Lemma time_diff_ms_no_wrap (time_now prev : Z) :
  0 <= time_now - prev < 2 ^ 64 ->
  time_diff_ms time_now prev = (IZR (time_now - prev) / 133000)%R.
Proof.
  intros H. unfold time_diff_ms, uint64, CLOCK_FREQUENCY_KHZ.
  now rewrite Z.mod_small by exact H.
Qed.

(** C1.  On a 40-sample waveform and a 4096-entry last-readout row, the
    kernel returns a waveform in which, for every sample s, with
    c = (fc + s) mod 4096, prev = last_readout[c] and dt_ms the elapsed
    time (t_now - prev, as 64-bit unsigned counters) / 133000: if prev > 0
    and dt_ms < 100 the sample is max(old - ped_time(dt_ms), 0), hence not
    below zero, with ped_time(dt) = 32.99 * dt^(-0.22) - 11.9 (at dt = 0,
    where the power is +inf, that is 0); otherwise the sample is
    unchanged. *)
Theorem timelapse_baseline_correction (waveform : list R)
    (first_capacitor time_now : Z) (last_readout_time : list Z) :
  length waveform = 40%nat ->
  length last_readout_time = 4096%nat ->
  exists waveform',
    apply_timelapse_correction_pixel waveform first_capacitor time_now
      last_readout_time = Some waveform'
    /\ forall s, 0 <= s < 40 ->
         exists old prev new,
           getitem waveform s = Some old
           /\ getitem last_readout_time ((first_capacitor + s) mod 4096)
              = Some prev
           /\ getitem waveform' s = Some new
           /\ (0 < prev /\ (time_diff_ms time_now prev < 100)%R ->
               new = clamped_difference old
                       (ped_time (time_diff_ms time_now prev))
               /\ (0 <= new)%R
               /\ (time_diff_ms time_now prev <> 0%R ->
                   new = Rmax (old - (32.99
                                      * Rpower (time_diff_ms time_now prev)
                                               (-0.22)
                                      - 11.9)) 0))
           /\ (~ (0 < prev /\ (time_diff_ms time_now prev < 100)%R) ->
               new = old)
           /\ (0 <= time_now - prev < 2 ^ 64 ->
               time_diff_ms time_now prev
               = (IZR (time_now - prev) / 133000)%R).
Proof.
  intros Hlen Hlrt.
  destruct (apply_timelapse_correction_pixel_spec waveform first_capacitor
              time_now last_readout_time Hlen Hlrt)
    as (wf' & E & _ & Hspec).
  exists wf'. split; [exact E|].
  intros s Hs.
  destruct (Hspec s Hs) as (old & prev & new & H1 & H2 & H3 & Hc1 & Hc2).
  exists old, prev, new.
  split; [exact H1|]. split; [exact H2|]. split; [exact H3|].
  split; [|split].
  - intros H. split; [apply Hc1; exact H|].
    split; [rewrite (Hc1 H); apply clamped_difference_nonneg|].
    intros Hdt. rewrite (Hc1 H), (ped_time_finite _ Hdt). reflexivity.
  - exact Hc2.
  - apply time_diff_ms_no_wrap.
Qed.

Lemma timelapse_baseline_correction_witness :
  exists waveform',
    apply_timelapse_correction_pixel (repeat 100%R 40) 4090 1330001
      (repeat 1 4096) = Some waveform'
    /\ forall s, 0 <= s < 40 ->
         exists old prev new,
           getitem (repeat 100%R 40) s = Some old
           /\ getitem (repeat 1 4096) ((4090 + s) mod 4096) = Some prev
           /\ getitem waveform' s = Some new
           /\ (0 < prev /\ (time_diff_ms 1330001 prev < 100)%R ->
               new = clamped_difference old
                       (ped_time (time_diff_ms 1330001 prev))
               /\ (0 <= new)%R
               /\ (time_diff_ms 1330001 prev <> 0%R ->
                   new = Rmax (old - (32.99
                                      * Rpower (time_diff_ms 1330001 prev)
                                               (-0.22)
                                      - 11.9)) 0))
           /\ (~ (0 < prev /\ (time_diff_ms 1330001 prev < 100)%R) ->
               new = old)
           /\ (0 <= 1330001 - prev < 2 ^ 64 ->
               time_diff_ms 1330001 prev
               = (IZR (1330001 - prev) / 133000)%R).
Proof.
  apply (timelapse_baseline_correction (repeat 100%R 40) 4090 1330001
           (repeat 1 4096)); reflexivity.
Defined.

(** ** Stamping the last-readout times *)

Lemma StampedRow_refl (t : Z) (l : list Z) : StampedRow t l l.
Proof. split; auto. Qed.

Lemma StampedRow_trans (t : Z) (l1 l2 l3 : list Z) :
  StampedRow t l1 l2 -> StampedRow t l2 l3 -> StampedRow t l1 l3.
Proof.
  intros [L12 H12] [L23 H23]. split; [congruence|].
  intros c Hc. destruct (H23 c) as [E|E]; [rewrite L12; exact Hc | |].
  - rewrite E. apply H12, Hc.
  - now right.
Qed.

Lemma in_range2 (a b i : Z) : In i (range2 a b) -> a <= i < b.
Proof.
  unfold range2. rewrite in_map_iff. intros (k & <- & Hk).
  apply in_seq in Hk. lia.
Qed.

Lemma in_range_inv (n i : Z) : In i (range n) -> 0 <= i < n.
Proof. apply in_range2. Qed.

Lemma stamp_spec (t : Z) (caps l : list Z) :
  length l = 4096%nat ->
  exists l', stamp t caps l = Some l' /\ StampedRow t l l'.
Proof.
  intros Hlen. unfold stamp.
  apply (for_each_invariant (fun l1 => StampedRow t l l1)).
  - apply StampedRow_refl.
  - intros capacitor l1 _ Hst.
    assert (Hl1 : length l1 = 4096%nat) by (destruct Hst; congruence).
    assert (Hc : 0 <= capacitor mod N_CAPACITORS_PIXEL
                 < Z.of_nat (length l1)).
    { rewrite Hl1. change N_CAPACITORS_PIXEL with 4096.
      Z.div_mod_to_equations. lia. }
    rewrite setitem_nonneg by exact Hc.
    eexists. split; [reflexivity|].
    apply (StampedRow_trans t l l1); [exact Hst|].
    split; [apply length_update|].
    intros c Hcr.
    destruct (Z.eq_dec c (capacitor mod N_CAPACITORS_PIXEL)) as [->|Hne].
    + right. apply getitem_update_eq. exact Hc.
    + left. apply getitem_update_neq; lia.
Qed.

Lemma StampedRow_length (t : Z) (l l' : list Z) :
  StampedRow t l l' -> length l = 4096%nat -> length l' = 4096%nat.
Proof. intros [H _] Hl. congruence. Qed.

Lemma update_last_readout_time_spec (pixel_in_module first_capacitor
    time_now : Z) (l : list Z) :
  length l = 4096%nat ->
  exists l',
    update_last_readout_time pixel_in_module first_capacitor time_now l
    = Some l'
    /\ StampedRow time_now l l'.
Proof.
  intros Hlen. unfold update_last_readout_time.
  destruct (stamp_spec time_now
              (map (fun sample => first_capacitor + sample)
                   (range N_SAMPLES)) l Hlen) as (l1 & E1 & S1).
  rewrite E1. cbn [bind].
  pose proof (StampedRow_length _ _ _ S1 Hlen) as Hl1.
  destruct (pixel_in_module mod 2 =? 0); [|eauto].
  cbv zeta.
  destruct (_ && _).
  - destruct (stamp_spec time_now
                (range2 (first_capacitor + N_CAPACITORS_CHANNEL)
                        (first_capacitor + N_CAPACITORS_CHANNEL + 12))
                l1 Hl1) as (l2 & E2 & S2).
    rewrite E2. eauto using StampedRow_trans.
  - destruct (1013 <=? _); [|eauto].
    destruct (stamp_spec time_now
                (range2 (first_capacitor + N_CAPACITORS_CHANNEL)
                        ((first_capacitor / N_CAPACITORS_CHANNEL + 2)
                         * N_CAPACITORS_CHANNEL))
                l1 Hl1) as (l2 & E2 & S2).
    rewrite E2. eauto using StampedRow_trans.
Qed.

Lemma update_last_readout_time_old_firmware_spec (pixel_in_module
    first_capacitor time_now : Z) (l : list Z) :
  length l = 4096%nat ->
  exists l',
    update_last_readout_time_old_firmware pixel_in_module first_capacitor
      time_now l = Some l'
    /\ StampedRow time_now l l'.
Proof.
  intros Hlen. unfold update_last_readout_time_old_firmware.
  destruct (stamp_spec time_now
              (map (fun sample => first_capacitor + sample)
                   (range2 (-1) (N_SAMPLES - 1))) l Hlen) as (l1 & E1 & S1).
  rewrite E1. cbn [bind].
  pose proof (StampedRow_length _ _ _ S1 Hlen) as Hl1.
  destruct (pixel_in_module mod 2 =? 0); [|eauto].
  cbv zeta.
  destruct (_ && _).
  - destruct (stamp_spec time_now
                (range2 (first_capacitor + N_CAPACITORS_CHANNEL - 1)
                        (first_capacitor + N_CAPACITORS_CHANNEL + 11))
                l1 Hl1) as (l2 & E2 & S2).
    rewrite E2. eauto using StampedRow_trans.
  - destruct (1013 <=? _); [|eauto].
    destruct (stamp_spec time_now
                (range2 (first_capacitor + N_CAPACITORS_CHANNEL)
                        ((first_capacitor / N_CAPACITORS_CHANNEL + 2)
                         * N_CAPACITORS_CHANNEL))
                l1 Hl1) as (l2 & E2 & S2).
    rewrite E2. eauto using StampedRow_trans.
Qed.

(** ** The time-lapse stage over one event *)

Lemma Stamped3_refl (allowed : Z -> Z -> Prop) (np : Z)
    (lr : list (list (list Z))) :
  Stamped3 allowed np lr lr.
Proof. intros g p c _ _ _. now left. Qed.

Lemma Stamped3_trans (allowed allowed' : Z -> Z -> Prop) (np : Z)
    (lr1 lr2 lr3 : list (list (list Z))) :
  (forall p t, allowed' p t -> allowed p t) ->
  Stamped3 allowed np lr1 lr2 -> Stamped3 allowed' np lr2 lr3 ->
  Stamped3 allowed np lr1 lr3.
Proof.
  intros Hsub H12 H23 g p c Hg Hp Hc.
  destruct (H23 g p c Hg Hp Hc) as [E|(t & Ht & E)].
  - rewrite E. apply H12; assumption.
  - right. exists t. auto.
Qed.

Section TimelapseEvent.
Variable LAST_RUN_WITH_OLD_FIRMWARE : Z.
Variable np : Z.
Variable first_capacitors : list (list Z).
Variable expected_pixels_id : list Z.
Variable run_id : Z.

Hypothesis first_capacitors_shape : Shape2 first_capacitors 2 np.
Hypothesis expected_in_range :
  Forall (fun p => 0 <= p < np) expected_pixels_id.

Lemma apply_timelapse_correction_slot_spec (gain module time_now : Z)
    (st : TimelapseState) (pixel_in_module : Z) :
  0 <= gain < 2 ->
  0 <= module * N_PIXELS_MODULE + pixel_in_module
  < Z.of_nat (length expected_pixels_id) ->
  TimelapseShapes np st ->
  exists st',
    apply_timelapse_correction_slot LAST_RUN_WITH_OLD_FIRMWARE
      first_capacitors expected_pixels_id run_id gain module time_now st
      pixel_in_module = Some st'
    /\ TimelapseShapes np st'
    /\ Stamped3
         (fun p t =>
            getitem expected_pixels_id
              (module * N_PIXELS_MODULE + pixel_in_module) = Some p
            /\ t = time_now)
         np (last_readout_time_of st) (last_readout_time_of st').
Proof.
  intros Hg Hidx (Hws & Hwr & Hls & Hlr).
  unfold apply_timelapse_correction_slot.
  destruct (getitem_some expected_pixels_id
              (module * N_PIXELS_MODULE + pixel_in_module) Hidx)
    as [pixel_id Epid].
  assert (Hpid : 0 <= pixel_id < np).
  { rewrite getitem_nonneg in Epid by exact Hidx.
    apply nth_error_In in Epid.
    rewrite Forall_forall in expected_in_range. auto. }
  rewrite Epid. cbn [bind].
  destruct (getitem2_some _ _ _ gain pixel_id Hws Hg Hpid) as [wrow Ewrow].
  destruct (getitem2_some _ _ _ gain pixel_id first_capacitors_shape Hg Hpid)
    as [fc Efc].
  destruct (getitem2_some _ _ _ gain pixel_id Hls Hg Hpid) as [lrow Elrow].
  pose proof (All2_getitem2 _ _ _ _ _ Hwr Ewrow) as Hwlen.
  pose proof (All2_getitem2 _ _ _ _ _ Hlr Elrow) as Hllen.
  simpl in Hwlen, Hllen.
  rewrite Ewrow, Efc, Elrow. cbn [bind].
  destruct (apply_timelapse_correction_pixel_spec wrow fc time_now lrow)
    as (wrow' & Ew' & Lw' & _); [lia | lia |].
  rewrite Ew'. cbn [bind].
  destruct (setitem2_spec (waveform_of st) 2 np gain pixel_id wrow'
              Hws Hg Hpid) as (wf' & Ewf' & Hws' & _ & _ & Hwall).
  rewrite Ewf'. cbn [bind].
  assert (Hup : exists lrow',
             (if LAST_RUN_WITH_OLD_FIRMWARE <? run_id
              then update_last_readout_time pixel_in_module fc time_now lrow
              else update_last_readout_time_old_firmware pixel_in_module fc
                     time_now lrow) = Some lrow'
             /\ StampedRow time_now lrow lrow').
  { destruct (LAST_RUN_WITH_OLD_FIRMWARE <? run_id).
    - apply update_last_readout_time_spec. lia.
    - apply update_last_readout_time_old_firmware_spec. lia. }
  destruct Hup as (lrow' & El' & [Ll' Hst]).
  rewrite El'. cbn [bind].
  destruct (setitem2_spec (last_readout_time_of st) 2 np gain pixel_id lrow'
              Hls Hg Hpid) as (lr' & Elr' & Hls' & Hget & Hother & Hlall).
  rewrite Elr'. cbn [bind].
  eexists. split; [reflexivity|]. split.
  - repeat split; cbn [waveform_of last_readout_time_of];
      try apply Hws'; try apply Hls'.
    + apply Hwall; [exact Hwr|]. simpl. lia.
    + apply Hlall; [exact Hlr|]. simpl. lia.
  - cbn [last_readout_time_of]. intros g p c Hgr Hpr Hcr.
    destruct (Z.eq_dec g gain) as [->|Hng];
      [destruct (Z.eq_dec p pixel_id) as [->|Hnp]|].
    + unfold getitem3. rewrite Hget, Elrow. cbn [bind].
      destruct (Hst c) as [E|E]; [lia | now left |].
      right. exists time_now. auto.
    + left. unfold getitem3. rewrite Hother by (try lia; congruence).
      reflexivity.
    + left. unfold getitem3. rewrite Hother by (try lia; congruence).
      reflexivity.
Qed.

Lemma apply_timelapse_correction_spec (waveform : list (list (list R)))
    (local_clock_counter : list Z)
    (last_readout_time : list (list (list Z))) :
  TimelapseShapes np (mkTimelapseState waveform last_readout_time) ->
  Z.of_nat (length expected_pixels_id) / N_PIXELS_MODULE
  <= Z.of_nat (length local_clock_counter) ->
  exists st',
    apply_timelapse_correction LAST_RUN_WITH_OLD_FIRMWARE waveform
      local_clock_counter first_capacitors last_readout_time
      expected_pixels_id run_id = Some st'
    /\ TimelapseShapes np st'
    /\ Stamped3 (event_stamp expected_pixels_id local_clock_counter) np last_readout_time
         (last_readout_time_of st').
Proof.
  intros Hshapes Hclk. unfold apply_timelapse_correction.
  set (n_modules := Z.of_nat (length expected_pixels_id) / N_PIXELS_MODULE)
    in *.
  set (Inv := fun st =>
         TimelapseShapes np st
         /\ Stamped3 (event_stamp expected_pixels_id local_clock_counter) np last_readout_time
              (last_readout_time_of st)).
  apply (for_each_invariant Inv).
  { split; [exact Hshapes | apply Stamped3_refl]. }
  intros gain st0 Hgain Hinv0. apply in_range_inv in Hgain.
  unfold N_GAINS in Hgain.
  apply (for_each_invariant Inv); [exact Hinv0|].
  intros module st1 Hmod Hinv1. apply in_range_inv in Hmod.
  destruct (getitem_some local_clock_counter module) as [time_now Etime];
    [lia|].
  rewrite Etime. cbn [bind].
  apply (for_each_invariant Inv); [exact Hinv1|].
  intros pixel_in_module st2 Hpim [Hsh2 Hst2]. apply in_range_inv in Hpim.
  assert (Hidx : 0 <= module * N_PIXELS_MODULE + pixel_in_module
                 < Z.of_nat (length expected_pixels_id)).
  { unfold n_modules, N_PIXELS_MODULE in *.
    Z.div_mod_to_equations. lia. }
  destruct (apply_timelapse_correction_slot_spec gain module time_now st2
              pixel_in_module Hgain Hidx Hsh2) as (st3 & E3 & Hsh3 & Hst3).
  exists st3. split; [exact E3|]. split; [exact Hsh3|].
  eapply Stamped3_trans; [|exact Hst2|exact Hst3].
  intros p t [Hp ->]. exists module, pixel_in_module. auto.
Qed.

End TimelapseEvent.

(** ** The last-readout times over a session *)

Lemma getitem3_some {A : Type} (a : list (list (list A))) (np g p c : Z) :
  Shape2 a 2 np ->
  All2 (fun row : list A => Z.of_nat (length row) = 4096) a ->
  0 <= g < 2 -> 0 <= p < np -> 0 <= c < 4096 ->
  exists v, getitem3 a g p c = Some v.
Proof.
  intros Hs Hr Hg Hp Hc.
  destruct (getitem2_some _ _ _ g p Hs Hg Hp) as [row Hrow].
  pose proof (All2_getitem2 _ _ _ _ _ Hr Hrow) as Hlen. simpl in Hlen.
  unfold getitem3. rewrite Hrow. cbn [bind]. apply getitem_some. lia.
Qed.

Lemma zeros3_shape (np : nat) :
  Shape2 (zeros3 2 np 4096) 2 (Z.of_nat np)
  /\ All2 (fun row : list Z => Z.of_nat (length row) = 4096)
          (zeros3 2 np 4096).
Proof.
  unfold zeros3. split; [split|].
  - reflexivity.
  - apply Forall_repeat. rewrite repeat_length. reflexivity.
  - apply Forall_repeat, Forall_repeat. rewrite repeat_length. reflexivity.
Qed.

Lemma getitem_repeat {A : Type} (x : A) (n : nat) (i : Z) :
  0 <= i < Z.of_nat n -> getitem (repeat x n) i = Some x.
Proof.
  intros H. rewrite getitem_nonneg by (rewrite repeat_length; exact H).
  apply nth_error_repeat. lia.
Qed.

Lemma getitem3_zeros3 (np : nat) (g p c : Z) :
  0 <= g < 2 -> 0 <= p < Z.of_nat np -> 0 <= c < 4096 ->
  getitem3 (zeros3 2 np 4096) g p c = Some 0.
Proof.
  intros Hg Hp Hc. unfold getitem3, getitem2, zeros3.
  rewrite getitem_repeat by exact Hg. cbn [bind].
  rewrite getitem_repeat by exact Hp. cbn [bind].
  apply getitem_repeat. exact Hc.
Qed.

Lemma event_stamp_module (expected : list Z) (ck ck' : list Z) (p t t' : Z) :
  NoDup expected ->
  event_stamp expected ck p t -> event_stamp expected ck' p t' ->
  exists m,
    0 <= m < Z.of_nat (length expected) / N_PIXELS_MODULE
    /\ getitem ck m = Some t /\ getitem ck' m = Some t'.
Proof.
  intros Hnd (m & k & Hm & Hk & Hp & Ht) (m' & k' & Hm' & Hk' & Hp' & Ht').
  assert (Hi : 0 <= m * N_PIXELS_MODULE + k < Z.of_nat (length expected)).
  { unfold N_PIXELS_MODULE in *. Z.div_mod_to_equations. lia. }
  assert (Hi' : 0 <= m' * N_PIXELS_MODULE + k' < Z.of_nat (length expected)).
  { unfold N_PIXELS_MODULE in *. Z.div_mod_to_equations. lia. }
  rewrite getitem_nonneg in Hp, Hp' by assumption.
  assert (E : Z.to_nat (m * N_PIXELS_MODULE + k)
              = Z.to_nat (m' * N_PIXELS_MODULE + k')).
  { apply (proj1 (NoDup_nth_error expected) Hnd); [lia | congruence]. }
  assert (m = m') by (unfold N_PIXELS_MODULE in *; lia). subst m'.
  exists m. auto.
Qed.

Lemma clocks_advance_pair_le (n_modules : Z) (ev1 ev2 : TimelapseInput)
    (m t2 : Z) :
  clocks_advance_pair n_modules ev1 ev2 = true ->
  0 <= m < n_modules ->
  getitem (in_local_clock_counter ev2) m = Some t2 ->
  exists t1, getitem (in_local_clock_counter ev1) m = Some t1 /\ t1 <= t2.
Proof.
  unfold clocks_advance_pair. rewrite forallb_forall.
  intros H Hm E2. specialize (H m (in_range _ _ Hm)).
  destruct (getitem (in_local_clock_counter ev1) m) as [t1|]; [|discriminate].
  rewrite E2 in H. apply Z.leb_le in H. eauto.
Qed.

Lemma wf_timelapse_input_shapes (np : nat) (n_modules : Z)
    (ev : TimelapseInput) :
  wf_timelapse_input np n_modules ev = true ->
  Shape2 (in_waveform ev) 2 (Z.of_nat np)
  /\ All2 (fun row : list R => Z.of_nat (length row) = 40) (in_waveform ev)
  /\ Shape2 (in_first_capacitors ev) 2 (Z.of_nat np)
  /\ n_modules <= Z.of_nat (length (in_local_clock_counter ev))
  /\ Forall (fun t => 0 <= t) (in_local_clock_counter ev).
Proof.
  unfold wf_timelapse_input. rewrite !andb_true_iff.
  intros [[[H1 H2] H3] H4].
  apply has_shape3_Shape2 in H1 as [H1 H1'].
  apply has_shape2_Shape2 in H2. apply Z.leb_le in H3.
  repeat split; try apply H1; try apply H2; try assumption.
  rewrite forallb_forall in H4. apply Forall_forall.
  intros t Ht. apply H4 in Ht. now apply Z.leb_le in Ht.
Qed.

Section Session.
Variable LAST_RUN_WITH_OLD_FIRMWARE : Z.
Variable run_id : Z.
Variable np : nat.
Variable expected : list Z.

Hypothesis expected_distinct : NoDup expected.
Hypothesis expected_in_range :
  Forall (fun p => 0 <= p < Z.of_nat np) expected.

Let n_modules : Z := Z.of_nat (length expected) / N_PIXELS_MODULE.

Lemma time_lapse_session_chain (events : list TimelapseInput) :
  forall lr,
    Shape2 lr 2 (Z.of_nat np) ->
    All2 (fun row : list Z => Z.of_nat (length row) = 4096) lr ->
    (forall ev rest, events = ev :: rest ->
                     Bounded expected (Z.of_nat np) lr
                             (in_local_clock_counter ev)) ->
    forallb (wf_timelapse_input np n_modules) events = true ->
    clocks_advance n_modules events = true ->
    exists states,
      time_lapse_session LAST_RUN_WITH_OLD_FIRMWARE lr expected run_id events
      = Some states
      /\ length states = length events
      /\ Chain expected (Z.of_nat np) (lr :: states) events.
Proof.
  induction events as [|ev rest IH]; intros lr Hs Hr Hb Hwf Hadv.
  - exists []. split; [reflexivity|]. split; [reflexivity|].
    intros i a b _ Hb'. destruct i; discriminate.
  - cbn [forallb] in Hwf. apply andb_prop in Hwf as [Hwf1 Hwfr].
    destruct (wf_timelapse_input_shapes _ _ _ Hwf1)
      as (Hws & Hwr & Hfs & Hck & Hnn).
    destruct (apply_timelapse_correction_spec LAST_RUN_WITH_OLD_FIRMWARE
                (Z.of_nat np) (in_first_capacitors ev) expected run_id
                Hfs expected_in_range (in_waveform ev)
                (in_local_clock_counter ev) lr)
      as (st' & E & (_ & _ & Hs' & Hr') & Hst).
    { repeat split; simpl; try apply Hws; try apply Hs; assumption. }
    { exact Hck. }
    specialize (Hb ev rest eq_refl).
    destruct (IH (last_readout_time_of st') Hs' Hr') as (later & El & Ll & Hch).
    + intros ev2 rest' ->.
      cbn [clocks_advance] in Hadv. apply andb_prop in Hadv as [Hpair _].
      intros g p c v1 Hg Hp Hc Hv1 t2 Hst2.
      destruct (Hst g p c Hg Hp Hc) as [Esame|(t & Ht & Enew)].
      * destruct Hst2 as (m & k & Hm & Hk & Hpix & Ht2).
        destruct (clocks_advance_pair_le _ _ _ m t2 Hpair Hm Ht2)
          as (t1 & Et1 & Hle).
        assert (v1 <= t1); [|lia].
        apply (Hb g p c v1 Hg Hp Hc); [congruence|].
        exists m, k. auto.
      * destruct (event_stamp_module expected _ _ p t t2 expected_distinct
                    Ht Hst2) as (m & Hm & Em & Em2).
        destruct (clocks_advance_pair_le _ _ _ m t2 Hpair Hm Em2)
          as (t1 & Et1 & Hle).
        assert (v1 = t) by congruence. assert (t1 = t) by congruence. lia.
    + exact Hwfr.
    + destruct rest as [|ev2 rest']; [reflexivity|].
      cbn [clocks_advance] in Hadv. now apply andb_prop in Hadv as [_ Hadv].
    + exists (last_readout_time_of st' :: later).
      split; [cbn [time_lapse_session]; rewrite E; cbn [bind];
              rewrite El; reflexivity|].
      split; [simpl; lia|].
      intros i a b Ha Hb' g p c Hg Hp Hc.
      destruct i as [|i].
      * injection Ha as <-. injection Hb' as <-.
        destruct (getitem3_some lr _ g p c Hs Hr Hg Hp Hc) as [va Eva].
        destruct (getitem3_some _ _ g p c Hs' Hr' Hg Hp Hc) as [vb Evb].
        exists va, vb. split; [exact Eva|]. split; [exact Evb|].
        destruct (Hst g p c Hg Hp Hc) as [Esame|(t & Ht & Enew)].
        -- assert (vb = va) by congruence. split; [lia | now left].
        -- assert (vb = t) by congruence. subst t.
           split; [apply (Hb g p c va Hg Hp Hc Eva vb Ht)|].
           right. exists ev. split; [reflexivity | exact Ht].
      * apply (Hch i a b Ha Hb' g p c Hg Hp Hc).
Qed.

End Session.

Lemma Chain_monotone (expected : list Z) (np : Z)
    (tables : list (list (list (list Z)))) (events : list TimelapseInput)
    (g p c : Z) :
  Chain expected np tables events ->
  0 <= g < 2 -> 0 <= p < np -> 0 <= c < 4096 ->
  forall j i a b va vb,
    (i <= j)%nat ->
    nth_error tables i = Some a -> nth_error tables j = Some b ->
    getitem3 a g p c = Some va -> getitem3 b g p c = Some vb ->
    va <= vb.
Proof.
  intros Hch Hg Hp Hc.
  induction j as [|j IH]; intros i a b va vb Hij Ha Hb Hva Hvb.
  - assert (i = 0%nat) by lia. subst i.
    assert (a = b) by congruence. subst b.
    assert (va = vb) by congruence. lia.
  - destruct (Nat.eq_dec i (S j)) as [->|Hne].
    + assert (a = b) by congruence. subst b.
      assert (va = vb) by congruence. lia.
    + destruct (nth_error tables j) as [a'|] eqn:Ea'.
      2:{ apply nth_error_None in Ea'.
          assert (nth_error tables (S j) = None)
            by (apply nth_error_None; lia).
          congruence. }
      destruct (Hch j a' b Ea' Hb g p c Hg Hp Hc)
        as (va' & vb' & E1 & E2 & Hle & _).
      assert (vb' = vb) by congruence. subst vb'.
      assert (va <= va'); [|lia].
      apply (IH i a a' va va'); auto. lia.
Qed.

(** C7, as stated, fails: nothing orders the clock counters of successive
    events.  Entry (0, 0, 1824) starts at 0, is set to 10 by the first
    event and to 5 by the second. *)
Lemma last_readout_goes_back :
  match time_lapse_session 1574 (zeros3 2 7 4096) one_module_camera 2008
          [event_at_10; event_at_5] with
  | Some [after_first; after_second] =>
      getitem3 (zeros3 2 7 4096) 0 0 1824 = Some 0
      /\ getitem3 after_first 0 0 1824 = Some 10
      /\ getitem3 after_second 0 0 1824 = Some 5
  | _ => False
  end.
Proof.
  vm_compute. repeat split; reflexivity.
Qed.

(** C7, amended.  For a camera whose pixel ids are distinct and a session
    in which no module's clock counter goes back from one event to the
    next, the time-lapse stage processes every event and, for every
    (g, p, c), last_readout[g][p][c] starts at zero and never decreases
    over the sequence of tables after each event; from one event to the
    next an entry keeps its value or takes the event's clock counter of
    the module the pixel belongs to. *)
Theorem last_readout_monotone (LAST_RUN_WITH_OLD_FIRMWARE run_id : Z)
    (np : nat) (expected : list Z) (events : list TimelapseInput) :
  NoDup expected ->
  Forall (fun p => 0 <= p < Z.of_nat np) expected ->
  forallb (wf_timelapse_input np
             (Z.of_nat (length expected) / N_PIXELS_MODULE)) events = true ->
  clocks_advance (Z.of_nat (length expected) / N_PIXELS_MODULE) events
  = true ->
  exists states,
    time_lapse_session LAST_RUN_WITH_OLD_FIRMWARE (zeros3 2 np 4096)
      expected run_id events = Some states
    /\ length states = length events
    /\ forall g p c, 0 <= g < 2 -> 0 <= p < Z.of_nat np -> 0 <= c < 4096 ->
         getitem3 (zeros3 2 np 4096) g p c = Some 0
         /\ (forall i j a b va vb,
                (i <= j)%nat ->
                nth_error (zeros3 2 np 4096 :: states) i = Some a ->
                nth_error (zeros3 2 np 4096 :: states) j = Some b ->
                getitem3 a g p c = Some va -> getitem3 b g p c = Some vb ->
                va <= vb)
         /\ (forall i a b,
                nth_error (zeros3 2 np 4096 :: states) i = Some a ->
                nth_error (zeros3 2 np 4096 :: states) (S i) = Some b ->
                exists va vb,
                  getitem3 a g p c = Some va
                  /\ getitem3 b g p c = Some vb
                  /\ (vb = va
                      \/ exists ev,
                           nth_error events i = Some ev
                           /\ event_stamp expected
                                (in_local_clock_counter ev) p vb)).
Proof.
  intros Hnd Hrange Hwf Hadv.
  destruct (zeros3_shape np) as [Hs Hr].
  destruct (time_lapse_session_chain LAST_RUN_WITH_OLD_FIRMWARE run_id np
              expected Hnd Hrange events (zeros3 2 np 4096) Hs Hr)
    as (states & E & L & Hch); [|exact Hwf|exact Hadv|].
  - intros ev rest -> g p c v Hg Hp Hc Hv t (m & k & _ & _ & _ & Ht).
    rewrite getitem3_zeros3 in Hv by assumption. injection Hv as <-.
    cbn [forallb] in Hwf. apply andb_prop in Hwf as [Hwf _].
    destruct (wf_timelapse_input_shapes _ _ _ Hwf) as (_ & _ & _ & _ & Hnn).
    unfold getitem in Ht.
    destruct (norm_index _ m) as [k'|]; cbn [bind] in Ht; [|discriminate].
    apply nth_error_In in Ht. rewrite Forall_forall in Hnn. auto.
  - exists states. split; [exact E|]. split; [exact L|].
    intros g p c Hg Hp Hc.
    split; [apply getitem3_zeros3; assumption|]. split.
    + intros i j. intros a b va vb Hij.
      apply (Chain_monotone expected (Z.of_nat np) _ events g p c Hch
               Hg Hp Hc j i a b va vb Hij).
    + intros i a b Ha Hb.
      destruct (Hch i a b Ha Hb g p c Hg Hp Hc)
        as (va & vb & E1 & E2 & _ & Hor).
      exists va, vb. auto.
Qed.

Lemma last_readout_monotone_witness :
  exists states,
    time_lapse_session 1574 (zeros3 2 7 4096) one_module_camera 2008
      [event_at_10; event_at_20] = Some states
    /\ length states = 2%nat
    /\ forall g p c, 0 <= g < 2 -> 0 <= p < 7 -> 0 <= c < 4096 ->
         getitem3 (zeros3 2 7 4096) g p c = Some 0
         /\ (forall i j a b va vb,
                (i <= j)%nat ->
                nth_error (zeros3 2 7 4096 :: states) i = Some a ->
                nth_error (zeros3 2 7 4096 :: states) j = Some b ->
                getitem3 a g p c = Some va -> getitem3 b g p c = Some vb ->
                va <= vb)
         /\ (forall i a b,
                nth_error (zeros3 2 7 4096 :: states) i = Some a ->
                nth_error (zeros3 2 7 4096 :: states) (S i) = Some b ->
                exists va vb,
                  getitem3 a g p c = Some va
                  /\ getitem3 b g p c = Some vb
                  /\ (vb = va
                      \/ exists ev,
                           nth_error [event_at_10; event_at_20] i = Some ev
                           /\ event_stamp one_module_camera
                                (in_local_clock_counter ev) p vb)).
Proof.
  apply (last_readout_monotone 1574 2008 7 one_module_camera
           [event_at_10; event_at_20]).
  - unfold one_module_camera. repeat constructor; simpl; intuition lia.
  - unfold one_module_camera. repeat constructor; lia.
  - vm_compute. reflexivity.
  - vm_compute. reflexivity.
Defined.

(** ** Dictionaries *)

Module MultiFilesFacts.
Import MultiFiles MultiFilesSpec.

Section DictFacts.
Context {V : Type}.

Lemma dict_get_set_eq (d : list (string * V)) (k : string) (v : V) :
  dict_get (dict_set d k v) k = Some v.
Proof.
  induction d as [|[k' v'] d IH]; simpl.
  - now rewrite String.eqb_refl.
  - destruct (String.eqb k' k) eqn:E; simpl; rewrite E; auto.
Qed.

Lemma dict_get_set_neq (d : list (string * V)) (k k' : string) (v : V) :
  k' <> k -> dict_get (dict_set d k v) k' = dict_get d k'.
Proof.
  intros Hne. induction d as [|[k0 v0] d IH]; simpl.
  - destruct (String.eqb_spec k k'); [congruence | reflexivity].
  - destruct (String.eqb_spec k0 k) as [->|H0]; simpl.
    + destruct (String.eqb_spec k k'); [congruence | reflexivity].
    + now rewrite IH.
Qed.

Lemma dict_set_fresh (d : list (string * V)) (k : string) (v : V) :
  ~ In k (keys d) -> dict_set d k v = d ++ [(k, v)].
Proof.
  induction d as [|[k0 v0] d IH]; simpl; intros Hn; [reflexivity|].
  destruct (String.eqb_spec k0 k) as [->|H0]; [tauto|].
  rewrite IH; tauto.
Qed.

Lemma dict_set_last (d : list (string * V)) (k : string) (v v' : V) :
  ~ In k (keys d) -> dict_set (d ++ [(k, v)]) k v' = d ++ [(k, v')].
Proof.
  induction d as [|[k0 v0] d IH]; simpl; intros Hn.
  - now rewrite String.eqb_refl.
  - destruct (String.eqb_spec k0 k) as [->|H0]; [tauto|].
    rewrite IH; tauto.
Qed.

Lemma dict_get_last (d : list (string * V)) (k : string) (v : V) :
  ~ In k (keys d) -> dict_get (d ++ [(k, v)]) k = Some v.
Proof.
  induction d as [|[k0 v0] d IH]; simpl; intros Hn.
  - now rewrite String.eqb_refl.
  - destruct (String.eqb_spec k0 k) as [->|H0]; [tauto|]. apply IH. tauto.
Qed.

Lemma dict_get_app_other (d : list (string * V)) (k k' : string) (v : V) :
  k' <> k -> dict_get (d ++ [(k, v)]) k' = dict_get d k'.
Proof.
  intros Hne. induction d as [|[k0 v0] d IH]; simpl.
  - destruct (String.eqb_spec k k'); [congruence | reflexivity].
  - now rewrite IH.
Qed.

Lemma dict_get_In (d : list (string * V)) (k : string) (v : V) :
  dict_get d k = Some v -> In (k, v) d.
Proof.
  induction d as [|[k0 v0] d IH]; simpl; [discriminate|].
  destruct (String.eqb_spec k0 k) as [->|H0].
  - intros [= ->]. now left.
  - intros H. right. auto.
Qed.

Lemma dict_In_set (d : list (string * V)) (k k' : string) (v v' : V) :
  In (k', v') (dict_set d k v) -> (k' = k /\ v' = v) \/ In (k', v') d.
Proof.
  induction d as [|[k0 v0] d IH]; simpl.
  - intros [[= <- <-]|[]]. now left.
  - destruct (String.eqb_spec k0 k) as [->|H0]; simpl.
    + intros [[= <- <-]|H]; auto.
    + intros [H|H]; auto. destruct (IH H); auto.
Qed.

Lemma dict_set_In (d : list (string * V)) (k : string) (v : V) :
  In (k, v) (dict_set d k v).
Proof.
  induction d as [|[k0 v0] d IH]; simpl; [now left|].
  destruct (String.eqb_spec k0 k) as [->|H0]; simpl; auto.
Qed.

Lemma dict_In_set_other (d : list (string * V)) (k k' : string) (v v' : V) :
  k' <> k -> In (k', v') d -> In (k', v') (dict_set d k v).
Proof.
  intros Hne. induction d as [|[k0 v0] d IH]; simpl; [tauto|].
  destruct (String.eqb_spec k0 k) as [->|H0]; simpl.
  - intros [[= -> ->]|H]; [congruence | auto].
  - intros [H|H]; auto.
Qed.

Lemma hd_values_dict_set (d : list (string * V)) (k : string) (v : V) :
  (forall v0, In (k, v0) d -> v0 = v) ->
  hd_error (values (dict_set d k v))
  = match d with [] => Some v | _ => hd_error (values d) end.
Proof.
  destruct d as [|[k0 v0] d]; simpl; [reflexivity|].
  intros H. destruct (String.eqb_spec k0 k) as [->|H0]; simpl; [|reflexivity].
  f_equal. symmetry. apply H. now left.
Qed.

End DictFacts.

(** ** Construction of the merger *)

Lemma init_path_camera_config (disk : string -> FileContent) (tb : Tables)
    (path : string) :
  _camera_config (init_path disk tb path)
  = match config_read disk path with
    | Some config => dict_set (_camera_config tb) path config
    | None => _camera_config tb
    end.
Proof.
  unfold init_path, config_read, open_file, next, table_of. simpl.
  destruct (stored_events (disk path)) as [|ev evs]; simpl; [reflexivity|].
  destruct (stored_camera_config (disk path)) as [[|c cs]|]; reflexivity.
Qed.

Lemma init_camera_config_fold (disk : string -> FileContent)
    (paths : list string) :
  forall tb0,
    (forall p c, In (p, c) (_camera_config tb0) ->
                 config_read disk p = Some c) ->
    let tb := fold_left (init_path disk) paths tb0 in
    (forall c, In c (values (_camera_config tb))
               <-> In c (values (_camera_config tb0))
                   \/ In c (configs_read disk paths))
    /\ hd_error (values (_camera_config tb))
       = hd_error (values (_camera_config tb0) ++ configs_read disk paths).
Proof.
  induction paths as [|p paths IH]; intros tb0 H0; simpl.
  - split; [intros c; tauto | now rewrite app_nil_r].
  - set (tb1 := init_path disk tb0 p).
    assert (E1 : _camera_config tb1
                 = match config_read disk p with
                   | Some config => dict_set (_camera_config tb0) p config
                   | None => _camera_config tb0
                   end) by apply init_path_camera_config.
    assert (H1 : forall p' c, In (p', c) (_camera_config tb1) ->
                              config_read disk p' = Some c).
    { intros p' c. rewrite E1.
      destruct (config_read disk p) as [c0|] eqn:Ec; [|apply H0].
      intros H. apply dict_In_set in H as [[-> ->]|H]; auto. }
    destruct (IH tb1 H1) as [Hin Hhd]. fold tb1.
    assert (Hval : forall c,
               In c (values (_camera_config tb1))
               <-> In c (values (_camera_config tb0))
                   \/ In c (match config_read disk p with
                            | Some config => [config]
                            | None => []
                            end)).
    { intros c. rewrite E1.
      destruct (config_read disk p) as [c0|] eqn:Ec; [|simpl; tauto].
      unfold values. rewrite !in_map_iff. split.
      - intros ([k v] & <- & H). simpl.
        apply dict_In_set in H as [[-> ->]|H]; [right; now left|].
        left. exists (k, v). auto.
      - intros [([k v] & <- & H)|[<-|[]]].
        + destruct (String.eqb_spec k p) as [->|Hne].
          * apply H0 in H. assert (v = c0) by congruence. subst v.
            exists (p, c0). split; [reflexivity|].
            apply dict_set_In.
          * exists (k, v). split; [reflexivity|].
            now apply dict_In_set_other.
        + exists (p, c0). split; [reflexivity|].
          apply dict_set_In. }
    split.
    + intros c. rewrite Hin, Hval, in_app_iff. tauto.
    + rewrite Hhd, E1.
      destruct (config_read disk p) as [c0|] eqn:Ec; [|reflexivity].
      destruct (_camera_config tb0) as [|[k0 v0] cc0] eqn:Ecc.
      * reflexivity.
      * assert (Hh : hd_error (values (dict_set ((k0, v0) :: cc0) p c0))
                     = Some v0).
        { rewrite hd_values_dict_set; [reflexivity|].
          intros v Hv. apply H0 in Hv. congruence. }
        destruct (values (dict_set ((k0, v0) :: cc0) p c0)) as [|x xs];
          [discriminate|].
        simpl in Hh. injection Hh as ->. reflexivity.
Qed.

Lemma nodup_two (l : list Z) :
  (1 < length (nodup Z.eq_dec l))%nat
  <-> exists a b, In a l /\ In b l /\ a <> b.
Proof.
  pose proof (NoDup_nodup Z.eq_dec l) as Hnd.
  split.
  - destruct (nodup Z.eq_dec l) as [|a [|b r]] eqn:E; simpl; try lia.
    intros _. exists a, b.
    assert (Ha : In a (nodup Z.eq_dec l)) by (rewrite E; now left).
    assert (Hb : In b (nodup Z.eq_dec l)) by (rewrite E; right; now left).
    apply nodup_In in Ha, Hb. repeat split; auto.
    inversion Hnd; subst. intros ->. apply H1. now left.
  - intros (a & b & Ha & Hb & Hne).
    apply (nodup_In Z.eq_dec) in Ha, Hb.
    destruct (nodup Z.eq_dec l) as [|x [|y r]]; simpl in *; try lia; tauto.
Qed.

Lemma init_result (disk : string -> FileContent) (paths : list string) :
  paths <> [] ->
  exists tb,
    (forall c, In c (values (_camera_config tb))
               <-> In c (configs_read disk paths))
    /\ hd_error (values (_camera_config tb))
       = hd_error (configs_read disk paths)
    /\ __init__ disk paths
       = if (1 <? length (run_ids tb))%nat
         then Raise IOError_multiple_run_ids
         else match values (_camera_config tb) with
              | [] => Raise IOError_no_camera_config
              | config :: _ => Ok (mkMultiFiles tb config)
              end.
Proof.
  intros Hne.
  exists (fold_left (init_path disk) paths (mkTables [] [] [] [])).
  destruct (init_camera_config_fold disk paths (mkTables [] [] [] []))
    as [Hin Hhd]; [intros p c []|].
  split; [|split].
  - intros c. rewrite Hin. simpl. tauto.
  - exact Hhd.
  - destruct paths; [congruence | reflexivity].
Qed.

Lemma run_ids_two (tb : Tables) :
  (1 <? length (run_ids tb))%nat = true
  <-> exists c1 c2,
        In c1 (values (_camera_config tb))
        /\ In c2 (values (_camera_config tb))
        /\ configuration_id c1 <> configuration_id c2.
Proof.
  rewrite Nat.ltb_lt. unfold run_ids. rewrite nodup_two. split.
  - intros (a & b & Ha & Hb & Hne).
    apply in_map_iff in Ha as (c1 & <- & H1).
    apply in_map_iff in Hb as (c2 & <- & H2). eauto.
  - intros (c1 & c2 & H1 & H2 & Hne).
    exists (configuration_id c1), (configuration_id c2).
    auto using in_map.
Qed.

(** C9, as stated, fails: a camera configuration stored in a file without
    events is never read.  With that file alone the construction fails
    for want of a configuration although one is present; next to a file
    of another run it hides the mismatch. *)
Lemma init_skips_config_of_file_without_events :
  (stored_camera_config (config_without_events "a")
   = Some [mkCameraConfig 2008 0]
   /\ __init__ config_without_events ["a"%string]
      = Raise IOError_no_camera_config)
  /\ (stored_camera_config (second_file_without_events "a")
      = Some [mkCameraConfig 2008 0]
      /\ stored_camera_config (second_file_without_events "b")
         = Some [mkCameraConfig 2009 0]
      /\ exists mf,
           __init__ second_file_without_events ["a"%string; "b"%string]
           = Ok mf
           /\ camera_config mf = mkCameraConfig 2008 0).
Proof.
  split; [split; reflexivity|].
  split; [reflexivity|]. split; [reflexivity|].
  eexists. split; reflexivity.
Qed.

(** C9, amended.  Over a non-empty list of paths, where the configuration
    read from an input is the first record of its CameraConfig table and
    is read only if the input yields at least one event: the construction
    fails with the no-configuration error when no configuration is read
    (in particular when no input holds a camera-configuration record),
    fails with the multiple-run-ids error when the configurations read
    carry more than one configuration_id, and otherwise succeeds with
    camera_config set to the first configuration read, in path order. *)
Theorem init_configuration_errors (disk : string -> FileContent)
    (paths : list string) :
  paths <> [] ->
  ((forall p, In p paths ->
              stored_camera_config (disk p) = None
              \/ stored_camera_config (disk p) = Some []) ->
   __init__ disk paths = Raise IOError_no_camera_config)
  /\ (configs_read disk paths = [] ->
      __init__ disk paths = Raise IOError_no_camera_config)
  /\ ((exists c1 c2,
          In c1 (configs_read disk paths)
          /\ In c2 (configs_read disk paths)
          /\ configuration_id c1 <> configuration_id c2) ->
      __init__ disk paths = Raise IOError_multiple_run_ids)
  /\ (forall c rest,
         configs_read disk paths = c :: rest ->
         (forall c', In c' rest ->
                     configuration_id c' = configuration_id c) ->
         exists mf, __init__ disk paths = Ok mf /\ camera_config mf = c).
Proof.
  intros Hne.
  destruct (init_result disk paths Hne) as (tb & Hin & Hhd & Einit).
  assert (Hnone : configs_read disk paths = [] ->
                  __init__ disk paths = Raise IOError_no_camera_config).
  { intros Hnil. rewrite Einit.
    destruct ((1 <? length (run_ids tb))%nat) eqn:E.
    - apply run_ids_two in E as (c1 & _ & H1 & _).
      apply Hin in H1. rewrite Hnil in H1. destruct H1.
    - rewrite Hnil in Hhd.
      destruct (values (_camera_config tb)); [reflexivity | discriminate]. }
  split; [|split; [exact Hnone|split]].
  - intros Hno. apply Hnone. unfold configs_read.
    clear - Hno. induction paths as [|p ps IH]; [reflexivity|]. simpl.
    rewrite IH by (intros q Hq; apply Hno; now right).
    unfold config_read.
    destruct (stored_events (disk p)); [reflexivity|].
    destruct (Hno p (or_introl eq_refl)) as [-> | ->]; reflexivity.
  - intros (c1 & c2 & H1 & H2 & Hd). rewrite Einit.
    replace ((1 <? length (run_ids tb))%nat) with true; [reflexivity|].
    symmetry. apply run_ids_two. exists c1, c2.
    split; [now apply Hin|]. split; [now apply Hin | exact Hd].
  - intros c rest Hc Hsame. rewrite Einit.
    destruct ((1 <? length (run_ids tb))%nat) eqn:E.
    + apply run_ids_two in E as (c1 & c2 & H1 & H2 & Hd).
      apply Hin in H1, H2. rewrite Hc in H1, H2. exfalso. apply Hd.
      destruct H1 as [<-|H1], H2 as [<-|H2];
        rewrite ?(Hsame _ H1), ?(Hsame _ H2); reflexivity.
    + rewrite Hc in Hhd.
      destruct (values (_camera_config tb)) as [|c0 r]; [discriminate|].
      simpl in Hhd. injection Hhd as ->. eexists. split; reflexivity.
Qed.

Lemma init_configuration_errors_witness :
  exists mf,
    __init__ two_file_run ["a"%string; "b"%string] = Ok mf
    /\ camera_config mf = mkCameraConfig 2008 0.
Proof.
  apply (proj2 (proj2 (proj2
           (init_configuration_errors two_file_run ["a"%string; "b"%string]
              ltac:(discriminate))))
           (mkCameraConfig 2008 0) [mkCameraConfig 2008 1]).
  - reflexivity.
  - intros c' [<-|[]]. reflexivity.
Defined.

(** ** The merge *)

Lemma min_item_spec (items : list (string * Event)) :
  forall best,
    In (min_item best items) (best :: items)
    /\ forall x, In x (best :: items) ->
                 le_id (snd (min_item best items)) (snd x).
Proof.
  unfold le_id.
  induction items as [|item items IH]; intros best; simpl.
  - split; [now left|]. intros x [<-|[]]. lia.
  - destruct (event_id (snd item) <? event_id (snd best)) eqn:E.
    + apply Z.ltb_lt in E. destruct (IH item) as [Hin Hmin]. split.
      * simpl in Hin. tauto.
      * intros x [<-|Hx].
        -- specialize (Hmin item (or_introl eq_refl)). lia.
        -- apply Hmin. exact Hx.
    + apply Z.ltb_ge in E. destruct (IH best) as [Hin Hmin]. split.
      * simpl in Hin. tauto.
      * intros x [<-|[<-|Hx]].
        -- apply Hmin. now left.
        -- specialize (Hmin best (or_introl eq_refl)). lia.
        -- apply Hmin. now right.
Qed.

Section DictSplit.
Context {V : Type}.

Lemma keys_app (d1 d2 : list (string * V)) :
  keys (d1 ++ d2) = keys d1 ++ keys d2.
Proof. apply map_app. Qed.

Lemma dict_get_middle (d1 d2 : list (string * V)) (k : string) (v : V) :
  ~ In k (keys d1) -> dict_get (d1 ++ (k, v) :: d2) k = Some v.
Proof.
  induction d1 as [|[k0 v0] d1 IH]; simpl; intros Hn.
  - now rewrite String.eqb_refl.
  - destruct (String.eqb_spec k0 k) as [->|H0]; [tauto|]. apply IH. tauto.
Qed.

Lemma dict_set_middle (d1 d2 : list (string * V)) (k : string) (v v' : V) :
  ~ In k (keys d1) ->
  dict_set (d1 ++ (k, v) :: d2) k v' = d1 ++ (k, v') :: d2.
Proof.
  induction d1 as [|[k0 v0] d1 IH]; simpl; intros Hn.
  - now rewrite String.eqb_refl.
  - destruct (String.eqb_spec k0 k) as [->|H0]; [tauto|].
    rewrite IH; tauto.
Qed.

Lemma dict_del_middle (d1 d2 : list (string * V)) (k : string) (v : V) :
  ~ In k (keys d1) -> dict_del (d1 ++ (k, v) :: d2) k = d1 ++ d2.
Proof.
  induction d1 as [|[k0 v0] d1 IH]; simpl; intros Hn.
  - now rewrite String.eqb_refl.
  - destruct (String.eqb_spec k0 k) as [->|H0]; [tauto|].
    rewrite IH; tauto.
Qed.

End DictSplit.

Lemma flat_map_agree {A B : Type} (f g : A -> list B) (l : list A) :
  (forall a, In a l -> f a = g a) -> flat_map f l = flat_map g l.
Proof.
  induction l as [|a l IH]; intros H; simpl; [reflexivity|].
  rewrite (H a) by now left. rewrite IH; [reflexivity|].
  intros b Hb. apply H. now right.
Qed.

Lemma rows_of_other (tb : Tables) (file' : list (string * File))
    (ev' : list (string * Event)) (k p : string) (f : File) :
  file' = dict_set (_file tb) k f -> p <> k ->
  rows_of (mkTables file' ev' (_events_table tb) (_camera_config tb)) p
  = rows_of tb p.
Proof.
  intros -> Hne. unfold rows_of. simpl. now rewrite dict_get_set_neq.
Qed.

(** One call with a cursor left: the event returned is a pending event of
    least id, and what is pending afterwards is the rest. *)
Lemma next_event_step (mf : t) :
  MergeInv (tables mf) -> _events (tables mf) <> [] ->
  exists e mf',
    next_event mf = Ok (e, mf')
    /\ MergeInv (tables mf')
    /\ Permutation (pending (tables mf)) (e :: pending (tables mf'))
    /\ (forall x, In x (values (_events (tables mf))) -> le_id e x)
    /\ (streams_sorted (tables mf) -> streams_sorted (tables mf')).
Proof.
  destruct mf as [tb cfg]. cbn [tables]. intros [Hnd Hfile] Hne.
  unfold next_event. cbn [tables camera_config].
  destruct (_events tb) as [|first others] eqn:Eev; [congruence|].
  destruct (min_item_spec others first) as [Hin Hmin].
  destruct (min_item first others) as [k e] eqn:Emin. cbn [fst snd] in *.
  rewrite <- Eev in *. clear Emin Eev first others Hne.
  destruct (in_split _ _ Hin) as (d1 & d2 & Ed).
  assert (Hk1 : ~ In k (keys d1) /\ ~ In k (keys d2)).
  { rewrite Ed, keys_app in Hnd. simpl in Hnd.
    apply NoDup_remove_2 in Hnd. rewrite in_app_iff in Hnd. tauto. }
  destruct Hk1 as [Hk1 Hk2].
  assert (Hget : dict_get (_events tb) k = Some e)
    by (rewrite Ed; now apply dict_get_middle).
  destruct (Hfile k) as [f Ef].
  { rewrite Ed, keys_app, in_app_iff. right. now left. }
  rewrite Hget, Ef.
  assert (Hrows : rows_of tb k = rows_left (Events f))
    by (unfold rows_of; now rewrite Ef).
  assert (Hothers : forall item, In item d1 \/ In item d2 -> fst item <> k).
  { intros [p x] Hor. simpl. intros ->.
    destruct Hor as [H|H]; [apply Hk1 | apply Hk2];
      apply in_map_iff; exists (k, x); auto. }
  assert (Hleast : forall x, In x (values (_events tb)) -> le_id e x).
  { intros x Hx. apply in_map_iff in Hx as (item & <- & Hitem).
    apply (Hmin item Hitem). }
  unfold next. destruct (rows_left (Events f)) as [|ev rest] eqn:Erows.
  - (* the input is exhausted: its cursor is deleted *)
    eexists. eexists. split; [reflexivity|]. cbn [tables].
    assert (Edel : dict_del (_events tb) k = d1 ++ d2)
      by (rewrite Ed; now apply dict_del_middle).
    split; [|split; [|split; [exact Hleast|]]].
    + split; cbn [_events _file].
      * rewrite Edel, keys_app. rewrite Ed, keys_app in Hnd. simpl in Hnd.
        now apply NoDup_remove_1 in Hnd.
      * intros p Hp. apply Hfile. rewrite Edel in Hp.
        rewrite Ed, keys_app, in_app_iff. rewrite keys_app, in_app_iff in Hp.
        simpl. tauto.
    + unfold pending. cbn [_events]. rewrite Edel, Ed.
      rewrite !flat_map_app. cbn [flat_map fst snd].
      rewrite Hrows. cbn [app].
      unfold rows_of. cbn [_file].
      apply Permutation_sym, Permutation_middle.
    + intros Hs p x Hx. cbn [_events] in Hx. rewrite Edel in Hx.
      unfold rows_of at 1. cbn [_file]. fold (rows_of tb p).
      apply Hs. rewrite Ed. apply in_app_iff. apply in_app_iff in Hx.
      simpl. tauto.
  - (* the cursor moves to the next row of the input *)
    eexists. eexists. split; [reflexivity|]. cbn [tables].
    assert (Eset : dict_set (_events tb) k ev = d1 ++ (k, ev) :: d2)
      by (rewrite Ed; now apply dict_set_middle).
    set (f' := mkFile (mkTable rest (n_rows (Events f))) (CameraConfig_ f)).
    set (tb' := mkTables (dict_set (_file tb) k f')
                         (dict_set (_events tb) k ev)
                         (_events_table tb) (_camera_config tb)).
    assert (Hk' : rows_of tb' k = rest).
    { unfold rows_of, tb'. cbn [_file]. now rewrite dict_get_set_eq. }
    assert (Ho' : forall p, p <> k -> rows_of tb' p = rows_of tb p).
    { intros p Hp. unfold tb'. now apply (rows_of_other tb _ _ k p f'). }
    split; [|split; [|split; [exact Hleast|]]].
    + unfold tb'. split; cbn [_events _file].
      * rewrite Eset, keys_app. rewrite Ed, keys_app in Hnd. exact Hnd.
      * intros p Hp.
        destruct (String.eqb_spec p k) as [->|Hpk].
        -- exists f'. apply dict_get_set_eq.
        -- rewrite dict_get_set_neq by exact Hpk. apply Hfile.
           rewrite Eset in Hp. rewrite Ed, keys_app, in_app_iff.
           rewrite keys_app, in_app_iff in Hp. exact Hp.
    + unfold pending. fold tb'. replace (_events tb') with (d1 ++ (k, ev) :: d2)
        by (unfold tb'; cbn [_events]; now rewrite Eset).
      rewrite Ed, !flat_map_app. cbn [flat_map fst snd].
      rewrite Hrows, Hk'.
      rewrite (flat_map_agree
                 (fun item => snd item :: rows_of tb' (fst item))
                 (fun item => snd item :: rows_of tb (fst item)) d1)
        by (intros item Hi; rewrite Ho'; auto).
      rewrite (flat_map_agree
                 (fun item => snd item :: rows_of tb' (fst item))
                 (fun item => snd item :: rows_of tb (fst item)) d2)
        by (intros item Hi; rewrite Ho'; auto).
      cbn [app]. apply Permutation_sym.
      apply (Permutation_middle _ (ev :: rest ++ _) e).
    + intros Hs p x Hx. fold tb'.
      replace (_events tb') with (d1 ++ (k, ev) :: d2) in Hx
        by (unfold tb'; cbn [_events]; now rewrite Eset).
      destruct (String.eqb_spec p k) as [->|Hpk].
      * assert (x = ev).
        { apply in_app_iff in Hx as [Hx|[Hx|Hx]].
          - exfalso. apply Hk1. apply in_map_iff. exists (k, x). auto.
          - congruence.
          - exfalso. apply Hk2. apply in_map_iff. exists (k, x). auto. }
        subst x. rewrite Hk'.
        specialize (Hs k e Hin). rewrite Hrows in Hs.
        now inversion Hs.
      * rewrite Ho' by exact Hpk. apply Hs. rewrite Ed.
        apply in_app_iff. apply in_app_iff in Hx as [Hx|[Hx|Hx]];
          [tauto | congruence | simpl; tauto].
Qed.

Lemma le_id_trans (a b c : Event) : le_id a b -> le_id b c -> le_id a c.
Proof. unfold le_id. lia. Qed.

Lemma pending_least (tb : Tables) (e : Event) :
  streams_sorted tb ->
  (forall x, In x (values (_events tb)) -> le_id e x) ->
  forall x, In x (pending tb) -> le_id e x.
Proof.
  intros Hs Hmin x Hx. unfold pending in Hx.
  apply in_flat_map in Hx as ([p h] & Hitem & Hx). cbn [fst snd] in Hx.
  assert (Hh : le_id e h).
  { apply Hmin. apply in_map_iff. exists (p, h). auto. }
  destruct Hx as [<-|Hx]; [exact Hh|].
  specialize (Hs p h Hitem). inversion Hs as [|? ? _ Hall]; subst.
  rewrite Forall_forall in Hall. eapply le_id_trans; eauto.
Qed.

Lemma pending_nil (tb : Tables) : pending tb = [] -> _events tb = [].
Proof.
  unfold pending. destruct (_events tb); [reflexivity | discriminate].
Qed.

(** As many calls as there are pending events return them all, in
    ascending order of event id; the next call raises StopIteration. *)
Lemma take_all (n : nat) :
  forall mf,
    MergeInv (tables mf) -> streams_sorted (tables mf) ->
    length (pending (tables mf)) = n ->
    exists out mf_end,
      take n mf = (out, mf_end)
      /\ length out = n
      /\ Permutation out (pending (tables mf))
      /\ StronglySorted le_id out
      /\ next_event mf_end = Raise StopIteration.
Proof.
  induction n as [|n IH]; intros mf Hinv Hs Hlen.
  - exists [], mf. split; [reflexivity|]. split; [reflexivity|].
    apply length_zero_iff_nil in Hlen.
    split; [rewrite Hlen; constructor|]. split; [constructor|].
    unfold next_event. now rewrite (pending_nil _ Hlen).
  - assert (Hne : _events (tables mf) <> []).
    { intros E. unfold pending in Hlen. rewrite E in Hlen. discriminate. }
    destruct (next_event_step mf Hinv Hne)
      as (e & mf' & E & Hinv' & Hperm & Hleast & Hs').
    specialize (Hs' Hs).
    assert (Hlen' : length (pending (tables mf')) = n).
    { apply Permutation_length in Hperm. simpl in Hperm. lia. }
    destruct (IH mf' Hinv' Hs' Hlen') as (out & mf_end & Et & Lo & Po & So & Stop).
    exists (e :: out), mf_end. cbn [take]. rewrite E, Et.
    split; [reflexivity|]. split; [simpl; lia|].
    split; [|split; [|exact Stop]].
    + rewrite Hperm. now constructor.
    + constructor; [exact So|]. apply Forall_forall. intros x Hx.
      apply (pending_least (tables mf) e Hs Hleast).
      apply (Permutation_in _ (Permutation_sym Hperm)). right.
      apply (Permutation_in _ Po). exact Hx.
Qed.

(** *** The cursors after construction *)

Lemma keys_first_cursors (disk : string -> FileContent) (l : list string)
    (p : string) :
  In p (keys (flat_map (first_cursor disk) l)) -> In p l.
Proof.
  unfold keys. rewrite in_map_iff. intros ([k e] & <- & H).
  apply in_flat_map in H as (q & Hq & H). unfold first_cursor in H.
  destruct (stored_events (disk q)); [destruct H|].
  destruct H as [[= <- <-]|[]]. exact Hq.
Qed.

Lemma init_path_opened (disk : string -> FileContent) (tb : Tables)
    (processed : list string) (path : string) :
  ~ In path processed ->
  Opened disk tb processed ->
  Opened disk (init_path disk tb path) (processed ++ [path]).
Proof.
  intros Hfresh (Hkf & Hkt & Hfiles & Hev).
  assert (Hf1 : ~ In path (keys (_file tb))) by now rewrite Hkf.
  assert (Hf2 : ~ In path (keys (_events_table tb))) by now rewrite Hkt.
  assert (Hf3 : ~ In path (keys (_events tb))).
  { rewrite Hev. intros H. apply keys_first_cursors in H. auto. }
  assert (Hshape : exists f,
             _file (init_path disk tb path) = _file tb ++ [(path, f)]
             /\ n_rows (Events f) = length (stored_events (disk path))
             /\ rows_left (Events f) = tl (stored_events (disk path))
             /\ _events_table (init_path disk tb path)
                = _events_table tb ++ [(path, tt)]
             /\ _events (init_path disk tb path)
                = _events tb ++ first_cursor disk path).
  { unfold init_path, first_cursor, open_file, next, table_of.
    cbn [Events CameraConfig_ rows_left n_rows _file _events _events_table
         _camera_config].
    rewrite (dict_set_fresh (_file tb)) by exact Hf1.
    rewrite (dict_set_fresh (_events_table tb)) by exact Hf2.
    destruct (stored_events (disk path)) as [|e es].
    - eexists. cbn [_file _events _events_table].
      rewrite app_nil_r. repeat split; reflexivity.
    - cbn [_file _events _events_table _camera_config].
      rewrite (dict_set_last (_file tb)) by exact Hf1.
      rewrite (dict_set_fresh (_events tb)) by exact Hf3.
      destruct (stored_camera_config (disk path)) as [[|c cs]|];
        cbn [option_map rows_left _file _events _events_table];
        try rewrite (dict_set_last (_file tb)) by exact Hf1;
        eexists; repeat split; reflexivity. }
  destruct Hshape as (f & Ef & Hn & Hr & Et & Ee).
  split; [|split; [|split]].
  - rewrite Ef, keys_app, Hkf. reflexivity.
  - rewrite Et, keys_app, Hkt. reflexivity.
  - intros p Hp. rewrite Ef. apply in_app_iff in Hp as [Hp|[<-|[]]].
    + rewrite dict_get_app_other by (intros ->; auto). apply Hfiles, Hp.
    + exists f. split; [now apply dict_get_last | auto].
  - rewrite Ee, Hev, flat_map_app. simpl. now rewrite app_nil_r.
Qed.

Lemma init_paths_opened (disk : string -> FileContent) (paths : list string) :
  forall tb processed,
    NoDup (processed ++ paths) ->
    Opened disk tb processed ->
    Opened disk (fold_left (init_path disk) paths tb) (processed ++ paths).
Proof.
  induction paths as [|p paths IH]; intros tb processed Hnd Hop; simpl.
  - now rewrite app_nil_r.
  - replace (processed ++ p :: paths) with ((processed ++ [p]) ++ paths)
      in * by (rewrite <- app_assoc; reflexivity).
    apply IH; [exact Hnd|].
    apply init_path_opened; [|exact Hop].
    rewrite <- app_assoc in Hnd. simpl in Hnd.
    apply NoDup_remove_2 in Hnd. rewrite in_app_iff in Hnd. tauto.
Qed.

Lemma NoDup_first_cursors (disk : string -> FileContent) (l : list string) :
  NoDup l -> NoDup (keys (flat_map (first_cursor disk) l)).
Proof.
  induction 1 as [|p l Hp Hnd IH]; simpl; [constructor|].
  rewrite keys_app. unfold first_cursor at 1.
  destruct (stored_events (disk p)); simpl; [exact IH|].
  constructor; [|exact IH]. intros H. apply keys_first_cursors in H. auto.
Qed.

Lemma opened_ready (disk : string -> FileContent) (tb : Tables)
    (paths : list string) :
  NoDup paths -> Opened disk tb paths ->
  MergeInv tb
  /\ pending tb = concat (map (fun p => stored_events (disk p)) paths)
  /\ ((forall p, In p paths ->
                 StronglySorted le_id (stored_events (disk p))) ->
      streams_sorted tb)
  /\ list_sum (map (fun path =>
                      match dict_get (_file tb) path with
                      | Some f => n_rows (Events f)
                      | None => O
                      end) (keys (_events_table tb)))
     = list_sum (map (fun p => length (stored_events (disk p))) paths).
Proof.
  intros Hnd (Hkf & Hkt & Hfiles & Hev).
  assert (Hrows : forall p, In p paths ->
                            rows_of tb p = tl (stored_events (disk p))).
  { intros p Hp. destruct (Hfiles p Hp) as (f & Ef & _ & Hr).
    unfold rows_of. now rewrite Ef. }
  split; [|split; [|split]].
  - split.
    + rewrite Hev. now apply NoDup_first_cursors.
    + intros p Hp. rewrite Hev in Hp. apply keys_first_cursors in Hp.
      destruct (Hfiles p Hp) as (f & Ef & _). eauto.
  - unfold pending. rewrite Hev, <- flat_map_concat_map.
    clear Hkf Hkt Hev Hnd. induction paths as [|p paths IH]; [reflexivity|].
    simpl. rewrite flat_map_app.
    rewrite IH by (intros; try apply Hfiles; try apply Hrows; now right).
    f_equal. unfold first_cursor.
    destruct (stored_events (disk p)) as [|e es] eqn:E; [reflexivity|].
    simpl. rewrite Hrows by now left. rewrite E. simpl.
    now rewrite app_nil_r.
  - intros Hsorted p e Hin. rewrite Hev in Hin.
    apply in_flat_map in Hin as (q & Hq & Hin). unfold first_cursor in Hin.
    destruct (stored_events (disk q)) as [|e0 es] eqn:E; [destruct Hin|].
    destruct Hin as [[= <- <-]|[]].
    rewrite Hrows by exact Hq. rewrite E. simpl.
    specialize (Hsorted q Hq). now rewrite E in Hsorted.
  - rewrite Hkt. clear Hkf Hkt Hev Hnd Hrows.
    induction paths as [|p paths IH]; [reflexivity|]. simpl.
    rewrite IH by (intros; apply Hfiles; now right).
    destruct (Hfiles p (or_introl eq_refl)) as (f & Ef & Hn & _).
    now rewrite Ef, Hn.
Qed.

Lemma init_tables (disk : string -> FileContent) (paths : list string)
    (mf : t) :
  __init__ disk paths = Ok mf ->
  paths <> []
  /\ tables mf = fold_left (init_path disk) paths (mkTables [] [] [] []).
Proof.
  unfold __init__. destruct paths as [|p ps]; [discriminate|].
  destruct (1 <? _)%nat; [discriminate|].
  destruct (values _); [discriminate|].
  intros [= <-]. split; [discriminate | reflexivity].
Qed.

(** C2.  For distinct input paths whose files hold their events in
    ascending event_id order, a constructed merger reports as its length
    the sum of the lengths of the event tables, and that many calls of
    next_event return exactly the events of all inputs, each once, in
    ascending event_id order, whichever inputs run out first; the call
    after them raises StopIteration. *)
Theorem multifiles_merge (disk : string -> FileContent)
    (paths : list string) (mf : t) :
  NoDup paths ->
  (forall p, In p paths -> Sorted le_id (stored_events (disk p))) ->
  __init__ disk paths = Ok mf ->
  (1 <= length paths)%nat
  /\ __len__ mf
     = list_sum (map (fun p => length (stored_events (disk p))) paths)
  /\ exists out mf_end,
       take (__len__ mf) mf = (out, mf_end)
       /\ length out = __len__ mf
       /\ Permutation out
            (concat (map (fun p => stored_events (disk p)) paths))
       /\ StronglySorted le_id out
       /\ next_event mf_end = Raise StopIteration.
Proof.
  intros Hnd Hsorted Hinit.
  destruct (init_tables disk paths mf Hinit) as [Hne Etb].
  assert (Hop : Opened disk (tables mf) paths).
  { rewrite Etb. apply (init_paths_opened disk paths _ []); [exact Hnd|].
    repeat split; try reflexivity. intros p []. }
  destruct (opened_ready disk (tables mf) paths Hnd Hop)
    as (Hinv & Hpend & Hss & Hlen).
  assert (Hs : streams_sorted (tables mf)).
  { apply Hss. intros p Hp. apply Sorted_StronglySorted.
    - intros a b c. apply le_id_trans.
    - apply Hsorted, Hp. }
  split; [destruct paths; [congruence | simpl; lia]|].
  split; [exact Hlen|].
  assert (Hcount : length (pending (tables mf)) = __len__ mf).
  { unfold __len__. rewrite Hlen, Hpend, length_concat, map_map.
    reflexivity. }
  destruct (take_all (__len__ mf) mf Hinv Hs Hcount)
    as (out & mf_end & Et & Lo & Po & So & Stop).
  exists out, mf_end. rewrite <- Hpend. auto.
Qed.

Lemma multifiles_merge_witness :
  exists mf,
    __init__ two_file_run ["a"%string; "b"%string] = Ok mf
    /\ __len__ mf = 6%nat
    /\ exists out mf_end,
         take (__len__ mf) mf = (out, mf_end)
         /\ length out = __len__ mf
         /\ Permutation out
              (concat (map (fun p => stored_events (two_file_run p))
                           ["a"%string; "b"%string]))
         /\ StronglySorted le_id out
         /\ next_event mf_end = Raise StopIteration.
Proof.
  eexists. split; [reflexivity|].
  apply (proj2 (multifiles_merge two_file_run ["a"%string; "b"%string] _
                  ltac:(repeat constructor; simpl; intuition discriminate)
                  ltac:(intros p [<-|[<-|[]]]; repeat constructor;
                        unfold le_id; simpl; lia)
                  eq_refl)).
Defined.

(** The scenario of the specification: inputs with event ids 1, 3, 5 and
    2, 4, 6 are merged into 1, 2, 3, 4, 5, 6. *)
Lemma two_file_run_merged :
  exists mf,
    __init__ two_file_run ["a"%string; "b"%string] = Ok mf
    /\ map event_id (fst (take 6 mf)) = [1; 2; 3; 4; 5; 6]
    /\ next_event (snd (take 6 mf)) = Raise StopIteration.
Proof. eexists. split; [reflexivity|]. split; reflexivity. Qed.

End MultiFilesFacts.


(** * Properties of the further parts *)

(** ** The capacitors stamped by one readout *)

Lemma stamp_exact (t : Z) (caps : list Z) :
  forall l,
    length l = 4096%nat ->
    exists l',
      stamp t caps l = Some l'
      /\ length l' = 4096%nat
      /\ forall c, 0 <= c < 4096 ->
           getitem l' c
           = if existsb (fun cap => cap mod N_CAPACITORS_PIXEL =? c) caps
             then Some t else getitem l c.
Proof.
  unfold stamp.
  induction caps as [|cap caps IH]; intros l Hlen; cbn [for_each existsb].
  - exists l. auto.
  - assert (Hc : 0 <= cap mod N_CAPACITORS_PIXEL < Z.of_nat (length l)).
    { rewrite Hlen. change N_CAPACITORS_PIXEL with 4096.
      Z.div_mod_to_equations. lia. }
    rewrite setitem_nonneg by exact Hc. cbn [bind].
    destruct (IH (update l (Z.to_nat (cap mod N_CAPACITORS_PIXEL)) t))
      as (l' & E & L & H).
    { now rewrite length_update. }
    exists l'. split; [exact E|]. split; [exact L|].
    intros c Hcr. rewrite (H c Hcr).
    destruct (existsb _ caps); [now rewrite orb_true_r|].
    rewrite orb_false_r.
    destruct (Z.eqb_spec (cap mod N_CAPACITORS_PIXEL) c) as [<-|Hne].
    + apply getitem_update_eq. exact Hc.
    + apply getitem_update_neq; lia.
Qed.

Lemma existsb_range2_window (start stop c : Z) :
  0 <= stop - start <= 4096 -> 0 <= c < 4096 ->
  existsb (fun cap => cap mod N_CAPACITORS_PIXEL =? c) (range2 start stop)
  = true
  <-> in_ring_window start (stop - start) c.
Proof.
  intros Hlen Hc. unfold in_ring_window. change N_CAPACITORS_PIXEL with 4096.
  rewrite existsb_exists. split.
  - intros (cap & Hin & E). apply in_range2 in Hin. apply Z.eqb_eq in E.
    Z.div_mod_to_equations. lia.
  - intros H.
    exists (start + (c - start) mod 4096). split.
    + unfold range2. apply in_map_iff.
      exists (Z.to_nat ((c - start) mod 4096)). split.
      * rewrite Z2Nat.id; [reflexivity|]. Z.div_mod_to_equations. lia.
      * apply in_seq. split; [lia|].
        assert (0 <= (c - start) mod 4096) by (Z.div_mod_to_equations; lia).
        lia.
    + apply Z.eqb_eq. Z.div_mod_to_equations. lia.
Qed.

Lemma existsb_window_offsets (first_capacitor a b c : Z) :
  0 <= b - a <= 4096 -> 0 <= c < 4096 ->
  existsb (fun cap => cap mod N_CAPACITORS_PIXEL =? c)
          (map (fun sample => first_capacitor + sample) (range2 a b))
  = true
  <-> in_ring_window (first_capacitor + a) (b - a) c.
Proof.
  intros Hlen Hc.
  replace (b - a) with (first_capacitor + b - (first_capacitor + a)) by lia.
  rewrite <- (existsb_range2_window (first_capacitor + a) (first_capacitor + b))
    by lia.
  rewrite !existsb_exists. split.
  - intros (cap & Hin & E). exists cap. split; [|exact E].
    apply in_map_iff in Hin as (s & <- & Hs). apply in_range2 in Hs.
    unfold range2. apply in_map_iff.
    exists (Z.to_nat (s - a)). split; [lia|]. apply in_seq. lia.
  - intros (cap & Hin & E). exists cap. split; [|exact E].
    apply in_range2 in Hin. apply in_map_iff.
    exists (cap - first_capacitor). split; [lia|].
    unfold range2. apply in_map_iff.
    exists (Z.to_nat (cap - first_capacitor - a)). split; [lia|].
    apply in_seq. lia.
Qed.

Lemma window_bool (caps : list Z) (c : Z) (P : Prop) (t : Z)
    (old : option Z) :
  (existsb (fun cap => cap mod N_CAPACITORS_PIXEL =? c) caps = true <-> P) ->
  (P -> (if existsb (fun cap => cap mod N_CAPACITORS_PIXEL =? c) caps
         then Some t else old) = Some t)
  /\ (~ P -> (if existsb (fun cap => cap mod N_CAPACITORS_PIXEL =? c) caps
              then Some t else old) = old).
Proof.
  intros H. destruct (existsb _ caps).
  - split; [reflexivity|]. intros Hn. exfalso. apply Hn, H. reflexivity.
  - split; [|reflexivity]. intros HP. apply H in HP. discriminate.
Qed.

(** X1.  [update_last_readout_time] stamps exactly the capacitors of
    [stamped]: the 40 read out, taken modulo 4096; for an even pixel of the
    module also 12 capacitors from fc + 1024 on when 767 < fc mod 1024 <
    1013, or the capacitors from fc + 1024 to the end of that channel (at
    most 11) when fc mod 1024 >= 1013.  Every other entry keeps its
    value. *)
Theorem update_last_readout_time_stamps (pixel_in_module first_capacitor
    time_now : Z) (last_readout_time : list Z) :
  length last_readout_time = 4096%nat ->
  exists l',
    update_last_readout_time pixel_in_module first_capacitor time_now
      last_readout_time = Some l'
    /\ length l' = 4096%nat
    /\ forall c, 0 <= c < 4096 ->
         (stamped pixel_in_module first_capacitor c ->
          getitem l' c = Some time_now)
         /\ (~ stamped pixel_in_module first_capacitor c ->
             getitem l' c = getitem last_readout_time c).
Proof.
  intros Hlen. unfold update_last_readout_time.
  destruct (stamp_exact time_now
              (map (fun sample => first_capacitor + sample)
                   (range N_SAMPLES)) _ Hlen) as (l1 & E1 & L1 & H1).
  rewrite E1. cbn [bind].
  assert (W1 : forall c, 0 <= c < 4096 ->
             (in_ring_window first_capacitor 40 c ->
              getitem l1 c = Some time_now)
             /\ (~ in_ring_window first_capacitor 40 c ->
                 getitem l1 c = getitem last_readout_time c)).
  { intros c Hc. rewrite (H1 c Hc). apply window_bool.
    unfold range, N_SAMPLES.
    rewrite (existsb_window_offsets first_capacitor 0 40 c) by lia.
    now replace (first_capacitor + 0) with first_capacitor by lia. }
  unfold N_CAPACITORS_CHANNEL. cbv zeta.
  destruct (Z.eqb_spec (pixel_in_module mod 2) 0) as [Heven|Hodd].
  2:{ exists l1. split; [reflexivity|]. split; [exact L1|].
      intros c Hc. destruct (W1 c Hc) as [Wa Wb]. unfold stamped.
      split; [intros [H|[H|H]]; [auto | lia | lia]|].
      intros Hn. apply Wb. tauto. }
  destruct ((767 <? first_capacitor mod 1024)
            && (first_capacitor mod 1024 <? 1013)) eqn:Eq.
  - apply andb_prop in Eq as [Ea Eb].
    apply Z.ltb_lt in Ea, Eb.
    destruct (stamp_exact time_now
                (range2 (first_capacitor + 1024) (first_capacitor + 1024 + 12))
                l1 L1) as (l2 & E2 & L2 & H2).
    rewrite E2. exists l2. split; [reflexivity|]. split; [exact L2|].
    intros c Hc. rewrite (H2 c Hc). destruct (W1 c Hc) as [Wa Wb].
    destruct (window_bool
                (range2 (first_capacitor + 1024) (first_capacitor + 1024 + 12))
                c (in_ring_window (first_capacitor + 1024) 12 c) time_now
                (getitem l1 c)) as [Xa Xb].
    { rewrite existsb_range2_window by lia.
      now replace (first_capacitor + 1024 + 12 - (first_capacitor + 1024))
        with 12 by lia. }
    unfold stamped. split.
    + intros [H|[(_ & _ & H)|(_ & H & _)]]; [|auto|lia].
      destruct (existsb _ _); [reflexivity | auto].
    + intros Hn. rewrite Xb by tauto. apply Wb. tauto.
  - assert (Hq : ~ 767 < first_capacitor mod 1024 < 1013).
    { intros [Ha Hb]. apply Z.ltb_lt in Ha, Hb. rewrite Ha, Hb in Eq.
      discriminate. }
    destruct (Z.leb_spec 1013 (first_capacitor mod 1024)) as [Hlast|Hnot].
    + destruct (stamp_exact time_now
                  (range2 (first_capacitor + 1024)
                          ((first_capacitor / 1024 + 2) * 1024))
                  l1 L1) as (l2 & E2 & L2 & H2).
      rewrite E2. exists l2. split; [reflexivity|]. split; [exact L2|].
      intros c Hc. rewrite (H2 c Hc). destruct (W1 c Hc) as [Wa Wb].
      destruct (window_bool
                  (range2 (first_capacitor + 1024)
                          ((first_capacitor / 1024 + 2) * 1024))
                  c (in_ring_window (first_capacitor + 1024)
                       (1024 - first_capacitor mod 1024) c) time_now
                  (getitem l1 c)) as [Xa Xb].
      { rewrite existsb_range2_window
          by (try assumption; Z.div_mod_to_equations; lia).
        replace ((first_capacitor / 1024 + 2) * 1024
                 - (first_capacitor + 1024))
          with (1024 - first_capacitor mod 1024)
          by (Z.div_mod_to_equations; lia).
        reflexivity. }
      unfold stamped. split.
      * intros [H|[(_ & H & _)|(_ & _ & H)]]; [|lia|auto].
        destruct (existsb _ _); [reflexivity | auto].
      * intros Hn. rewrite Xb by tauto. apply Wb. tauto.
    + exists l1. split; [reflexivity|]. split; [exact L1|].
      intros c Hc. destruct (W1 c Hc) as [Wa Wb]. unfold stamped.
      split; [intros [H|[H|H]]; [auto | lia | lia]|].
      intros Hn. apply Wb. tauto.
Qed.

(** X2.  The old-firmware variant stamps the 40 capacitors from fc - 1 on;
    for an even pixel of the module also 12 capacitors from fc + 1023 on
    when 766 < fc mod 1024 < 1013, or the capacitors from fc + 1024 to the
    end of that channel when fc mod 1024 >= 1013.  Every other entry keeps
    its value. *)
Theorem update_last_readout_time_old_firmware_stamps (pixel_in_module
    first_capacitor time_now : Z) (last_readout_time : list Z) :
  length last_readout_time = 4096%nat ->
  exists l',
    update_last_readout_time_old_firmware pixel_in_module first_capacitor
      time_now last_readout_time = Some l'
    /\ length l' = 4096%nat
    /\ forall c, 0 <= c < 4096 ->
         (stamped_old_firmware pixel_in_module first_capacitor c ->
          getitem l' c = Some time_now)
         /\ (~ stamped_old_firmware pixel_in_module first_capacitor c ->
             getitem l' c = getitem last_readout_time c).
Proof.
  intros Hlen. unfold update_last_readout_time_old_firmware.
  destruct (stamp_exact time_now
              (map (fun sample => first_capacitor + sample)
                   (range2 (-1) (N_SAMPLES - 1))) _ Hlen)
    as (l1 & E1 & L1 & H1).
  rewrite E1. cbn [bind].
  assert (W1 : forall c, 0 <= c < 4096 ->
             (in_ring_window (first_capacitor - 1) 40 c ->
              getitem l1 c = Some time_now)
             /\ (~ in_ring_window (first_capacitor - 1) 40 c ->
                 getitem l1 c = getitem last_readout_time c)).
  { intros c Hc. rewrite (H1 c Hc). apply window_bool.
    unfold N_SAMPLES.
    rewrite (existsb_window_offsets first_capacitor (-1) (40 - 1) c) by lia.
    replace (first_capacitor + -1) with (first_capacitor - 1) by lia.
    reflexivity. }
  unfold N_CAPACITORS_CHANNEL. cbv zeta.
  destruct (Z.eqb_spec (pixel_in_module mod 2) 0) as [Heven|Hodd].
  2:{ exists l1. split; [reflexivity|]. split; [exact L1|].
      intros c Hc. destruct (W1 c Hc) as [Wa Wb]. unfold stamped_old_firmware.
      split; [intros [H|[H|H]]; [auto | lia | lia]|].
      intros Hn. apply Wb. tauto. }
  destruct ((766 <? first_capacitor mod 1024)
            && (first_capacitor mod 1024 <? 1013)) eqn:Eq.
  - apply andb_prop in Eq as [Ea Eb].
    apply Z.ltb_lt in Ea, Eb.
    destruct (stamp_exact time_now
                (range2 (first_capacitor + 1024 - 1)
                        (first_capacitor + 1024 + 11))
                l1 L1) as (l2 & E2 & L2 & H2).
    rewrite E2. exists l2. split; [reflexivity|]. split; [exact L2|].
    intros c Hc. rewrite (H2 c Hc). destruct (W1 c Hc) as [Wa Wb].
    destruct (window_bool
                (range2 (first_capacitor + 1024 - 1)
                        (first_capacitor + 1024 + 11))
                c (in_ring_window (first_capacitor + 1023) 12 c) time_now
                (getitem l1 c)) as [Xa Xb].
    { rewrite existsb_range2_window by lia.
      replace (first_capacitor + 1024 + 11 - (first_capacitor + 1024 - 1))
        with 12 by lia.
      now replace (first_capacitor + 1024 - 1) with (first_capacitor + 1023)
        by lia. }
    unfold stamped_old_firmware. split.
    + intros [H|[(_ & _ & H)|(_ & H & _)]]; [|auto|lia].
      destruct (existsb _ _); [reflexivity | auto].
    + intros Hn. rewrite Xb by tauto. apply Wb. tauto.
  - assert (Hq : ~ 766 < first_capacitor mod 1024 < 1013).
    { intros [Ha Hb]. apply Z.ltb_lt in Ha, Hb. rewrite Ha, Hb in Eq.
      discriminate. }
    destruct (Z.leb_spec 1013 (first_capacitor mod 1024)) as [Hlast|Hnot].
    + destruct (stamp_exact time_now
                  (range2 (first_capacitor + 1024)
                          ((first_capacitor / 1024 + 2) * 1024))
                  l1 L1) as (l2 & E2 & L2 & H2).
      rewrite E2. exists l2. split; [reflexivity|]. split; [exact L2|].
      intros c Hc. rewrite (H2 c Hc). destruct (W1 c Hc) as [Wa Wb].
      destruct (window_bool
                  (range2 (first_capacitor + 1024)
                          ((first_capacitor / 1024 + 2) * 1024))
                  c (in_ring_window (first_capacitor + 1024)
                       (1024 - first_capacitor mod 1024) c) time_now
                  (getitem l1 c)) as [Xa Xb].
      { rewrite existsb_range2_window
          by (try assumption; Z.div_mod_to_equations; lia).
        replace ((first_capacitor / 1024 + 2) * 1024
                 - (first_capacitor + 1024))
          with (1024 - first_capacitor mod 1024)
          by (Z.div_mod_to_equations; lia).
        reflexivity. }
      unfold stamped_old_firmware. split.
      * intros [H|[(_ & H & _)|(_ & _ & H)]]; [|lia|auto].
        destruct (existsb _ _); [reflexivity | auto].
      * intros Hn. rewrite Xb by tauto. apply Wb. tauto.
    + exists l1. split; [reflexivity|]. split; [exact L1|].
      intros c Hc. destruct (W1 c Hc) as [Wa Wb]. unfold stamped_old_firmware.
      split; [intros [H|[H|H]]; [auto | lia | lia]|].
      intros Hn. apply Wb. tauto.
Qed.

Lemma update_last_readout_time_stamps_witness :
  exists l',
    update_last_readout_time 0 800 7 (repeat 0 4096) = Some l'
    /\ length l' = 4096%nat
    /\ forall c, 0 <= c < 4096 ->
         (stamped 0 800 c -> getitem l' c = Some 7)
         /\ (~ stamped 0 800 c -> getitem l' c = getitem (repeat 0 4096) c).
Proof.
  apply (update_last_readout_time_stamps 0 800 7 (repeat 0 4096)).
  reflexivity.
Defined.

Lemma update_last_readout_time_old_firmware_stamps_witness :
  exists l',
    update_last_readout_time_old_firmware 0 800 7 (repeat 0 4096) = Some l'
    /\ length l' = 4096%nat
    /\ forall c, 0 <= c < 4096 ->
         (stamped_old_firmware 0 800 c -> getitem l' c = Some 7)
         /\ (~ stamped_old_firmware 0 800 c ->
             getitem l' c = getitem (repeat 0 4096) c).
Proof.
  apply (update_last_readout_time_old_firmware_stamps 0 800 7
           (repeat 0 4096)).
  reflexivity.
Defined.

(** ** Spike A: how much one pixel can change *)

Lemma spike_window_once (a : Z) :
  (length (filter in_spike_window (quarter_turns a)) <= 1)%nat.
Proof.
  unfold quarter_turns. rewrite range_4.
  cbn [map filter]. unfold in_spike_window.
  destruct ((2 <? (a + 0 * 1024) mod 4096)
            && ((a + 0 * 1024) mod 4096 <? 38)) eqn:E0;
  destruct ((2 <? (a + 1 * 1024) mod 4096)
            && ((a + 1 * 1024) mod 4096 <? 38)) eqn:E1;
  destruct ((2 <? (a + 2 * 1024) mod 4096)
            && ((a + 2 * 1024) mod 4096 <? 38)) eqn:E2;
  destruct ((2 <? (a + 3 * 1024) mod 4096)
            && ((a + 3 * 1024) mod 4096 <? 38)) eqn:E3;
  cbn [length]; try lia; exfalso;
  repeat match goal with
         | H : _ && _ = true |- _ =>
             apply andb_prop in H as [?H ?H]
         | H : (_ <? _) = true |- _ => apply Z.ltb_lt in H
         | H : _ && _ = false |- _ => clear H
         end;
  Z.div_mod_to_equations; lia.
Qed.

Lemma spike_window_once_at (a : Z) :
  (length (filter in_spike_window
             (map (fun k => ((a + k * 1024) mod 4096)%Z) (range 4)))
   <= 1)%nat.
Proof. apply spike_window_once. Qed.

Lemma filter_length_le {A : Type} (f g : A -> bool) (l : list A) :
  (forall x, f x = true -> g x = true) ->
  (length (filter f l) <= length (filter g l))%nat.
Proof.
  intros H. induction l as [|x l IH]; simpl; [lia|].
  destruct (f x) eqn:E.
  - rewrite (H x E). simpl. lia.
  - destruct (g x); simpl; lia.
Qed.

Lemma filter_interleaved {A K : Type} (g : A -> bool) (u v : K -> A)
    (ks : list K) :
  length (filter g (flat_map (fun k => [u k; v k]) ks))
  = (length (filter g (map u ks)) + length (filter g (map v ks)))%nat.
Proof.
  induction ks as [|k ks IH]; [reflexivity|].
  cbn [flat_map map app filter].
  destruct (g (u k)), (g (v k)); cbn [length filter]; rewrite ?IH; lia.
Qed.

Lemma spike_A_candidates_window (old_firmware : bool) (case current_fc
    last_fc : Z) :
  (length (filter in_spike_window
             (map (spike_A_candidate old_firmware case current_fc last_fc)
                  (range 4))) <= 1)%nat.
Proof.
  unfold spike_A_candidate, N_SAMPLES, N_CAPACITORS_PIXEL,
    N_CAPACITORS_CHANNEL.
  destruct old_firmware; destruct (Z.eq_dec case 1) as [->|Hc].
  - rewrite (map_ext _ (fun k => ((1024 - 40 - 2 - last_fc + 4 * 1024
                                   - current_fc + 4 * 1024) + k * 1024)
                                 mod 4096))
      by (intros k; cbv beta iota zeta; f_equal; try reflexivity; lia).
    apply spike_window_once_at.
  - rewrite (map_ext _ (fun k => ((40 - 2 + last_fc - current_fc + 4 * 1024)
                                  + k * 1024) mod 4096)).
    + apply spike_window_once_at.
    + intros k. destruct case as [|[p|p|]|p]; try congruence;
        cbv beta iota zeta; f_equal; try reflexivity; lia.
  - rewrite (map_ext _ (fun k => ((1024 + 1 - 40 - 2 - last_fc + 4 * 1024
                                   - current_fc + 4 * 1024) + k * 1024)
                                 mod 4096))
      by (intros k; cbv beta iota zeta; f_equal; try reflexivity; lia).
    apply spike_window_once_at.
  - rewrite (map_ext _ (fun k => ((40 - 1 + last_fc - current_fc + 4 * 1024)
                                  + k * 1024) mod 4096)).
    + apply spike_window_once_at.
    + intros k. destruct case as [|[p|p|]|p]; try congruence;
        cbv beta iota zeta; f_equal; try reflexivity; lia.
Qed.

Lemma spike_A_qualifying_candidates (old_firmware : bool) (limit current_fc
    last_fc : Z) :
  (length (filter (spike_A_qualifies limit last_fc)
             (spike_A_candidates old_firmware current_fc last_fc)) <= 2)%nat.
Proof.
  pose proof (filter_length_le (spike_A_qualifies limit last_fc)
                in_spike_window
                (spike_A_candidates old_firmware current_fc last_fc)) as H.
  assert (Hq : forall x, spike_A_qualifies limit last_fc x = true ->
                         in_spike_window x = true).
  { intros x. unfold spike_A_qualifies, in_spike_window.
    rewrite !andb_true_iff. tauto. }
  specialize (H Hq). apply (Nat.le_trans _ _ _ H).
  unfold spike_A_candidates. rewrite filter_interleaved.
  apply (Nat.add_le_mono _ 1 _ 1).
  - exact (spike_A_candidates_window old_firmware 1 current_fc last_fc).
  - exact (spike_A_candidates_window old_firmware 2 current_fc last_fc).
Qed.

(** X3.  Whatever the first capacitors of the current and of the previous
    event, each firmware variant interpolates at most two positions of a
    pixel: at most one loop index per case yields a position between 2
    and 38. *)
Theorem spike_A_at_most_two (current_fc last_fc : Z) :
  (length (spike_A_calls current_fc last_fc) <= 2)%nat
  /\ (length (spike_A_calls_old_firmware current_fc last_fc) <= 2)%nat.
Proof.
  rewrite spike_A_calls_filter, spike_A_calls_old_firmware_filter.
  split; apply spike_A_qualifying_candidates.
Qed.

Lemma spike_A_on_waveform_frame (positions : list Z) :
  forall w,
    length w = 40%nat ->
    Forall (fun pos => 2 < pos < 38) positions ->
    exists w',
      fold_left spike_A_on_waveform positions (Some w) = Some w'
      /\ length w' = 40%nat
      /\ forall i, 0 <= i < 3 \/ i = 39 -> getitem w' i = getitem w i.
Proof.
  induction positions as [|p ps IH]; intros w Hlen Hall; cbn [fold_left].
  - exists w. auto.
  - inversion Hall as [|? ? Hp Hps]; subst.
    destruct (getitem_some w (p - 1)) as [wa Ha]; [lia|].
    destruct (getitem_some w (p + 2)) as [wb Hb]; [lia|].
    unfold spike_A_on_waveform at 2. cbn [bind].
    rewrite (interpolate_spike_A_result w p wa wb) by (lia || assumption).
    set (w1 := update (update w (Z.to_nat p) (spike_A_value 0.33 wa wb))
                      (Z.to_nat (p + 1)) (spike_A_value 0.66 wa wb)).
    assert (L1 : length w1 = 40%nat)
      by (unfold w1; now rewrite !length_update).
    destruct (IH w1 L1 Hps) as (w' & E & L & Hf).
    exists w'. split; [exact E|]. split; [exact L|].
    intros i Hi. rewrite (Hf i Hi). unfold w1.
    rewrite getitem_update_neq by (rewrite ?length_update; lia).
    apply getitem_update_neq; lia.
Qed.

(** X4.  On a 40-sample waveform both firmware variants of the spike
    kernel return a 40-sample waveform whose samples 0, 1, 2 and 39 are
    those of the input: only samples 3 to 38 can be interpolated. *)
Theorem spike_A_keeps_boundary_samples (waveform : list R)
    (current_fc last_fc : Z) :
  length waveform = 40%nat ->
  exists w_new w_old,
    interpolate_spikes_pixel waveform current_fc last_fc = Some w_new
    /\ interpolate_spikes_pixel_old_firmware waveform current_fc last_fc
       = Some w_old
    /\ length w_new = 40%nat /\ length w_old = 40%nat
    /\ forall i, 0 <= i < 3 \/ i = 39 ->
         getitem w_new i = getitem waveform i
         /\ getitem w_old i = getitem waveform i.
Proof.
  intros Hlen.
  unfold interpolate_spikes_pixel, interpolate_spikes_pixel_old_firmware.
  rewrite interpolate_spikes_pixel_with_calls,
    interpolate_spikes_pixel_old_firmware_with_calls.
  destruct (spike_A_on_waveform_frame
              (filter (spike_A_qualifies 511 last_fc)
                      (spike_A_candidates false current_fc last_fc))
              waveform Hlen) as (w1 & E1 & L1 & F1).
  { apply Forall_forall. intros p Hp. apply filter_In in Hp as [_ Hp].
    exact (spike_A_qualifies_position _ _ _ Hp). }
  destruct (spike_A_on_waveform_frame
              (filter (spike_A_qualifies 510 last_fc)
                      (spike_A_candidates true current_fc last_fc))
              waveform Hlen) as (w2 & E2 & L2 & F2).
  { apply Forall_forall. intros p Hp. apply filter_In in Hp as [_ Hp].
    exact (spike_A_qualifies_position _ _ _ Hp). }
  exists w1, w2. repeat split; auto.
Qed.

Lemma spike_A_keeps_boundary_samples_witness :
  exists w_new w_old,
    interpolate_spikes_pixel (repeat 5%R 40) 30 1 = Some w_new
    /\ interpolate_spikes_pixel_old_firmware (repeat 5%R 40) 30 1
       = Some w_old
    /\ length w_new = 40%nat /\ length w_old = 40%nat
    /\ forall i, 0 <= i < 3 \/ i = 39 ->
         getitem w_new i = getitem (repeat 5%R 40) i
         /\ getitem w_old i = getitem (repeat 5%R 40) i.
Proof.
  apply (spike_A_keeps_boundary_samples (repeat 5%R 40) 30 1). reflexivity.
Defined.

(** X5.  When the last capacitor of the previous event, fc_prev + 39, is
    odd or lies in the second half of its channel, neither firmware
    variant touches the waveform, whatever the current first capacitor
    and whatever the waveform. *)
Theorem spike_A_noop (waveform : list R) (current_fc last_fc : Z) :
  Z.even (last_fc + 39) = false \/ 511 < (last_fc + 39) mod 1024 ->
  interpolate_spikes_pixel waveform current_fc last_fc = Some waveform
  /\ interpolate_spikes_pixel_old_firmware waveform current_fc last_fc
     = Some waveform.
Proof.
  intros H.
  assert (Hq : forall limit pos, limit <= 511 ->
                 spike_A_qualifies limit last_fc pos = false).
  { intros limit pos Hl. unfold spike_A_qualifies.
    destruct H as [H|H].
    - rewrite H. now rewrite andb_false_r.
    - replace ((last_fc + 39) mod 1024 <=? limit) with false
        by (symmetry; apply Z.leb_gt; lia).
      now rewrite andb_false_r. }
  assert (Hnil : forall limit l, limit <= 511 ->
                   filter (spike_A_qualifies limit last_fc) l = []).
  { intros limit l Hl. induction l as [|x l IH]; [reflexivity|].
    simpl. now rewrite Hq. }
  unfold interpolate_spikes_pixel, interpolate_spikes_pixel_old_firmware.
  rewrite interpolate_spikes_pixel_with_calls,
    interpolate_spikes_pixel_old_firmware_with_calls.
  rewrite !Hnil by lia. split; reflexivity.
Qed.

Lemma spike_A_noop_witness :
  interpolate_spikes_pixel (repeat 5%R 40) 30 2 = Some (repeat 5%R 40)
  /\ interpolate_spikes_pixel_old_firmware (repeat 5%R 40) 30 2
     = Some (repeat 5%R 40).
Proof.
  apply (spike_A_noop (repeat 5%R 40) 30 2). left. reflexivity.
Defined.

(** ** Loops that treat the rows of an array one by one *)

Lemma for_each_ext {St X : Type} (body1 body2 : St -> X -> option St)
    (xs : list X) :
  (forall s x, In x xs -> body1 s x = body2 s x) ->
  forall s, for_each xs body1 s = for_each xs body2 s.
Proof.
  induction xs as [|x xs IH]; intros H s; cbn [for_each]; [reflexivity|].
  rewrite (H s x (or_introl eq_refl)).
  destruct (body2 s x); cbn [bind]; [|reflexivity].
  apply IH. intros s1 x1 Hin. apply H. now right.
Qed.

Lemma Forall_getitem {A : Type} (Q : A -> Prop) (l : list A) (i : Z)
    (x : A) :
  Forall Q l -> getitem l i = Some x -> Q x.
Proof.
  intros HQ H. unfold getitem in H.
  destruct (norm_index (length l) i) as [k|]; [|discriminate].
  cbn [bind] in H. apply nth_error_In in H.
  rewrite Forall_forall in HQ. now apply HQ.
Qed.

Lemma getitem_wrap {A : Type} (l : list A) (i : Z) :
  - Z.of_nat (length l) <= i < Z.of_nat (length l) ->
  getitem l i = getitem l (i mod Z.of_nat (length l)).
Proof.
  intros H. destruct (Z_lt_ge_dec i 0) as [Hneg|Hpos].
  - replace (i mod Z.of_nat (length l)) with (i + Z.of_nat (length l))
      by (rewrite <- (Z_mod_plus_full i 1), Z.mod_small; lia).
    unfold getitem, norm_index.
    replace (0 <=? i) with false by (symmetry; apply Z.leb_gt; lia).
    replace (- Z.of_nat (length l) <=? i) with true
      by (symmetry; apply Z.leb_le; lia).
    replace (i <? 0) with true by (symmetry; apply Z.ltb_lt; lia).
    replace (0 <=? i + Z.of_nat (length l)) with true
      by (symmetry; apply Z.leb_le; lia).
    replace (i + Z.of_nat (length l) <? Z.of_nat (length l)) with true
      by (symmetry; apply Z.ltb_lt; lia).
    reflexivity.
  - now rewrite Z.mod_small by lia.
Qed.

Section Rowwise.
Context {A : Type}.
Variable Q : A -> Prop.

(** One pass over the rows of a one-dimensional array of rows. *)
Lemma rowwise_loop (f : Z -> A -> option A) (n : Z) (a0 : list A) :
    Z.of_nat (length a0) = n -> Forall Q a0 ->
    (forall p x, 0 <= p < n -> Q x -> exists y, f p x = Some y /\ Q y) ->
    exists a',
      for_each (range n)
        (fun a p => x <- getitem a p ;; y <- f p x ;; setitem a p y) a0
      = Some a'
      /\ Z.of_nat (length a') = n /\ Forall Q a'
      /\ forall p, 0 <= p < n ->
           exists x y, getitem a0 p = Some x /\ f p x = Some y
                       /\ getitem a' p = Some y.
  Proof.
    intros Hlen HQ Hf.
    destruct (for_each_range
                (fun i a =>
                   Z.of_nat (length a) = n /\ Forall Q a
                   /\ forall p, 0 <= p < n ->
                        (p < i -> exists x y,
                            getitem a0 p = Some x /\ f p x = Some y
                            /\ getitem a p = Some y)
                        /\ (i <= p -> getitem a p = getitem a0 p))
                (fun a p => x <- getitem a p ;; y <- f p x ;; setitem a p y)
                n a0) as (a' & E & L & HQ' & H).
    - lia.
    - split; [exact Hlen|]. split; [exact HQ|].
      intros p Hp. split; [lia | reflexivity].
    - intros i a Hi (La & Qa & Ha).
      destruct (getitem_some a i) as [x Hx]; [lia|].
      pose proof (Forall_getitem Q a i x Qa Hx) as Qx.
      destruct (Hf i x Hi Qx) as (y & Ey & Qy).
      rewrite Hx. cbn [bind]. rewrite Ey. cbn [bind].
      rewrite setitem_nonneg by lia.
      eexists. split; [reflexivity|].
      split; [now rewrite length_update|].
      split; [now apply Forall_update|].
      intros p Hp. split.
      + intros Hlt. destruct (Z.eq_dec p i) as [->|Hne].
        * exists x, y. split; [|split; [exact Ey|]].
          -- rewrite <- (proj2 (Ha i Hi)) by lia. exact Hx.
          -- apply getitem_update_eq. lia.
        * destruct (proj1 (Ha p Hp)) as (x0 & y0 & E1 & E2 & E3); [lia|].
          exists x0, y0. split; [exact E1|]. split; [exact E2|].
          rewrite getitem_update_neq by lia. exact E3.
      + intros Hle. rewrite getitem_update_neq by lia.
        apply (Ha p Hp). lia.
    - exists a'. split; [exact E|]. split; [exact L|]. split; [exact HQ'|].
      intros p Hp. apply (H p Hp). lia.
  Qed.

(** One pass over the rows of a two-dimensional array of rows, plane by
    plane. *)
Lemma rowwise_loop2 (f : Z -> Z -> A -> option A) (n m : Z)
      (a0 : list (list A)) :
    Shape2 a0 n m -> All2 Q a0 -> 0 <= m ->
    (forall g p x, 0 <= g < n -> 0 <= p < m -> Q x ->
                   exists y, f g p x = Some y /\ Q y) ->
    exists a',
      for_each (range n) (fun a g =>
        for_each (range m) (fun a p =>
          x <- getitem2 a g p ;; y <- f g p x ;; setitem2 a g p y) a) a0
      = Some a'
      /\ Shape2 a' n m /\ All2 Q a'
      /\ forall g p, 0 <= g < n -> 0 <= p < m ->
           exists x y, getitem2 a0 g p = Some x /\ f g p x = Some y
                       /\ getitem2 a' g p = Some y.
  Proof.
    intros Hshape HQ Hm Hf.
    set (Inv := fun (G Pn : Z) (a : list (list A)) =>
           Shape2 a n m /\ All2 Q a
           /\ forall g p, 0 <= g < n -> 0 <= p < m ->
                ((g < G \/ (g = G /\ p < Pn)) ->
                 exists x y, getitem2 a0 g p = Some x /\ f g p x = Some y
                             /\ getitem2 a g p = Some y)
                /\ (~ (g < G \/ (g = G /\ p < Pn)) ->
                    getitem2 a g p = getitem2 a0 g p)).
    assert (Hn : 0 <= n) by (destruct Hshape as [<- _]; lia).
    destruct (for_each_range (fun G a => Inv G 0 a)
                (fun a g =>
                   for_each (range m) (fun a p =>
                     x <- getitem2 a g p ;; y <- f g p x ;;
                     setitem2 a g p y) a)
                n a0 Hn) as (a' & E & Sa' & Qa' & H).
    - split; [exact Hshape|]. split; [exact HQ|].
      intros g p Hg Hp. split; [lia | reflexivity].
    - intros G a HG HInv.
      destruct (for_each_range (fun Pn a => Inv G Pn a)
                  (fun a p =>
                     x <- getitem2 a G p ;; y <- f G p x ;;
                     setitem2 a G p y)
                  m a Hm HInv) as (a1 & E1 & S1 & Q1 & H1).
      + intros i a2 Hi (S2 & Q2 & H2).
        destruct (getitem2_some a2 n m G i S2 HG Hi) as [x Hx].
        pose proof (All2_getitem2 Q a2 G i x Q2 Hx) as Qx.
        destruct (Hf G i x HG Hi Qx) as (y & Ey & Qy).
        rewrite Hx. cbn [bind]. rewrite Ey. cbn [bind].
        destruct (setitem2_spec a2 n m G i y S2 HG Hi)
          as (a3 & E3 & S3 & Hget & Hother & Hall).
        exists a3. split; [exact E3|]. split; [exact S3|].
        split; [now apply Hall|].
        intros g p Hg Hp.
        destruct (Z.eq_dec g G) as [->|HgG];
          [destruct (Z.eq_dec p i) as [->|Hpi]|].
        * split; [|intros Hnot; exfalso; apply Hnot; right; lia].
          intros _. exists x, y. split; [|split; [exact Ey | exact Hget]].
          rewrite <- (proj2 (H2 G i HG Hi)) by lia. exact Hx.
        * rewrite (Hother G p) by (try lia; congruence).
          destruct (H2 G p Hg Hp) as [Ha Hb].
          split; intros Hc; [apply Ha | apply Hb]; lia.
        * rewrite (Hother g p) by (try lia; congruence).
          destruct (H2 g p Hg Hp) as [Ha Hb].
          split; intros Hc; [apply Ha | apply Hb]; lia.
      + exists a1. split; [exact E1|]. split; [exact S1|].
        split; [exact Q1|].
        intros g p Hg Hp. destruct (H1 g p Hg Hp) as [Ha Hb].
        split; intros Hc; [apply Ha | apply Hb]; lia.
    - exists a'. split; [exact E|]. split; [exact Sa'|].
      split; [exact Qa'|].
      intros g p Hg Hp. apply (H g p Hg Hp). lia.
  Qed.

End Rowwise.

(** ** The spike stage over a camera *)

Lemma interpolate_spikes_pixel_ok (w : list R) (current_fc last_fc : Z) :
  length w = 40%nat ->
  exists w', interpolate_spikes_pixel w current_fc last_fc = Some w'
             /\ length w' = 40%nat.
Proof.
  intros Hlen. unfold interpolate_spikes_pixel.
  rewrite interpolate_spikes_pixel_with_calls.
  apply spike_A_on_waveform_ok; [exact Hlen|].
  apply Forall_forall. intros p Hp. apply filter_In in Hp as [_ Hp].
  exact (spike_A_qualifies_position _ _ _ Hp).
Qed.

Lemma interpolate_spikes_pixel_old_firmware_ok (w : list R)
    (current_fc last_fc : Z) :
  length w = 40%nat ->
  exists w',
    interpolate_spikes_pixel_old_firmware w current_fc last_fc = Some w'
    /\ length w' = 40%nat.
Proof.
  intros Hlen. unfold interpolate_spikes_pixel_old_firmware.
  rewrite interpolate_spikes_pixel_old_firmware_with_calls.
  apply spike_A_on_waveform_ok; [exact Hlen|].
  apply Forall_forall. intros p Hp. apply filter_In in Hp as [_ Hp].
  exact (spike_A_qualifies_position _ _ _ Hp).
Qed.

Lemma getitem2_wrap {A : Type} (a : list (list A)) (m g p : Z) :
  Shape2 a 2 m -> -2 <= g < 2 ->
  getitem2 a g p = getitem2 a (g mod 2) p.
Proof.
  intros [Hlen _] Hg. unfold getitem2.
  rewrite (getitem_wrap a g) by lia. now rewrite Hlen.
Qed.

Lemma Shape2_has_shape2 {A : Type} (a : list (list A)) (n m : nat) :
  Shape2 a (Z.of_nat n) (Z.of_nat m) -> has_shape2 a n m = true.
Proof.
  intros [Hlen Hrows]. unfold has_shape2. apply andb_true_intro. split.
  - apply Nat.eqb_eq. lia.
  - apply forallb_forall. intros row Hin. rewrite Forall_forall in Hrows.
    apply Nat.eqb_eq. specialize (Hrows row Hin). simpl in Hrows. lia.
Qed.

Lemma Shape2_has_shape3 {A : Type} (a : list (list (list A)))
    (n m k : nat) :
  Shape2 a (Z.of_nat n) (Z.of_nat m) ->
  All2 (fun row => Z.of_nat (length row) = Z.of_nat k) a ->
  has_shape3 a n m k = true.
Proof.
  intros [Hlen Hplanes] Hrows. unfold has_shape3.
  apply andb_true_intro. split.
  - apply Nat.eqb_eq. lia.
  - apply forallb_forall. intros plane Hin.
    rewrite Forall_forall in Hplanes. unfold All2 in Hrows.
    rewrite Forall_forall in Hrows.
    apply Shape2_has_shape2. split.
    + exact (Hplanes plane Hin).
    + exact (Hrows plane Hin).
Qed.

(** X6.  On a waveform of shape (2, 1855, 40) and first-capacitor arrays
    of shape (2, 1855), whatever integers they hold, [interpolate_spikes]
    raises no index error and treats the pixels independently: the row of
    pixel (g, p) becomes what the spike kernel of the run's firmware makes
    of that row alone with the two first capacitors of (g, p). *)
Theorem interpolate_spikes_pixelwise (LAST_RUN_WITH_OLD_FIRMWARE : Z)
    (waveform : list (list (list R)))
    (first_capacitors previous_first_capacitors : list (list Z))
    (run_id : Z) :
  has_shape3 waveform 2 1855 40 = true ->
  has_shape2 first_capacitors 2 1855 = true ->
  has_shape2 previous_first_capacitors 2 1855 = true ->
  exists waveform',
    interpolate_spikes LAST_RUN_WITH_OLD_FIRMWARE waveform
      first_capacitors previous_first_capacitors run_id = Some waveform'
    /\ has_shape3 waveform' 2 1855 40 = true
    /\ forall g p, 0 <= g < 2 -> 0 <= p < 1855 ->
         exists row current_fc last_fc,
           getitem2 waveform g p = Some row
           /\ getitem2 first_capacitors g p = Some current_fc
           /\ getitem2 previous_first_capacitors g p = Some last_fc
           /\ getitem2 waveform' g p
              = if LAST_RUN_WITH_OLD_FIRMWARE <? run_id
                then interpolate_spikes_pixel row current_fc last_fc
                else interpolate_spikes_pixel_old_firmware row current_fc
                       last_fc.
Proof.
  intros Hwf Hfc Hprev.
  apply has_shape3_Shape2 in Hwf as [Hshape Hrows].
  apply has_shape2_Shape2 in Hfc. apply has_shape2_Shape2 in Hprev.
  change (Z.of_nat 2) with 2 in *. change (Z.of_nat 1855) with 1855 in *.
  change (Z.of_nat 40) with 40 in *.
  set (kernel := fun (g p : Z) (row : list R) =>
         current_fc <- getitem2 first_capacitors g p ;;
         last_fc <- getitem2 previous_first_capacitors g p ;;
         if LAST_RUN_WITH_OLD_FIRMWARE <? run_id
         then interpolate_spikes_pixel row current_fc last_fc
         else interpolate_spikes_pixel_old_firmware row current_fc last_fc).
  destruct (rowwise_loop2 (fun row : list R => Z.of_nat (length row) = 40)
              kernel 2 1855 waveform Hshape Hrows ltac:(lia))
    as (wf' & E & S' & Q' & H).
  { intros g p row Hg Hp Hlen. unfold kernel.
    destruct (getitem2_some _ _ _ g p Hfc Hg Hp) as [cf ->].
    destruct (getitem2_some _ _ _ g p Hprev Hg Hp) as [lf ->].
    cbn [bind].
    destruct (LAST_RUN_WITH_OLD_FIRMWARE <? run_id).
    - destruct (interpolate_spikes_pixel_ok row cf lf) as (w' & -> & L);
        [lia|]. exists w'. split; [reflexivity | lia].
    - destruct (interpolate_spikes_pixel_old_firmware_ok row cf lf)
        as (w' & -> & L); [lia|]. exists w'. split; [reflexivity | lia]. }
  exists wf'. split; [|split].
  - rewrite <- E. unfold interpolate_spikes.
    apply for_each_ext. intros a g _. apply for_each_ext. intros a1 p _.
    unfold kernel.
    destruct (getitem2 first_capacitors g p);
      destruct (getitem2 previous_first_capacitors g p);
      destruct (getitem2 a1 g p); reflexivity.
  - apply (Shape2_has_shape3 wf' 2 1855 40); assumption.
  - intros g p Hg Hp.
    destruct (H g p Hg Hp) as (row & y & Hrow & Hy & Hget).
    unfold kernel in Hy.
    destruct (getitem2_some _ _ _ g p Hfc Hg Hp) as [cf Hcf].
    destruct (getitem2_some _ _ _ g p Hprev Hg Hp) as [lf Hlf].
    rewrite Hcf, Hlf in Hy. cbn [bind] in Hy.
    exists row, cf, lf. split; [exact Hrow|]. split; [exact Hcf|].
    split; [exact Hlf|]. now rewrite Hget, Hy.
Qed.

Lemma interpolate_spikes_pixelwise_witness :
  exists waveform',
    interpolate_spikes 0 (uniform2 (repeat 5%R 40)) (uniform2 30)
      (uniform2 1) 1 = Some waveform'
    /\ has_shape3 waveform' 2 1855 40 = true
    /\ forall g p, 0 <= g < 2 -> 0 <= p < 1855 ->
         exists row current_fc last_fc,
           getitem2 (uniform2 (repeat 5%R 40)) g p = Some row
           /\ getitem2 (uniform2 30) g p = Some current_fc
           /\ getitem2 (uniform2 1) g p = Some last_fc
           /\ getitem2 waveform' g p
              = if 0 <? 1
                then interpolate_spikes_pixel row current_fc last_fc
                else interpolate_spikes_pixel_old_firmware row current_fc
                       last_fc.
Proof.
  apply (interpolate_spikes_pixelwise 0 (uniform2 (repeat 5%R 40))
           (uniform2 30) (uniform2 1) 1).
  - vm_compute. reflexivity.
  - vm_compute. reflexivity.
  - vm_compute. reflexivity.
Defined.

(** X7.  On a gain-selected waveform of shape (1855, 40), with markers
    that index a gain plane (-2 to 1), [interpolate_spikes_gain_selected]
    raises no index error and treats the pixels independently: the row of
    pixel p becomes what the spike kernel of the run's firmware makes of
    it with the first capacitors of plane [marker mod 2] of p; a pixel
    marked -1 is treated with the low-gain first capacitors. *)
Theorem interpolate_spikes_gain_selected_pixelwise
    (LAST_RUN_WITH_OLD_FIRMWARE : Z) (waveform : list (list R))
    (first_capacitors previous_first_capacitors : list (list Z))
    (selected_gain_channel : list Z) (run_id : Z) :
  has_shape2 waveform 1855 40 = true ->
  has_shape2 first_capacitors 2 1855 = true ->
  has_shape2 previous_first_capacitors 2 1855 = true ->
  length selected_gain_channel = 1855%nat ->
  Forall (fun marker => -2 <= marker < 2) selected_gain_channel ->
  exists waveform',
    interpolate_spikes_gain_selected LAST_RUN_WITH_OLD_FIRMWARE waveform
      first_capacitors previous_first_capacitors selected_gain_channel
      run_id = Some waveform'
    /\ has_shape2 waveform' 1855 40 = true
    /\ forall p, 0 <= p < 1855 ->
         exists row marker current_fc last_fc,
           getitem waveform p = Some row
           /\ getitem selected_gain_channel p = Some marker
           /\ getitem2 first_capacitors (gain_plane marker) p
              = Some current_fc
           /\ getitem2 previous_first_capacitors (gain_plane marker) p
              = Some last_fc
           /\ getitem waveform' p
              = if LAST_RUN_WITH_OLD_FIRMWARE <? run_id
                then interpolate_spikes_pixel row current_fc last_fc
                else interpolate_spikes_pixel_old_firmware row current_fc
                       last_fc.
Proof.
  intros Hwf Hfc Hprev Hsg Hmark.
  apply has_shape2_Shape2 in Hwf as [Hlen Hrows].
  apply has_shape2_Shape2 in Hfc. apply has_shape2_Shape2 in Hprev.
  change (Z.of_nat 2) with 2 in *. change (Z.of_nat 1855) with 1855 in *.
  change (Z.of_nat 40) with 40 in *.
  set (kernel := fun (p : Z) (row : list R) =>
         gain <- getitem selected_gain_channel p ;;
         current_fc <- getitem2 first_capacitors gain p ;;
         last_fc <- getitem2 previous_first_capacitors gain p ;;
         if LAST_RUN_WITH_OLD_FIRMWARE <? run_id
         then interpolate_spikes_pixel row current_fc last_fc
         else interpolate_spikes_pixel_old_firmware row current_fc last_fc).
  assert (Hplane : forall p, 0 <= p < 1855 ->
            exists marker cf lf,
              getitem selected_gain_channel p = Some marker
              /\ getitem2 first_capacitors marker p = Some cf
              /\ getitem2 previous_first_capacitors marker p = Some lf
              /\ getitem2 first_capacitors (gain_plane marker) p = Some cf
              /\ getitem2 previous_first_capacitors (gain_plane marker) p
                 = Some lf).
  { intros p Hp.
    destruct (getitem_some selected_gain_channel p) as [marker Hm]; [lia|].
    pose proof (Forall_getitem _ _ _ _ Hmark Hm) as Hr. simpl in Hr.
    assert (Hg : 0 <= gain_plane marker < 2)
      by (unfold gain_plane, N_GAINS; Z.div_mod_to_equations; lia).
    destruct (getitem2_some _ _ _ _ p Hfc Hg Hp) as [cf Hcf].
    destruct (getitem2_some _ _ _ _ p Hprev Hg Hp) as [lf Hlf].
    exists marker, cf, lf. split; [exact Hm|].
    rewrite (getitem2_wrap first_capacitors 1855 marker p Hfc Hr).
    rewrite (getitem2_wrap previous_first_capacitors 1855 marker p
               Hprev Hr).
    auto. }
  destruct (rowwise_loop (fun row : list R => Z.of_nat (length row) = 40)
              kernel 1855 waveform Hlen Hrows)
    as (wf' & E & L' & Q' & H).
  { intros p row Hp Hl. unfold kernel.
    destruct (Hplane p Hp) as (marker & cf & lf & Hm & Hcf & Hlf & _).
    rewrite Hm. cbn [bind]. rewrite Hcf, Hlf. cbn [bind].
    destruct (LAST_RUN_WITH_OLD_FIRMWARE <? run_id).
    - destruct (interpolate_spikes_pixel_ok row cf lf) as (w' & -> & L);
        [lia|]. exists w'. split; [reflexivity | lia].
    - destruct (interpolate_spikes_pixel_old_firmware_ok row cf lf)
        as (w' & -> & L); [lia|]. exists w'. split; [reflexivity | lia]. }
  exists wf'. split; [|split].
  - rewrite <- E. unfold interpolate_spikes_gain_selected.
    apply for_each_ext. intros a p _. unfold kernel.
    destruct (getitem selected_gain_channel p) as [gain|];
      [|cbn [bind]; destruct (getitem a p); reflexivity].
    cbn [bind].
    destruct (getitem2 first_capacitors gain p);
      destruct (getitem2 previous_first_capacitors gain p);
      destruct (getitem a p); reflexivity.
  - apply (Shape2_has_shape2 wf' 1855 40). split; assumption.
  - intros p Hp.
    destruct (H p Hp) as (row & y & Hrow & Hy & Hget).
    destruct (Hplane p Hp) as (marker & cf & lf & Hm & Hcf & Hlf & Hcf' & Hlf').
    unfold kernel in Hy. rewrite Hm in Hy. cbn [bind] in Hy.
    rewrite Hcf, Hlf in Hy. cbn [bind] in Hy.
    exists row, marker, cf, lf. split; [exact Hrow|]. split; [exact Hm|].
    split; [exact Hcf'|]. split; [exact Hlf'|]. now rewrite Hget, Hy.
Qed.

Lemma interpolate_spikes_gain_selected_pixelwise_witness :
  exists waveform',
    interpolate_spikes_gain_selected 0 (repeat (repeat 5%R 40) 1855)
      (uniform2 30) (uniform2 1) markers_with_absent_pixel 1
    = Some waveform'
    /\ has_shape2 waveform' 1855 40 = true
    /\ forall p, 0 <= p < 1855 ->
         exists row marker current_fc last_fc,
           getitem (repeat (repeat 5%R 40) 1855) p = Some row
           /\ getitem markers_with_absent_pixel p = Some marker
           /\ getitem2 (uniform2 30) (gain_plane marker) p
              = Some current_fc
           /\ getitem2 (uniform2 1) (gain_plane marker) p = Some last_fc
           /\ getitem waveform' p
              = if 0 <? 1
                then interpolate_spikes_pixel row current_fc last_fc
                else interpolate_spikes_pixel_old_firmware row current_fc
                       last_fc.
Proof.
  apply (interpolate_spikes_gain_selected_pixelwise 0
           (repeat (repeat 5%R 40) 1855) (uniform2 30) (uniform2 1)
           markers_with_absent_pixel 1).
  - vm_compute. reflexivity.
  - vm_compute. reflexivity.
  - vm_compute. reflexivity.
  - reflexivity.
  - apply Forall_app. split.
    + apply Forall_repeat. lia.
    + repeat constructor; lia.
Defined.

(** ** The pedestal stage of a gain-selected event *)

(** X8.  On a gain-selected waveform of shape (1855, 40), first
    capacitors in 0..4095 and the table built from a pedestal file of
    shape (2, 1855, 4096), [subtract_pedestal_gain_selected] succeeds and
    sets waveform[p, s] to old - pedestal[plane, p, (fc[plane, p] + s) mod
    4096], where plane is [marker mod 2] for the marker of p: the high
    gain for 0, the low gain for 1 and also for the marker -1 of a pixel
    without data. *)
Theorem subtract_pedestal_gain_selected_modular
    (waveform : list (list R)) (first_capacitors : list (list Z))
    (data : list (list (list Z))) (offset : Z)
    (selected_gain_channel : list Z) :
  has_shape2 waveform 1855 40 = true ->
  has_shape2 first_capacitors 2 1855 = true ->
  Forall (Forall (fun f => 0 <= f < 4096)) first_capacitors ->
  has_shape3 data 2 1855 4096 = true ->
  length selected_gain_channel = 1855%nat ->
  Forall (fun marker => -2 <= marker < 2) selected_gain_channel ->
  exists pedestal waveform',
    _get_drs4_pedestal_data (Some data) offset = Some pedestal
    /\ subtract_pedestal_gain_selected waveform first_capacitors pedestal
         selected_gain_channel = Some waveform'
    /\ forall p s, 0 <= p < 1855 -> 0 <= s < 40 ->
         exists old marker f pv,
           getitem2 waveform p s = Some old
           /\ getitem selected_gain_channel p = Some marker
           /\ getitem2 first_capacitors (gain_plane marker) p = Some f
           /\ getitem3 pedestal (gain_plane marker) p ((f + s) mod 4096)
              = Some pv
           /\ getitem2 waveform' p s = Some (old - IZR pv)%R.
Proof.
  intros Hwf Hfc Hrange Hdata Hsg Hmark.
  destruct (get_drs4_pedestal_data_loads data offset Hdata) as [ped Eped].
  destruct (get_drs4_pedestal_data_table data ped offset Eped)
    as [Hpshape Hprows].
  apply has_shape2_Shape2 in Hwf as [Hlen Hrows].
  apply has_shape2_Shape2 in Hfc.
  change (Z.of_nat 2) with 2 in *. change (Z.of_nat 1855) with 1855 in *.
  change (Z.of_nat 40) with 40 in *.
  set (kernel := fun (p : Z) (row : list R) =>
         gain <- getitem selected_gain_channel p ;;
         first_cap <- getitem2 first_capacitors gain p ;;
         pedestal_row <- getitem2 ped gain p ;;
         isub row (slice pedestal_row first_cap (first_cap + N_SAMPLES))).
  assert (Hplane : forall p, 0 <= p < 1855 ->
            exists marker f prow,
              getitem selected_gain_channel p = Some marker
              /\ getitem2 first_capacitors marker p = Some f
              /\ getitem2 ped marker p = Some prow
              /\ getitem2 first_capacitors (gain_plane marker) p = Some f
              /\ getitem2 ped (gain_plane marker) p = Some prow
              /\ 0 <= f < 4096 /\ Wrapped prow).
  { intros p Hp.
    destruct (getitem_some selected_gain_channel p) as [marker Hm]; [lia|].
    pose proof (Forall_getitem _ _ _ _ Hmark Hm) as Hr. simpl in Hr.
    assert (Hg : 0 <= gain_plane marker < 2)
      by (unfold gain_plane, N_GAINS; Z.div_mod_to_equations; lia).
    destruct (getitem2_some _ _ _ _ p Hfc Hg Hp) as [f Hf].
    destruct (getitem2_some _ _ _ _ p Hpshape Hg Hp) as [prow Hprow].
    pose proof (All2_getitem2 _ _ _ _ _ Hrange Hf) as Hfr.
    pose proof (All2_getitem2 _ _ _ _ _ Hprows Hprow) as Hw.
    simpl in Hfr.
    exists marker, f, prow. split; [exact Hm|].
    rewrite (getitem2_wrap first_capacitors 1855 marker p Hfc Hr).
    rewrite (getitem2_wrap ped 1855 marker p Hpshape Hr).
    auto 10. }
  destruct (rowwise_loop (fun row : list R => Z.of_nat (length row) = 40)
              kernel 1855 waveform Hlen Hrows)
    as (wf' & E & L' & Q' & H).
  { intros p row Hp Hl. unfold kernel.
    destruct (Hplane p Hp)
      as (marker & f & prow & Hm & Hf & Hprow & _ & _ & Hfr & Hw).
    rewrite Hm. cbn [bind]. rewrite Hf, Hprow. cbn [bind].
    assert (Hsl : Z.of_nat (length (slice prow f (f + N_SAMPLES))) = 40).
    { destruct Hw as [Hw _]. apply length_slice; unfold N_SAMPLES; lia. }
    destruct (isub_same_length row (slice prow f (f + N_SAMPLES)))
      as (row' & -> & Lrow' & _); [lia|].
    exists row'. split; [reflexivity | lia]. }
  exists ped, wf'. split; [exact Eped|]. split.
  - rewrite <- E. unfold subtract_pedestal_gain_selected.
    apply for_each_ext. intros a p _. unfold kernel.
    destruct (getitem selected_gain_channel p) as [gain|];
      [|cbn [bind]; destruct (getitem a p); reflexivity].
    cbn [bind].
    destruct (getitem2 first_capacitors gain p);
      destruct (getitem2 ped gain p);
      destruct (getitem a p); reflexivity.
  - intros p s Hp Hs.
    destruct (H p Hp) as (row & row' & Hrow & Hy & Hget).
    destruct (Hplane p Hp)
      as (marker & f & prow & Hm & Hf & Hprow & Hf' & Hprow' & Hfr & Hw).
    unfold kernel in Hy. rewrite Hm in Hy. cbn [bind] in Hy.
    rewrite Hf, Hprow in Hy. cbn [bind] in Hy.
    pose proof (Forall_getitem _ _ _ _ Hrows Hrow) as Hl. simpl in Hl.
    assert (Hsl : Z.of_nat (length (slice prow f (f + N_SAMPLES))) = 40).
    { destruct Hw as [Hw0 _]. apply length_slice; unfold N_SAMPLES; lia. }
    destruct (isub_same_length row (slice prow f (f + N_SAMPLES)))
      as (row2 & Erow2 & _ & Hsub); [lia|].
    rewrite Erow2 in Hy. injection Hy as <-.
    destruct (getitem_some row s) as [old Hold]; [lia|].
    destruct (getitem_some prow ((f + s) mod 4096)) as [pv Hpv].
    { destruct Hw as [Hw0 _]. Z.div_mod_to_equations. lia. }
    exists old, marker, f, pv.
    split; [unfold getitem2; rewrite Hrow; exact Hold|].
    split; [exact Hm|]. split; [exact Hf'|]. split.
    + unfold getitem3. rewrite Hprow'. exact Hpv.
    + unfold getitem2. rewrite Hget. cbn [bind].
      apply Hsub; [exact Hold|].
      rewrite (Wrapped_window prow f s Hw Hfr Hs). exact Hpv.
Qed.

Lemma subtract_pedestal_gain_selected_modular_witness :
  exists pedestal waveform',
    _get_drs4_pedestal_data (Some (uniform2 (repeat 7 4096))) 400
    = Some pedestal
    /\ subtract_pedestal_gain_selected (repeat (repeat 500%R 40) 1855)
         (uniform2 4090) pedestal markers_with_absent_pixel
       = Some waveform'
    /\ forall p s, 0 <= p < 1855 -> 0 <= s < 40 ->
         exists old marker f pv,
           getitem2 (repeat (repeat 500%R 40) 1855) p s = Some old
           /\ getitem markers_with_absent_pixel p = Some marker
           /\ getitem2 (uniform2 4090) (gain_plane marker) p = Some f
           /\ getitem3 pedestal (gain_plane marker) p ((f + s) mod 4096)
              = Some pv
           /\ getitem2 waveform' p s = Some (old - IZR pv)%R.
Proof.
  apply (subtract_pedestal_gain_selected_modular
           (repeat (repeat 500%R 40) 1855) (uniform2 4090)
           (uniform2 (repeat 7 4096)) 400 markers_with_absent_pixel).
  - vm_compute. reflexivity.
  - vm_compute. reflexivity.
  - apply Forall_repeat, Forall_repeat. lia.
  - vm_compute. reflexivity.
  - reflexivity.
  - apply Forall_app. split.
    + apply Forall_repeat. lia.
    + repeat constructor; lia.
Defined.

(** ** First capacitors of the pixels *)

Lemma nth_error_np_repeat {A : Type} (xs : list A) (n j k : nat) :
  (k < n)%nat ->
  nth_error (np_repeat xs n) (n * j + k) = nth_error xs j.
Proof.
  intros Hk. unfold np_repeat. revert j.
  induction xs as [|x xs IH]; intros j; cbn [flat_map].
  - now rewrite !nth_error_nil.
  - destruct j as [|j].
    + rewrite Nat.mul_0_r, Nat.add_0_l.
      rewrite nth_error_app1 by (rewrite repeat_length; exact Hk).
      cbn [nth_error]. apply nth_error_repeat. exact Hk.
    + rewrite nth_error_app2 by (rewrite repeat_length; lia).
      rewrite repeat_length.
      replace (n * S j + k - n)%nat with (n * j + k)%nat by lia.
      cbn [nth_error]. apply IH.
Qed.

Lemma length_np_repeat {A : Type} (xs : list A) (n : nat) :
  length (np_repeat xs n) = (n * length xs)%nat.
Proof.
  unfold np_repeat. induction xs as [|x xs IH]; cbn [flat_map length].
  - lia.
  - rewrite length_app, repeat_length, IH. lia.
Qed.

Lemma nth_error_concat_repeat {A : Type} (xs : list A) (n j k : nat) :
  (j < n)%nat -> (k < length xs)%nat ->
  nth_error (concat (repeat xs n)) (length xs * j + k) = nth_error xs k.
Proof.
  intros Hj Hk. revert j Hj.
  induction n as [|n IH]; intros j Hj; [lia|].
  cbn [repeat concat]. destruct j as [|j].
  - rewrite Nat.mul_0_r, Nat.add_0_l. now apply nth_error_app1.
  - rewrite nth_error_app2 by lia.
    replace (length xs * S j + k - length xs)%nat
      with (length xs * j + k)%nat by lia.
    apply IH. lia.
Qed.

Lemma length_concat_repeat {A : Type} (xs : list A) (n : nat) :
  length (concat (repeat xs n)) = (length xs * n)%nat.
Proof.
  induction n as [|n IH]; cbn [repeat concat length]; [lia|].
  rewrite length_app, IH. lia.
Qed.

Lemma nth_error_range (n : Z) (j : nat) :
  Z.of_nat j < n -> nth_error (range n) j = Some (Z.of_nat j).
Proof.
  intros H. unfold range, range2. rewrite nth_error_map.
  rewrite nth_error_seq. replace (j <? Z.to_nat (n - 0))%nat with true.
  - reflexivity.
  - symmetry. apply Nat.ltb_lt. lia.
Qed.

Lemma length_range (n : Z) : length (range n) = Z.to_nat n.
Proof.
  unfold range, range2. rewrite length_map, length_seq. f_equal. lia.
Qed.

Lemma nth_error_combine {A B : Type} (l1 : list A) (l2 : list B)
    (i : nat) (x : A) (y : B) :
  nth_error l1 i = Some x -> nth_error l2 i = Some y ->
  nth_error (combine l1 l2) i = Some (x, y).
Proof.
  revert l2 i. induction l1 as [|a l1 IH]; intros [|b l2] [|i];
    cbn [combine nth_error]; try discriminate.
  - intros [= ->] [= ->]. reflexivity.
  - apply IH.
Qed.

(** The channel of pixel [k] of module [j]: pixels 2c and 2c + 1 share
    chip c. *)
Lemma channel_indices_at (order : list Z) (base n : Z) (j k : nat) :
  length order = 7%nat ->
  (forall k, (k < 7)%nat ->
             nth_error order k = Some (base + Z.of_nat k / 2)) ->
  Z.of_nat j < n -> (k < 7)%nat ->
  nth_error
    (map (fun '(m, c) => m * N_CHANNELS_MODULE + c)
         (combine (np_repeat (range n) 7) (np_tile order n)))
    (7 * j + k)
  = Some (Z.of_nat j * 8 + base + Z.of_nat k / 2).
Proof.
  intros Hlen Horder Hj Hk.
  rewrite nth_error_map.
  assert (E1 : nth_error (np_repeat (range n) 7) (7 * j + k)
               = Some (Z.of_nat j)).
  { rewrite nth_error_np_repeat by exact Hk. now apply nth_error_range. }
  assert (E2 : nth_error (np_tile order n) (7 * j + k)
               = Some (base + Z.of_nat k / 2)).
  { unfold np_tile. rewrite <- Hlen.
    rewrite nth_error_concat_repeat by lia. apply Horder. exact Hk. }
  rewrite (nth_error_combine _ _ _ _ _ E1 E2). cbn [option_map].
  f_equal. unfold N_CHANNELS_MODULE. lia.
Qed.

Lemma channel_indices_length (order : list Z) (n : Z) :
  length order = 7%nat ->
  length
    (map (fun '(m, c) => m * N_CHANNELS_MODULE + c)
         (combine (np_repeat (range n) 7) (np_tile order n)))
  = (7 * Z.to_nat n)%nat.
Proof.
  intros Hlen. rewrite length_map, length_combine, length_np_repeat.
  unfold np_tile. rewrite length_concat_repeat, length_range, Hlen. lia.
Qed.

Lemma Forall_nth_error {A : Type} (P : A -> Prop) (l : list A) :
  (forall i x, nth_error l i = Some x -> P x) -> Forall P l.
Proof.
  intros H. apply Forall_forall. intros x Hin.
  apply In_nth_error in Hin as [i Hi]. exact (H i x Hi).
Qed.

Lemma channel_indices_in_range (order : list Z) (base n size : Z) :
  length order = 7%nat -> 0 <= base -> base + 3 < 8 ->
  (forall k, (k < 7)%nat ->
             nth_error order k = Some (base + Z.of_nat k / 2)) ->
  8 * n <= size ->
  Forall (fun i => 0 <= i < size)
    (map (fun '(m, c) => m * N_CHANNELS_MODULE + c)
         (combine (np_repeat (range n) 7) (np_tile order n))).
Proof.
  intros Hlen Hb0 Hb1 Horder Hsize. apply Forall_nth_error. intros i x Hi.
  assert (Hlt : (i < 7 * Z.to_nat n)%nat).
  { rewrite <- (channel_indices_length order n Hlen).
    apply nth_error_Some. congruence. }
  pose proof (Nat.div_mod_eq i 7) as Hdm.
  pose proof (Nat.mod_upper_bound i 7 ltac:(lia)) as Hmod.
  assert (Hj : Z.of_nat (i / 7) < n).
  { assert ((i / 7 < Z.to_nat n)%nat)
      by (apply Nat.Div0.div_lt_upper_bound; lia).
    lia. }
  remember (i / 7)%nat as j eqn:Ej. remember (i mod 7)%nat as k eqn:Ek.
  clear Ej Ek. subst i.
  rewrite (channel_indices_at order base n j k Hlen Horder Hj Hmod) in Hi.
  injection Hi as <-.
  assert (Hq : 0 <= Z.of_nat k / 2 <= 3)
    by (split; [apply Z.div_pos; lia|];
        apply Z.div_le_upper_bound; lia).
  lia.
Qed.

Lemma take_indices_spec {A : Type} (a : list A) (idx : list Z) :
  Forall (fun i => 0 <= i < Z.of_nat (length a)) idx ->
  exists xs,
    take_indices a idx = Some xs
    /\ length xs = length idx
    /\ forall i j, nth_error idx i = Some j ->
                   nth_error xs i = getitem a j.
Proof.
  induction idx as [|i0 idx IH]; intros H; cbn [take_indices].
  - exists []. split; [reflexivity|]. split; [reflexivity|].
    intros [|i] j; discriminate.
  - inversion H as [|? ? Hi0 Hrest]; subst.
    destruct (getitem_some a i0 Hi0) as [x Hx].
    destruct (IH Hrest) as (xs & E & L & Hnth).
    rewrite Hx, E. cbn [bind]. exists (x :: xs).
    split; [reflexivity|]. split; [cbn [length]; lia|].
    intros [|i] j; cbn [nth_error].
    + intros [= <-]. now rewrite Hx.
    + apply Hnth.
Qed.

Lemma scatter_loop_some {A : Type} (idx : list Z) :
  forall (src dst : list A),
    length src = length idx ->
    Forall (fun i => 0 <= i < Z.of_nat (length dst)) idx ->
    exists dst', scatter_loop dst idx src = Some dst'.
Proof.
  induction idx as [|i idx IH]; intros [|v src] dst Hlen Hidx;
    cbn [scatter_loop]; try discriminate.
  - eauto.
  - inversion Hidx as [|? ? Hi Hrest]; subst.
    rewrite setitem_nonneg by exact Hi. cbn [bind].
    apply IH.
    + cbn [length] in Hlen. lia.
    + now rewrite length_update.
Qed.

Lemma channel_order_high_gain (k : nat) :
  (k < 7)%nat ->
  nth_error CHANNEL_ORDER_HIGH_GAIN k = Some (0 + Z.of_nat k / 2).
Proof.
  intros H. do 7 (destruct k as [|k]; [reflexivity|]). lia.
Qed.

Lemma channel_order_low_gain (k : nat) :
  (k < 7)%nat ->
  nth_error CHANNEL_ORDER_LOW_GAIN k = Some (4 + Z.of_nat k / 2).
Proof.
  intros H. do 7 (destruct k as [|k]; [reflexivity|]). lia.
Qed.

(** One gain row of [get_first_capacitors_for_pixels]: the values
    gathered through the channel indices and scattered by pixel id. *)
Lemma first_capacitor_row (order : list Z) (base : Z)
    (first_capacitor_id expected : list Z) :
  length order = 7%nat -> 0 <= base -> base + 3 < 8 ->
  (forall k, (k < 7)%nat ->
             nth_error order k = Some (base + Z.of_nat k / 2)) ->
  Z.of_nat (length expected)
  = 7 * (Z.of_nat (length first_capacitor_id) / 8) ->
  NoDup expected -> Forall (fun p => 0 <= p < 1855) expected ->
  exists values row,
    take_indices first_capacitor_id
      (map (fun '(m, c) => m * N_CHANNELS_MODULE + c)
         (combine
            (np_repeat
               (range (Z.of_nat (length first_capacitor_id) / 8)) 7)
            (np_tile order (Z.of_nat (length first_capacitor_id) / 8))))
    = Some values
    /\ scatter_loop (repeat 0 (Z.to_nat N_PIXELS)) expected
         (map uint16 values) = Some row
    /\ length row = 1855%nat
    /\ (forall m k p,
           0 <= m < Z.of_nat (length first_capacitor_id) / 8 ->
           0 <= k < 7 ->
           getitem expected (7 * m + k) = Some p ->
           exists v,
             getitem first_capacitor_id (8 * m + base + k / 2) = Some v
             /\ getitem row p = Some (uint16 v))
    /\ (forall p, 0 <= p < 1855 -> ~ In p expected ->
                  getitem row p = Some 0).
Proof.
  intros Hlen Hb0 Hb1 Horder Hexp Hnd Hrange.
  set (n := Z.of_nat (length first_capacitor_id) / 8) in *.
  assert (Hn : 0 <= n) by (apply Z.div_pos; lia).
  assert (Hsize : 8 * n <= Z.of_nat (length first_capacitor_id))
    by (unfold n; Z.div_mod_to_equations; lia).
  set (channels :=
         map (fun '(m, c) => m * N_CHANNELS_MODULE + c)
             (combine (np_repeat (range n) 7) (np_tile order n))).
  pose proof (channel_indices_in_range order base n _ Hlen Hb0 Hb1 Horder
                Hsize) as Hin.
  fold channels in Hin.
  destruct (take_indices_spec first_capacitor_id channels Hin)
    as (values & Evalues & Lvalues & Hvalues).
  assert (Lchannels : length channels = (7 * Z.to_nat n)%nat)
    by (apply channel_indices_length; exact Hlen).
  assert (Lzero : length (repeat 0 (Z.to_nat N_PIXELS)) = 1855%nat)
    by (now rewrite repeat_length).
  destruct (scatter_loop_some expected (map uint16 values)
              (repeat 0 (Z.to_nat N_PIXELS))) as [row Erow].
  { rewrite length_map. lia. }
  { rewrite Lzero. exact Hrange. }
  assert (Hnn : Forall (fun p => 0 <= p) expected).
  { eapply Forall_impl; [|exact Hrange]. simpl. intros; lia. }
  exists values, row. split; [exact Evalues|]. split; [exact Erow|].
  split; [|split].
  - rewrite (scatter_loop_length _ _ _ _ Erow). exact Lzero.
  - intros m k p Hm Hk Hp.
    rewrite getitem_nonneg in Hp by lia.
    replace (Z.to_nat (7 * m + k))
      with (7 * Z.to_nat m + Z.to_nat k)%nat in Hp by lia.
    pose proof (channel_indices_at order base n (Z.to_nat m) (Z.to_nat k)
                  Hlen Horder ltac:(lia) ltac:(lia)) as Hch.
    fold channels in Hch.
    pose proof (Hvalues _ _ Hch) as Hv.
    rewrite !Z2Nat.id in Hv by lia.
    replace (m * 8 + base + k / 2) with (8 * m + base + k / 2) in Hv
      by lia.
    destruct (getitem_some first_capacitor_id (8 * m + base + k / 2))
      as [v Ev].
    { assert (0 <= k / 2 <= 3)
        by (split; [apply Z.div_pos; lia|];
            apply Z.div_le_upper_bound; lia).
      lia. }
    exists v. split; [exact Ev|].
    apply (scatter_loop_written expected (map uint16 values) _ row
             (7 * Z.to_nat m + Z.to_nat k) p _ Hnd Hnn Erow Hp).
    rewrite nth_error_map, Hv, Ev. reflexivity.
  - intros p Hp Hnot.
    rewrite (scatter_loop_untouched expected (map uint16 values) _ row p
               Hnn ltac:(rewrite Lzero; exact Hp) Hnot Erow).
    apply getitem_repeat. change (Z.to_nat N_PIXELS) with 1855%nat. lia.
Qed.

(** X9.  With 7 distinct pixel ids below 1855 for each group of 8 first
    capacitors, [get_first_capacitors_for_pixels] returns an array of
    shape (2, 1855) in which the pixel whose id stands at place 7 m + k
    holds, cast to uint16, first capacitor 8 m + k / 2 for the high gain
    and 8 m + 4 + k / 2 for the low gain, so that pixels 2 c and 2 c + 1
    of a module share the first capacitor of a chip; a pixel whose id
    does not occur holds 0 in both gains. *)
Theorem first_capacitors_of_pixels (first_capacitor_id expected : list Z) :
  Z.of_nat (length expected)
  = 7 * (Z.of_nat (length first_capacitor_id) / 8) ->
  NoDup expected -> Forall (fun p => 0 <= p < 1855) expected ->
  exists fc,
    get_first_capacitors_for_pixels first_capacitor_id (Some expected)
    = Some fc
    /\ has_shape2 fc 2 1855 = true
    /\ (forall m k p,
           0 <= m < Z.of_nat (length first_capacitor_id) / 8 ->
           0 <= k < 7 ->
           getitem expected (7 * m + k) = Some p ->
           exists high low,
             getitem first_capacitor_id (8 * m + k / 2) = Some high
             /\ getitem first_capacitor_id (8 * m + 4 + k / 2) = Some low
             /\ getitem2 fc HIGH_GAIN p = Some (uint16 high)
             /\ getitem2 fc LOW_GAIN p = Some (uint16 low))
    /\ (forall g p, 0 <= g < 2 -> 0 <= p < 1855 -> ~ In p expected ->
                    getitem2 fc g p = Some 0).
Proof.
  intros Hexp Hnd Hrange.
  destruct (first_capacitor_row CHANNEL_ORDER_LOW_GAIN 4 first_capacitor_id
              expected eq_refl ltac:(lia) ltac:(lia)
              channel_order_low_gain Hexp Hnd Hrange)
    as (low_gain & low_row & Elow & Elow_row & Llow & Hlow & Hlow0).
  destruct (first_capacitor_row CHANNEL_ORDER_HIGH_GAIN 0
              first_capacitor_id expected eq_refl ltac:(lia) ltac:(lia)
              channel_order_high_gain Hexp Hnd Hrange)
    as (high_gain & high_row & Ehigh & Ehigh_row & Lhigh & Hhigh & Hhigh0).
  exists [high_row; low_row].
  split; [|split; [|split]].
  - unfold get_first_capacitors_for_pixels, pixel_channel_indices.
    cbv beta iota zeta.
    change (Z.of_nat (length first_capacitor_id) / N_CHANNELS_MODULE)
      with (Z.of_nat (length first_capacitor_id) / 8).
    rewrite Elow, Ehigh. cbn [bind].
    change (Z.to_nat N_GAINS) with 2%nat.
    set (zero_row := repeat 0 (Z.to_nat N_PIXELS)) in *.
    cbn [repeat].
    change (getitem [zero_row; zero_row] LOW_GAIN) with (Some zero_row).
    cbn [bind]. rewrite Elow_row. cbn [bind].
    change (setitem [zero_row; zero_row] LOW_GAIN low_row)
      with (Some [zero_row; low_row]).
    cbn [bind].
    change (getitem [zero_row; low_row] HIGH_GAIN) with (Some zero_row).
    cbn [bind]. rewrite Ehigh_row. cbn [bind]. reflexivity.
  - unfold has_shape2. cbn [length forallb].
    rewrite Lhigh, Llow. reflexivity.
  - intros m k p Hm Hk Hp.
    destruct (Hhigh m k p Hm Hk Hp) as (high & E1 & E2).
    destruct (Hlow m k p Hm Hk Hp) as (low & E3 & E4).
    exists high, low.
    replace (8 * m + 0 + k / 2) with (8 * m + k / 2) in E1 by lia.
    split; [exact E1|]. split; [exact E3|].
    split; [exact E2 | exact E4].
  - intros g p Hg Hp Hnot.
    assert (Hcases : g = 0 \/ g = 1) by lia.
    destruct Hcases as [-> | ->]; [now apply Hhigh0 | now apply Hlow0].
Qed.

Lemma first_capacitors_of_pixels_witness :
  exists fc,
    get_first_capacitors_for_pixels one_module_first_capacitor_id
      (Some one_module_pixel_ids) = Some fc
    /\ has_shape2 fc 2 1855 = true
    /\ (forall m k p,
           0 <= m < Z.of_nat (length one_module_first_capacitor_id) / 8 ->
           0 <= k < 7 ->
           getitem one_module_pixel_ids (7 * m + k) = Some p ->
           exists high low,
             getitem one_module_first_capacitor_id (8 * m + k / 2)
             = Some high
             /\ getitem one_module_first_capacitor_id (8 * m + 4 + k / 2)
                = Some low
             /\ getitem2 fc HIGH_GAIN p = Some (uint16 high)
             /\ getitem2 fc LOW_GAIN p = Some (uint16 low))
    /\ (forall g p, 0 <= g < 2 -> 0 <= p < 1855 ->
                    ~ In p one_module_pixel_ids ->
                    getitem2 fc g p = Some 0).
Proof.
  apply (first_capacitors_of_pixels one_module_first_capacitor_id
           one_module_pixel_ids).
  - reflexivity.
  - repeat constructor; simpl; intuition lia.
  - repeat constructor; lia.
Defined.

(** ** The monitoring container *)

Lemma land_low_bits (status mask : Z) :
  0 <= mask < 16 -> Z.land status mask = Z.land (status mod 16) mask.
Proof.
  intros Hmask. change 16 with (2 ^ 4). rewrite <- Z.land_ones by lia.
  rewrite <- Z.land_assoc. f_equal.
  change (2 ^ 4) with 16 in Hmask. rewrite Z.land_comm.
  change (Z.ones 4) with (2 ^ 4 - 1 + 0).
  rewrite <- (Z.mod_small mask (2 ^ 4)) at 1 by (change (2 ^ 4) with 16; lia).
  rewrite <- Z.land_ones by lia. reflexivity.
Qed.

(** Channel info 0 means that neither gain is stored. *)
Lemma channel_info_zero (status : Z) :
  (Z.shiftr (Z.land status 12) 2 =? 0)
  = negb (high_gain_stored status || low_gain_stored status).
Proof.
  unfold high_gain_stored, low_gain_stored,
    PixelStatus.HIGH_GAIN_STORED, PixelStatus.LOW_GAIN_STORED.
  rewrite (land_low_bits status 12), (land_low_bits status 4),
    (land_low_bits status 8) by lia.
  assert (H : 0 <= status mod 16 < 16) by (apply Z.mod_pos_bound; lia).
  apply in_range in H. generalize dependent (status mod 16). intros r H.
  vm_compute in H.
  repeat (destruct H as [<- | H]; [reflexivity|]). contradiction.
Qed.

(** X10.  With one status per pixel id, the ids distinct and below 1855,
    [fill_mon_container] fills an array of shape (2, 1855) that marks a
    pixel as failing, in both gains alike, exactly when the status of its
    slot has neither HIGH_GAIN_STORED nor LOW_GAIN_STORED set; a pixel
    whose id does not occur is marked failing. *)
Theorem fill_mon_container_failing (expected_pixels_id pixel_status :
    list Z) :
  length pixel_status = length expected_pixels_id ->
  NoDup expected_pixels_id ->
  Forall (fun p => 0 <= p < 1855) expected_pixels_id ->
  exists failing,
    fill_mon_container expected_pixels_id pixel_status = Some failing
    /\ has_shape2 failing 2 1855 = true
    /\ (forall g i p status, 0 <= g < 2 ->
          nth_error expected_pixels_id i = Some p ->
          nth_error pixel_status i = Some status ->
          getitem2 failing g p
          = Some (negb (high_gain_stored status
                        || low_gain_stored status)))
    /\ (forall g p, 0 <= g < 2 -> 0 <= p < 1855 ->
                    ~ In p expected_pixels_id ->
                    getitem2 failing g p = Some true).
Proof.
  intros Hlen Hnd Hrange.
  assert (Lzero : length (full N_PIXELS 0) = 1855%nat)
    by (unfold full; now rewrite repeat_length).
  assert (Hnn : Forall (fun p => 0 <= p) expected_pixels_id).
  { eapply Forall_impl; [|exact Hrange]. simpl. intros; lia. }
  destruct (scatter_loop_some expected_pixels_id pixel_status
              (full N_PIXELS 0) Hlen) as [reordered Ere].
  { rewrite Lzero. exact Hrange. }
  pose proof (scatter_loop_length _ _ _ _ Ere) as Lre.
  rewrite Lzero in Lre.
  set (row := map (fun c => c =? 0) (get_channel_info reordered)).
  assert (Lrow : length row = 1855%nat).
  { unfold row, get_channel_info. now rewrite !length_map. }
  assert (Erow : forall p,
            getitem row p
            = option_map (fun status =>
                            negb (high_gain_stored status
                                  || low_gain_stored status))
                (getitem reordered p)).
  { intros p. unfold row, get_channel_info.
    rewrite !getitem_map. destruct (getitem reordered p); [|reflexivity].
    cbn [option_map]. now rewrite channel_info_zero. }
  assert (Eplane : forall g p, 0 <= g < 2 ->
            getitem2 [row; row] g p = getitem row p).
  { intros g p Hg. assert (Hc : g = 0 \/ g = 1) by lia.
    destruct Hc as [-> | ->]; reflexivity. }
  exists [row; row]. split; [|split; [|split]].
  - unfold fill_mon_container. rewrite Ere. cbn [bind]. reflexivity.
  - unfold has_shape2. cbn [length forallb]. rewrite Lrow. reflexivity.
  - intros g i p status Hg Hi Hs. rewrite Eplane, Erow by exact Hg.
    rewrite (scatter_loop_written _ _ _ _ i p status Hnd Hnn Ere Hi Hs).
    reflexivity.
  - intros g p Hg Hp Hnot. rewrite Eplane, Erow by exact Hg.
    rewrite (scatter_loop_untouched _ _ _ _ p Hnn
               ltac:(rewrite Lzero; exact Hp) Hnot Ere).
    unfold full. rewrite getitem_repeat
      by (change (Z.to_nat N_PIXELS) with 1855%nat; lia).
    reflexivity.
Qed.

Lemma fill_mon_container_failing_witness :
  exists failing,
    fill_mon_container [0; 1; 2] [4; 12; 0] = Some failing
    /\ has_shape2 failing 2 1855 = true
    /\ (forall g i p status, 0 <= g < 2 ->
          nth_error [0; 1; 2] i = Some p ->
          nth_error [4; 12; 0] i = Some status ->
          getitem2 failing g p
          = Some (negb (high_gain_stored status
                        || low_gain_stored status)))
    /\ (forall g p, 0 <= g < 2 -> 0 <= p < 1855 ->
                    ~ In p [0; 1; 2] ->
                    getitem2 failing g p = Some true).
Proof.
  apply (fill_mon_container_failing [0; 1; 2] [4; 12; 0]).
  - reflexivity.
  - repeat constructor; simpl; intuition lia.
  - repeat constructor; lia.
Defined.

(** ** Event types after the trigger information *)

Lemma pedestal_id_listed (pedestal_ids : list Z) (event_id : Z) :
  existsb (Z.eqb event_id) pedestal_ids = true <-> In event_id pedestal_ids.
Proof.
  rewrite existsb_exists. split.
  - intros (x & Hin & E). apply Z.eqb_eq in E. now subst.
  - intros Hin. exists event_id. split; [exact Hin | apply Z.eqb_refl].
Qed.

(** X11.  When [_generator] applies the flat-field heuristic and then the
    table of interleaved pedestals, the event ends as SKY_PEDESTAL
    exactly when its id is in the table, and as FLATFIELD exactly when
    its waveform passes the heuristic and its id is not in the table;
    otherwise a FLATFIELD from the trigger becomes UNKNOWN, a
    SKY_PEDESTAL from the trigger becomes SUBARRAY and any other type is
    kept. *)
Theorem event_type_after_tagging (min_flatfield_adc max_flatfield_adc
    min_flatfield_pixel_fraction : R) (pedestal_ids : list Z)
    (waveform : R1Waveform) (event_id : Z) (event_type : EventType.t)
    (ff : bool) :
  looks_like_ff min_flatfield_adc max_flatfield_adc
    min_flatfield_pixel_fraction waveform = Some ff ->
  exists tagged,
    tag_flatfield_events min_flatfield_adc max_flatfield_adc
      min_flatfield_pixel_fraction waveform event_type = Some tagged
    /\ (check_interleaved_pedestal pedestal_ids event_id tagged
        = EventType.SKY_PEDESTAL
        <-> In event_id pedestal_ids)
    /\ (check_interleaved_pedestal pedestal_ids event_id tagged
        = EventType.FLATFIELD
        <-> ff = true /\ ~ In event_id pedestal_ids)
    /\ (ff = false -> ~ In event_id pedestal_ids ->
        check_interleaved_pedestal pedestal_ids event_id tagged
        = match event_type with
          | EventType.FLATFIELD => EventType.UNKNOWN
          | EventType.SKY_PEDESTAL => EventType.SUBARRAY
          | other => other
          end).
Proof.
  intros Hff. unfold tag_flatfield_events. rewrite Hff. cbn [bind].
  pose proof (pedestal_id_listed pedestal_ids event_id) as Hin.
  unfold check_interleaved_pedestal.
  destruct (existsb (Z.eqb event_id) pedestal_ids) eqn:Elisted.
  - assert (In event_id pedestal_ids) by now apply Hin.
    destruct ff; [|destruct event_type]; eexists;
      (split; [reflexivity|]); cbn [event_type_eqb];
      repeat split; intros; try discriminate; try tauto;
      try (exfalso; tauto).
  - assert (~ In event_id pedestal_ids)
      by (intros Hc; apply Hin in Hc; discriminate).
    destruct ff; [|destruct event_type]; eexists;
      (split; [reflexivity|]); cbn [event_type_eqb];
      repeat split; intros; try discriminate; try tauto;
      try reflexivity;
      try match goal with H : _ /\ _ |- _ => destruct H; discriminate end.
Qed.

Lemma event_type_after_tagging_witness :
  exists tagged,
    tag_flatfield_events 100 200 (1 / 2) two_pixel_waveform
      EventType.SUBARRAY = Some tagged
    /\ (check_interleaved_pedestal [7; 9] 8 tagged = EventType.SKY_PEDESTAL
        <-> In 8 [7; 9])
    /\ (check_interleaved_pedestal [7; 9] 8 tagged = EventType.FLATFIELD
        <-> true = true /\ ~ In 8 [7; 9])
    /\ (true = false -> ~ In 8 [7; 9] ->
        check_interleaved_pedestal [7; 9] 8 tagged = EventType.SUBARRAY).
Proof.
  apply (event_type_after_tagging 100 200 (1 / 2) [7; 9]
           two_pixel_waveform 8 EventType.SUBARRAY true).
  unfold looks_like_ff, two_pixel_waveform, sum_axis1, count_nonzero.
  cbn [bind map fold_left length]. unfold Rleb.
  destruct (Rle_dec 100 (0 + 60 + 50)) as [_|H]; [|exfalso; lra].
  destruct (Rle_dec (0 + 60 + 50) 200) as [_|H]; [|exfalso; lra].
  destruct (Rle_dec 100 (0 + 1 + 1)) as [H|_]; [exfalso; lra|].
  cbn [andb filter length].
  destruct (Rle_dec (1 / 2 * INR 2) (INR 1)) as [_|H];
    [reflexivity | exfalso; simpl in H; lra].
Defined.

(** ** Reordering of the waveform by pixel id *)

Lemma length_chunks {A : Type} (rows n : nat) (flat : list A) :
  length (chunks rows n flat) = rows.
Proof.
  revert flat. induction rows as [|rows IH]; intros flat;
    cbn [chunks length]; [reflexivity|]. now rewrite IH.
Qed.

Lemma nth_error_chunks {A : Type} (rows n i : nat) (flat : list A) :
  (i < rows)%nat ->
  nth_error (chunks rows n flat) i = Some (firstn n (skipn (n * i) flat)).
Proof.
  revert i flat. induction rows as [|rows IH]; intros i flat Hi; [lia|].
  cbn [chunks]. destruct i as [|i]; cbn [nth_error].
  - rewrite Nat.mul_0_r. reflexivity.
  - rewrite IH by lia. rewrite skipn_skipn. do 3 f_equal. lia.
Qed.

Lemma Forall_chunks_length {A : Type} (rows n : nat) (flat : list A) :
  length flat = (n * rows)%nat ->
  Forall (fun row => length row = n) (chunks rows n flat).
Proof.
  intros Hlen. apply Forall_nth_error. intros i row Hi.
  assert (Hlt : (i < rows)%nat).
  { rewrite <- (length_chunks rows n flat). apply nth_error_Some.
    congruence. }
  rewrite nth_error_chunks in Hi by exact Hlt. injection Hi as <-.
  rewrite length_firstn, length_skipn. nia.
Qed.

Lemma getitem_chunk {A : Type} (n i : nat) (flat : list A) (s : Z) :
  0 <= s < Z.of_nat n ->
  (n * i + n <= length flat)%nat ->
  getitem (firstn n (skipn (n * i) flat)) s
  = getitem flat (Z.of_nat n * Z.of_nat i + s).
Proof.
  intros Hs Hlen.
  rewrite !getitem_nonneg
    by (rewrite ?length_firstn, ?length_skipn; nia).
  rewrite nth_error_firstn.
  replace (Z.to_nat s <? n)%nat with true
    by (symmetry; apply Nat.ltb_lt; lia).
  rewrite nth_error_skipn. f_equal. nia.
Qed.

Lemma gain_selected_found (statuses : list Z) (status : Z) :
  In status statuses ->
  high_gain_stored status <> low_gain_stored status ->
  existsb (fun '(l, h) => xorb l h)
    (combine
       (map (fun s => truthy (Z.land s PixelStatus.LOW_GAIN_STORED))
            statuses)
       (map (fun s => truthy (Z.land s PixelStatus.HIGH_GAIN_STORED))
            statuses))
  = true.
Proof.
  intros Hin Hne. induction statuses as [|s0 statuses IH];
    [contradiction|].
  cbn [map combine existsb]. destruct Hin as [-> | Hin].
  - unfold high_gain_stored, low_gain_stored in Hne.
    destruct (truthy (Z.land status PixelStatus.LOW_GAIN_STORED)),
      (truthy (Z.land status PixelStatus.HIGH_GAIN_STORED));
      try reflexivity; exfalso; now apply Hne.
  - rewrite (IH Hin). apply orb_true_r.
Qed.

Lemma reshape_rows_exact {A : Type} (flat : list A) (n : nat) :
  Z.of_nat (length flat) = 40 * Z.of_nat n ->
  reshape_rows flat 40 = Some (chunks n 40 flat).
Proof.
  intros Hlen. unfold reshape_rows. rewrite Hlen.
  rewrite Z.mul_comm, Z_mod_mult, Z.div_mul by lia.
  cbn [Z.ltb Z.compare Z.eqb andb]. now rewrite Nat2Z.id.
Qed.

(** X12.  For a gain-selected event with one status and 40 samples per
    pixel id, the ids distinct and below 1855, the assembly succeeds,
    fills R1 and not R0, and returns a waveform of shape (1855, 40): the
    pixel whose id stands at place i holds samples 40 i to 40 i + 39 of
    the flat waveform, and a pixel whose id does not occur holds the
    largest value of the waveform type in every sample. *)
Theorem r1_waveform_reordered (camera_config : CameraConfiguration)
    (zfits_event : ZfitsEvent) (status : Z) :
  num_samples camera_config = 40 ->
  num_pixels camera_config
  = Z.of_nat (length (expected_pixels_id camera_config)) ->
  length (pixel_status zfits_event)
  = length (expected_pixels_id camera_config) ->
  Z.of_nat (length (waveform zfits_event))
  = 40 * Z.of_nat (length (expected_pixels_id camera_config)) ->
  NoDup (expected_pixels_id camera_config) ->
  Forall (fun p => 0 <= p < 1855) (expected_pixels_id camera_config) ->
  In status (pixel_status zfits_event) ->
  high_gain_stored status <> low_gain_stored status ->
  exists wf sg,
    fill_r0r1_camera_container camera_config zfits_event
    = Some (mkR0R1 None (Some wf) (Some sg))
    /\ has_shape2 wf 1855 40 = true
    /\ (forall i p s,
           nth_error (expected_pixels_id camera_config) i = Some p ->
           0 <= s < 40 ->
           getitem2 wf p s
           = getitem (waveform zfits_event) (40 * Z.of_nat i + s))
    /\ (forall p s, 0 <= p < 1855 ->
                    ~ In p (expected_pixels_id camera_config) ->
                    0 <= s < 40 ->
                    getitem2 wf p s = Some (waveform_max zfits_event)).
Proof.
  intros Hns Hnp Hst Hwf Hnd Hrange Hin Hne.
  set (expected := expected_pixels_id camera_config) in *.
  set (n := length expected) in *.
  set (flat := waveform zfits_event) in *.
  set (fill := waveform_max zfits_event).
  assert (Hnn : Forall (fun p => 0 <= p) expected).
  { eapply Forall_impl; [|exact Hrange]. simpl. intros; lia. }
  assert (Lfull : length (full N_PIXELS (full N_SAMPLES fill)) = 1855%nat)
    by (unfold full; now rewrite repeat_length).
  assert (Lmark : length (full N_PIXELS (-1)) = 1855%nat)
    by (unfold full; now rewrite repeat_length).
  destruct (scatter_loop_some expected (chunks n 40 flat)
              (full N_PIXELS (full N_SAMPLES fill))) as [wf Ewf].
  { now rewrite length_chunks. }
  { rewrite Lfull. exact Hrange. }
  set (selected_gain :=
         map (fun h : bool => if h then 0 else 1)
           (map (fun s => truthy (Z.land s PixelStatus.HIGH_GAIN_STORED))
                (pixel_status zfits_event))).
  destruct (scatter_loop_some expected selected_gain (full N_PIXELS (-1)))
    as [sg Esg].
  { unfold selected_gain. now rewrite !length_map. }
  { rewrite Lmark. exact Hrange. }
  assert (Hrows : Forall (fun row : list Z => length row = 40%nat)
                    (chunks n 40 flat))
    by (apply Forall_chunks_length; lia).
  exists wf, sg. split; [|split; [|split]].
  - unfold fill_r0r1_camera_container. cbv beta zeta.
    rewrite (gain_selected_found _ status Hin Hne).
    rewrite Hns. fold flat. rewrite (reshape_rows_exact flat n Hwf).
    cbn [bind]. rewrite length_chunks, Hnp. fold expected. fold n.
    rewrite Z.ltb_irrefl, andb_false_r.
    unfold scatter_rows. change (40 =? N_SAMPLES) with true. cbv iota.
    fold fill. rewrite Ewf. cbn [bind].
    fold selected_gain. rewrite Esg. cbn [bind]. reflexivity.
  - apply (Shape2_has_shape2 wf 1855 40). split.
    + rewrite (scatter_loop_length _ _ _ _ Ewf), Lfull. reflexivity.
    + apply (scatter_loop_Forall
               (fun row : list Z => Z.of_nat (length row) = Z.of_nat 40)
               expected (chunks n 40 flat)
               (full N_PIXELS (full N_SAMPLES fill)) wf).
      * unfold full. apply Forall_repeat. now rewrite repeat_length.
      * eapply Forall_impl; [|exact Hrows]. simpl. intros row ->.
        reflexivity.
      * exact Ewf.
  - intros i p s Hi Hs.
    assert (Hlt : (i < n)%nat) by (apply nth_error_Some; congruence).
    unfold getitem2.
    rewrite (scatter_loop_written expected (chunks n 40 flat) _ wf i p
               (firstn 40 (skipn (40 * i) flat)) Hnd Hnn Ewf Hi)
      by (now apply nth_error_chunks).
    cbn [bind]. rewrite (getitem_chunk 40 i flat s) by lia.
    reflexivity.
  - intros p s Hp Hnot Hs. unfold getitem2.
    rewrite (scatter_loop_untouched expected (chunks n 40 flat) _ wf p
               Hnn ltac:(rewrite Lfull; exact Hp) Hnot Ewf).
    unfold full at 1.
    rewrite getitem_repeat
      by (change (Z.to_nat N_PIXELS) with 1855%nat; lia).
    cbn [bind]. unfold full. apply getitem_repeat.
    change (Z.to_nat N_SAMPLES) with 40%nat. lia.
Qed.

Lemma r1_waveform_reordered_witness :
  exists wf sg,
    fill_r0r1_camera_container shuffled_camera numbered_event
    = Some (mkR0R1 None (Some wf) (Some sg))
    /\ has_shape2 wf 1855 40 = true
    /\ (forall i p s,
           nth_error (expected_pixels_id shuffled_camera) i = Some p ->
           0 <= s < 40 ->
           getitem2 wf p s
           = getitem (waveform numbered_event) (40 * Z.of_nat i + s))
    /\ (forall p s, 0 <= p < 1855 ->
                    ~ In p (expected_pixels_id shuffled_camera) ->
                    0 <= s < 40 ->
                    getitem2 wf p s = Some (waveform_max numbered_event)).
Proof.
  apply (r1_waveform_reordered shuffled_camera numbered_event 4).
  - reflexivity.
  - reflexivity.
  - reflexivity.
  - reflexivity.
  - repeat constructor; simpl; intuition lia.
  - repeat constructor; lia.
  - simpl. auto.
  - vm_compute. discriminate.
Defined.

Lemma Forall_firstn_rows {A : Type} (P : A -> Prop) (n : nat)
    (l : list A) :
  Forall P l -> Forall P (firstn n l).
Proof.
  intros H. revert n.
  induction H as [|x l Hx Hl IH]; intros [|n]; cbn [firstn]; auto.
Qed.

Lemma Forall_skipn_rows {A : Type} (P : A -> Prop) (n : nat)
    (l : list A) :
  Forall P l -> Forall P (skipn n l).
Proof.
  intros H. revert n.
  induction H as [|x l Hx Hl IH]; intros [|n]; cbn [skipn]; auto.
Qed.

Lemma gain_selected_nowhere (statuses : list Z) :
  Forall (fun status => high_gain_stored status = low_gain_stored status)
    statuses ->
  existsb (fun '(l, h) => xorb l h)
    (combine
       (map (fun s => truthy (Z.land s PixelStatus.LOW_GAIN_STORED))
            statuses)
       (map (fun s => truthy (Z.land s PixelStatus.HIGH_GAIN_STORED))
            statuses))
  = false.
Proof.
  induction 1 as [|s0 statuses Heq _ IH]; [reflexivity|].
  cbn [map combine existsb]. rewrite IH.
  unfold high_gain_stored, low_gain_stored in Heq. rewrite Heq.
  now rewrite xorb_nilpotent.
Qed.

(** X13.  For an event in which every pixel stores both gains or none,
    with 2 x 40 samples per pixel id, the ids distinct and below 1855,
    the assembly succeeds, fills R0 and not R1, and returns a waveform of
    shape (2, 1855, 40): in gain g, the pixel whose id stands at place i
    holds the 40 samples of the flat waveform that start at
    40 (n g + i), n being the number of ids; a pixel whose id does not
    occur holds the largest value of the waveform type. *)
Theorem r0_waveform_reordered (camera_config : CameraConfiguration)
    (zfits_event : ZfitsEvent) :
  num_samples camera_config = 40 ->
  num_pixels camera_config
  = Z.of_nat (length (expected_pixels_id camera_config)) ->
  Z.of_nat (length (waveform zfits_event))
  = 40 * Z.of_nat (2 * length (expected_pixels_id camera_config)) ->
  NoDup (expected_pixels_id camera_config) ->
  Forall (fun p => 0 <= p < 1855) (expected_pixels_id camera_config) ->
  Forall (fun status => high_gain_stored status = low_gain_stored status)
    (pixel_status zfits_event) ->
  exists wf,
    fill_r0r1_camera_container camera_config zfits_event
    = Some (mkR0R1 (Some wf) None None)
    /\ has_shape3 wf 2 1855 40 = true
    /\ (forall g i p s, 0 <= g < 2 ->
           nth_error (expected_pixels_id camera_config) i = Some p ->
           0 <= s < 40 ->
           getitem3 wf g p s
           = getitem (waveform zfits_event)
               (40 * (Z.of_nat (length (expected_pixels_id camera_config))
                      * g + Z.of_nat i) + s))
    /\ (forall g p s, 0 <= g < 2 -> 0 <= p < 1855 ->
                      ~ In p (expected_pixels_id camera_config) ->
                      0 <= s < 40 ->
                      getitem3 wf g p s = Some (waveform_max zfits_event)).
Proof.
  intros Hns Hnp Hwf Hnd Hrange Hboth.
  set (expected := expected_pixels_id camera_config) in *.
  set (n := length expected) in *.
  set (flat := waveform zfits_event) in *.
  set (fill := waveform_max zfits_event).
  set (rows := chunks (2 * n) 40 flat).
  assert (Hnn : Forall (fun p => 0 <= p) expected).
  { eapply Forall_impl; [|exact Hrange]. simpl. intros; lia. }
  assert (Lfull : length (full N_PIXELS (full N_SAMPLES fill)) = 1855%nat)
    by (unfold full; now rewrite repeat_length).
  assert (Lrows : length rows = (2 * n)%nat) by apply length_chunks.
  assert (Hrows : Forall (fun row : list Z => length row = 40%nat) rows)
    by (apply Forall_chunks_length; lia).
  set (rows0 := firstn n rows).
  set (rows1 := firstn n (skipn n rows)).
  assert (Hplane : forall src,
            length src = n ->
            Forall (fun row : list Z => length row = 40%nat) src ->
            exists plane,
              scatter_loop (full N_PIXELS (full N_SAMPLES fill)) expected
                src = Some plane
              /\ has_shape2 plane 1855 40 = true
              /\ (forall i p row, nth_error expected i = Some p ->
                    nth_error src i = Some row ->
                    getitem plane p = Some row)
              /\ (forall p, 0 <= p < 1855 -> ~ In p expected ->
                    getitem plane p = Some (full N_SAMPLES fill))).
  { intros src Lsrc Hsrc.
    destruct (scatter_loop_some expected src
                (full N_PIXELS (full N_SAMPLES fill)) Lsrc)
      as [plane Eplane].
    { rewrite Lfull. exact Hrange. }
    exists plane. split; [exact Eplane|]. split; [|split].
    - apply (Shape2_has_shape2 plane 1855 40). split.
      + rewrite (scatter_loop_length _ _ _ _ Eplane), Lfull. reflexivity.
      + apply (scatter_loop_Forall
                 (fun row : list Z => Z.of_nat (length row) = Z.of_nat 40)
                 expected src (full N_PIXELS (full N_SAMPLES fill)) plane).
        * unfold full. apply Forall_repeat. now rewrite repeat_length.
        * eapply Forall_impl; [|exact Hsrc]. simpl. intros row ->.
          reflexivity.
        * exact Eplane.
    - intros i p row Hi Hrow.
      exact (scatter_loop_written expected src _ plane i p row Hnd Hnn
               Eplane Hi Hrow).
    - intros p Hp Hnot.
      rewrite (scatter_loop_untouched expected src _ plane p Hnn
                 ltac:(rewrite Lfull; exact Hp) Hnot Eplane).
      unfold full at 1. apply getitem_repeat.
      change (Z.to_nat N_PIXELS) with 1855%nat. lia. }
  destruct (Hplane rows0) as (plane0 & E0 & S0 & W0 & U0).
  { unfold rows0. rewrite length_firstn. lia. }
  { unfold rows0. now apply Forall_firstn_rows. }
  destruct (Hplane rows1) as (plane1 & E1 & S1 & W1 & U1).
  { unfold rows1. rewrite length_firstn, length_skipn. lia. }
  { unfold rows1. now apply Forall_firstn_rows, Forall_skipn_rows. }
  assert (Hrow : forall g i, 0 <= g < 2 -> (i < n)%nat ->
            nth_error (if g =? 0 then rows0 else rows1) i
            = Some (firstn 40
                      (skipn (40 * (n * Z.to_nat g + i)) flat))).
  { intros g i Hg Hi. assert (Hc : g = 0 \/ g = 1) by lia.
    destruct Hc as [-> | ->]; cbn [Z.eqb Z.to_nat Pos.to_nat
                                   Pos.iter_op Nat.add].
    - unfold rows0. rewrite nth_error_firstn.
      replace (i <? n)%nat with true by (symmetry; apply Nat.ltb_lt; lia).
      unfold rows. rewrite nth_error_chunks by lia.
      do 3 f_equal. lia.
    - unfold rows1. rewrite nth_error_firstn.
      replace (i <? n)%nat with true by (symmetry; apply Nat.ltb_lt; lia).
      rewrite nth_error_skipn. unfold rows.
      rewrite nth_error_chunks by lia. do 3 f_equal. lia. }
  assert (Eget : forall g p s, 0 <= g < 2 ->
            getitem3 [plane0; plane1] g p s
            = (row <- getitem (if g =? 0 then plane0 else plane1) p ;;
               getitem row s)).
  { intros g p s Hg. assert (Hc : g = 0 \/ g = 1) by lia.
    destruct Hc as [-> | ->]; reflexivity. }
  exists [plane0; plane1]. split; [|split; [|split]].
  - unfold fill_r0r1_camera_container. cbv beta zeta.
    rewrite (gain_selected_nowhere _ Hboth).
    rewrite Hns. fold flat.
    rewrite (reshape_rows_exact flat (2 * n) Hwf). cbn [bind].
    rewrite length_chunks, Hnp. fold expected. fold n.
    replace (Z.of_nat (2 * n) =? N_GAINS * Z.of_nat n) with true
      by (symmetry; apply Z.eqb_eq; unfold N_GAINS; lia).
    change (Z.to_nat N_GAINS) with 2%nat. rewrite Nat2Z.id.
    fold rows. cbn [chunks for_each]. fold rows0. fold rows1.
    unfold scatter_rows. change (40 =? N_SAMPLES) with true. cbv iota.
    fold fill. rewrite E0. cbn [bind]. rewrite E1. cbn [bind app].
    reflexivity.
  - unfold has_shape3. cbn [length forallb]. rewrite S0, S1. reflexivity.
  - intros g i p s Hg Hi Hs.
    assert (Hlt : (i < n)%nat) by (apply nth_error_Some; congruence).
    rewrite Eget by exact Hg.
    assert (Hc : g = 0 \/ g = 1) by lia.
    destruct Hc as [-> | ->]; cbn [Z.eqb].
    + rewrite (W0 i p _ Hi (Hrow 0 i ltac:(lia) Hlt)). cbn [bind].
      rewrite (getitem_chunk 40 _ flat s) by (simpl; lia).
      f_equal. change (Z.to_nat 0) with 0%nat.
      change (Z.to_nat 1) with 1%nat. change (Z.of_nat 40) with 40. lia.
    + rewrite (W1 i p _ Hi (Hrow 1 i ltac:(lia) Hlt)). cbn [bind].
      rewrite (getitem_chunk 40 _ flat s) by (simpl; lia).
      f_equal. change (Z.to_nat 0) with 0%nat.
      change (Z.to_nat 1) with 1%nat. change (Z.of_nat 40) with 40. lia.
  - intros g p s Hg Hp Hnot Hs. rewrite Eget by exact Hg.
    assert (Hc : g = 0 \/ g = 1) by lia.
    destruct Hc as [-> | ->]; cbn [Z.eqb];
      rewrite ?(U0 p Hp Hnot), ?(U1 p Hp Hnot); cbn [bind];
      unfold full; apply getitem_repeat;
      change (Z.to_nat N_SAMPLES) with 40%nat; lia.
Qed.

Lemma r0_waveform_reordered_witness :
  exists wf,
    fill_r0r1_camera_container shuffled_camera numbered_event_both_gains
    = Some (mkR0R1 (Some wf) None None)
    /\ has_shape3 wf 2 1855 40 = true
    /\ (forall g i p s, 0 <= g < 2 ->
           nth_error (expected_pixels_id shuffled_camera) i = Some p ->
           0 <= s < 40 ->
           getitem3 wf g p s
           = getitem (waveform numbered_event_both_gains)
               (40 * (Z.of_nat (length (expected_pixels_id shuffled_camera))
                      * g + Z.of_nat i) + s))
    /\ (forall g p s, 0 <= g < 2 -> 0 <= p < 1855 ->
                      ~ In p (expected_pixels_id shuffled_camera) ->
                      0 <= s < 40 ->
                      getitem3 wf g p s
                      = Some (waveform_max numbered_event_both_gains)).
Proof.
  apply (r0_waveform_reordered shuffled_camera numbered_event_both_gains).
  - reflexivity.
  - reflexivity.
  - reflexivity.
  - repeat constructor; simpl; intuition lia.
  - repeat constructor; lia.
  - repeat constructor.
Defined.

(** ** The merger while it is read *)

Module MultiFilesReading.
Import MultiFiles MultiFilesSpec MultiFilesFacts.




Lemma min_item_first (items : list (string * Event)) :
  forall scanned_before best scanned_after,
    Forall (fun item => event_id (snd best) < event_id (snd item))
      scanned_before ->
    Forall (fun item => event_id (snd best) <= event_id (snd item))
      scanned_after ->
    exists before after,
      scanned_before ++ best :: scanned_after ++ items
      = before ++ min_item best items :: after
      /\ Forall (fun item => event_id (snd (min_item best items))
                             < event_id (snd item)) before
      /\ Forall (fun item => event_id (snd (min_item best items))
                             <= event_id (snd item)) after.
Proof.
  induction items as [|item items IH]; intros pre best mid Hpre Hmid;
    cbn [min_item].
  - exists pre, mid. rewrite app_nil_r. auto.
  - destruct (Z.ltb_spec (event_id (snd item)) (event_id (snd best)))
      as [Hlt|Hge].
    + destruct (IH (pre ++ best :: mid) item []) as (b & a & E & Hb & Ha).
      * apply Forall_app. split; [|constructor].
        -- eapply Forall_impl; [|exact Hpre]. simpl. intros; lia.
        -- exact Hlt.
        -- eapply Forall_impl; [|exact Hmid]. simpl. intros; lia.
      * constructor.
      * exists b, a. split; [|auto].
        rewrite <- E. cbn [app]. now rewrite <- app_assoc.
    + destruct (IH pre best (mid ++ [item])) as (b & a & E & Hb & Ha).
      * exact Hpre.
      * apply Forall_app. split; [exact Hmid|]. constructor; [lia|].
        constructor.
      * exists b, a. split; [|auto].
        rewrite <- E. now rewrite <- app_assoc.
Qed.

Lemma dict_get_unique {V : Type} (d : list (string * V)) (k : string)
    (v : V) :
  NoDup (keys d) -> In (k, v) d -> dict_get d k = Some v.
Proof.
  induction d as [|[k' v'] d IH]; intros Hnd Hin; [contradiction|].
  cbn [dict_get]. cbn [keys map fst] in Hnd. inversion Hnd; subst.
  destruct Hin as [[= -> ->] | Hin].
  - now rewrite String.eqb_refl.
  - destruct (String.eqb_spec k' k) as [->|Hne]; [|now apply IH].
    exfalso. match goal with H : ~ In _ _ |- _ => apply H end.
    change (In (fst (k, v)) (map fst d)). now apply in_map.
Qed.

End MultiFilesReading.


(** X15.  [next_event] breaks ties by the order of the cursors: it
    returns the first cursor, in the order of the dictionary, among those
    of least event id, so every cursor before it has a strictly larger
    id and every cursor after it an id at least as large. *)
Theorem next_event_first_of_least (mf mf' : MultiFiles.t)
    (ev : MultiFiles.Event) :
  NoDup (MultiFiles.keys (MultiFiles._events (MultiFiles.tables mf))) ->
  MultiFiles.next_event mf = MultiFiles.Ok (ev, mf') ->
  exists path before after,
    MultiFiles._events (MultiFiles.tables mf)
    = before ++ (path, ev) :: after
    /\ Forall (fun item => MultiFiles.event_id ev
                           < MultiFiles.event_id (snd item)) before
    /\ Forall (fun item => MultiFiles.event_id ev
                           <= MultiFiles.event_id (snd item)) after.
Proof.
  intros Hnd. unfold MultiFiles.next_event.
  destruct (MultiFiles._events (MultiFiles.tables mf))
    as [|first others] eqn:Ecur; [discriminate|].
  destruct (MultiFilesReading.min_item_first others [] first [])
    as (before & after & E & Hb & Ha); [constructor | constructor|].
  cbn [app] in E.
  destruct (MultiFiles.min_item first others) as [path e] eqn:Emin.
  cbn [fst snd] in *.
  rewrite (MultiFilesReading.dict_get_unique (first :: others) path e Hnd)
    by (rewrite E; apply in_elt).
  destruct (MultiFiles.dict_get _ path) as [f|]; [|discriminate].
  destruct (MultiFiles.next (MultiFiles.Events f)) as [[x events']|];
    intros [= <- <-]; exists path, before, after; auto.
Qed.

Lemma next_event_first_of_least_witness :
  exists path before after,
    MultiFiles._events (MultiFiles.tables tied_cursors)
    = before ++ (path, MultiFiles.mkEvent 7 0) :: after
    /\ Forall (fun item => MultiFiles.event_id (MultiFiles.mkEvent 7 0)
                           < MultiFiles.event_id (snd item)) before
    /\ Forall (fun item => MultiFiles.event_id (MultiFiles.mkEvent 7 0)
                           <= MultiFiles.event_id (snd item)) after.
Proof.
  eapply (next_event_first_of_least tied_cursors).
  - repeat constructor; simpl; intuition discriminate.
  - reflexivity.
Defined.

(** ** The size of the time-lapse correction *)

Lemma pow_100_22 : (100 ^ 22 < 2.772 ^ 100)%R.
Proof.
  replace 2.772%R with (IZR 2772 / IZR 1000)%R by lra.
  unfold Rdiv. rewrite Rpow_mult_distr, pow_inv.
  apply (Rmult_lt_reg_r (IZR 1000 ^ 100)).
  - apply pow_lt. lra.
  - rewrite Rmult_assoc, Rinv_l, Rmult_1_r.
    + rewrite !pow_IZR, <- mult_IZR. apply IZR_lt. vm_compute.
      reflexivity.
    + apply pow_nonzero. lra.
Qed.

Lemma Rpower_100_bound : (Rpower 100 0.22 < 2.772)%R.
Proof.
  apply Rnot_le_lt. intros H.
  assert (H1 : (2.772 ^ 100 <= Rpower 100 0.22 ^ 100)%R)
    by (apply pow_incr; split; [lra | exact H]).
  rewrite <- (Rpower_pow 100 (Rpower 100 0.22)) in H1 by apply exp_pos.
  rewrite Rpower_mult in H1.
  replace (0.22 * INR 100)%R with (INR 22) in H1
    by (rewrite !INR_IZR_INZ; simpl; lra).
  rewrite Rpower_pow in H1 by lra.
  pose proof pow_100_22. lra.
Qed.

(** The power law is positive below 100 ms. *)
Lemma ped_time_positive (timediff : R) :
  (0 < timediff < 100)%R ->
  exists ped, ped_time timediff = Finite ped /\ (0 < ped)%R.
Proof.
  intros [H0 H1]. rewrite ped_time_finite by lra.
  eexists. split; [reflexivity|].
  assert (Hlt : (Rpower timediff 0.22 < Rpower 100 0.22)%R)
    by (apply Rlt_Rpower_l; lra).
  assert (Hpos : (0 < Rpower timediff 0.22)%R) by apply exp_pos.
  replace (-0.22)%R with (Ropp 0.22) by lra.
  rewrite Rpower_Ropp.
  pose proof Rpower_100_bound as Hb.
  assert (Hinv : (/ 2.772 < / Rpower timediff 0.22)%R).
  { apply Rinv_lt_contravar; [|lra]. apply Rmult_lt_0_compat; lra. }
  lra.
Qed.

Lemma time_diff_ms_nonneg (time_now prev : Z) :
  (0 <= time_diff_ms time_now prev)%R.
Proof.
  unfold time_diff_ms, uint64, CLOCK_FREQUENCY_KHZ.
  assert (H : 0 <= (time_now - prev) mod 2 ^ 64)
    by (apply Z.mod_pos_bound; lia).
  apply IZR_le in H. apply Rmult_le_pos; [exact H|].
  apply Rlt_le, Rinv_0_lt_compat. lra.
Qed.

Lemma clamped_difference_bounds (old : R) (timediff : R) :
  (0 <= timediff < 100)%R ->
  (0 <= old -> 0 <= clamped_difference old (ped_time timediff) <= old)%R
  /\ (old < 0 -> clamped_difference old (ped_time timediff) = 0)%R.
Proof.
  intros [H0 H1]. destruct (Req_dec_T timediff 0) as [->|Hne].
  - unfold ped_time. destruct (Req_dec_T 0 0) as [_|Hc]; [|contradiction].
    simpl. split; intros; lra.
  - destruct (ped_time_positive timediff) as (ped & -> & Hped); [lra|].
    simpl. unfold Rmax.
    destruct (Rle_dec (old - ped) 0); split; intros; lra.
Qed.

(** X16.  The time-lapse kernel never raises a sample that is not
    negative: on a 40-sample waveform and a 4096-entry last-readout row it
    returns 40 samples with 0 <= new <= old wherever old >= 0, because
    the power law is positive below 100 ms; a negative sample is left as
    it is or set to 0, and a sample whose capacitor was never read
    (last readout 0 or less) is left as it is. *)
Theorem timelapse_correction_lowers (waveform : list R)
    (first_capacitor time_now : Z) (last_readout_time : list Z) :
  length waveform = 40%nat ->
  length last_readout_time = 4096%nat ->
  exists waveform',
    apply_timelapse_correction_pixel waveform first_capacitor time_now
      last_readout_time = Some waveform'
    /\ length waveform' = 40%nat
    /\ forall s, 0 <= s < 40 ->
         exists old prev new,
           getitem waveform s = Some old
           /\ getitem last_readout_time ((first_capacitor + s) mod 4096)
              = Some prev
           /\ getitem waveform' s = Some new
           /\ (0 <= old -> 0 <= new <= old)%R
           /\ (old < 0 -> new = old \/ new = 0)%R
           /\ (prev <= 0 -> new = old).
Proof.
  intros Hlen Hlrt.
  destruct (apply_timelapse_correction_pixel_spec waveform first_capacitor
              time_now last_readout_time Hlen Hlrt)
    as (wf' & E & L & Hspec).
  exists wf'. split; [exact E|]. split; [exact L|].
  intros s Hs.
  destruct (Hspec s Hs) as (old & prev & new & H1 & H2 & H3 & Hc1 & Hc2).
  exists old, prev, new.
  split; [exact H1|]. split; [exact H2|]. split; [exact H3|].
  pose proof (time_diff_ms_nonneg time_now prev) as Hdt.
  destruct (Z_lt_dec 0 prev) as [Hprev|Hprev].
  - destruct (Rlt_dec (time_diff_ms time_now prev) 100) as [Hlt|Hge].
    + rewrite (Hc1 (conj Hprev Hlt)).
      destruct (clamped_difference_bounds old (time_diff_ms time_now prev)
                  (conj Hdt Hlt)) as [Ha Hb].
      split; [exact Ha|]. split; [intros Ho; right; now apply Hb | lia].
    + rewrite Hc2 by tauto.
      split; [intros; lra|]. split; [now left | reflexivity].
  - rewrite Hc2 by tauto.
    split; [intros; lra|]. split; [now left | reflexivity].
Qed.

Lemma timelapse_correction_lowers_witness :
  exists waveform',
    apply_timelapse_correction_pixel (repeat 5%R 40) 0 134000
      one_capacitor_read = Some waveform'
    /\ length waveform' = 40%nat
    /\ forall s, 0 <= s < 40 ->
         exists old prev new,
           getitem (repeat 5%R 40) s = Some old
           /\ getitem one_capacitor_read ((0 + s) mod 4096) = Some prev
           /\ getitem waveform' s = Some new
           /\ (0 <= old -> 0 <= new <= old)%R
           /\ (old < 0 -> new = old \/ new = 0)%R
           /\ (prev <= 0 -> new = old).
Proof.
  apply (timelapse_correction_lowers (repeat 5%R 40) 0 134000
           one_capacitor_read); reflexivity.
Defined.

(** ** The time-lapse stage, pixel by pixel *)

Lemma NoDup_getitem {A : Type} (l : list A) (i j : Z) (x : A) :
  NoDup l -> 0 <= i < Z.of_nat (length l) -> 0 <= j < Z.of_nat (length l) ->
  getitem l i = Some x -> getitem l j = Some x -> i = j.
Proof.
  intros Hnd Hi Hj Ei Ej.
  rewrite getitem_nonneg in Ei, Ej by assumption.
  assert (Z.to_nat i = Z.to_nat j).
  { apply (proj1 (NoDup_nth_error l) Hnd); [|congruence].
    apply nth_error_Some. congruence. }
  lia.
Qed.

Section TimelapsePixelwise.
Variable LAST_RUN_WITH_OLD_FIRMWARE : Z.
Variable np : Z.
Variable waveform0 : list (list (list R)).
Variable last_readout_time0 : list (list (list Z)).
Variable local_clock_counter : list Z.
Variable first_capacitors : list (list Z).
Variable expected_pixels_id : list Z.
Variable run_id : Z.

Let st0 : TimelapseState := mkTimelapseState waveform0 last_readout_time0.
Let n_modules : Z := Z.of_nat (length expected_pixels_id) / N_PIXELS_MODULE.
Let progress : Z -> Z -> TimelapseState -> Prop :=
  slots_done LAST_RUN_WITH_OLD_FIRMWARE np waveform0 last_readout_time0
    local_clock_counter first_capacitors expected_pixels_id run_id.

Hypothesis shapes0 : TimelapseShapes np st0.
Hypothesis first_capacitors_shape : Shape2 first_capacitors 2 np.
Hypothesis expected_in_range :
  Forall (fun p => 0 <= p < np) expected_pixels_id.
Hypothesis expected_distinct : NoDup expected_pixels_id.
Hypothesis clocks : n_modules <= Z.of_nat (length local_clock_counter).

Lemma n_modules_bound :
    0 <= n_modules /\ 7 * n_modules <= Z.of_nat (length expected_pixels_id).
  Proof.
    unfold n_modules, N_PIXELS_MODULE. split.
    - apply Z.div_pos; lia.
    - Z.div_mod_to_equations. lia.
  Qed.

Lemma timelapse_slot_step (G M K : Z) (time_now : Z) (st : TimelapseState) :
    0 <= G < 2 -> 0 <= M < n_modules -> 0 <= K < 7 ->
    getitem local_clock_counter M = Some time_now ->
    progress G (7 * M + K) st ->
    exists st',
      apply_timelapse_correction_slot LAST_RUN_WITH_OLD_FIRMWARE
        first_capacitors expected_pixels_id run_id G M time_now st K
      = Some st'
      /\ progress G (7 * M + K + 1) st'.
  Proof.
    intros HG HM HK Hclock (Hshapes & Hdone & Hrest).
    destruct n_modules_bound as [Hn0 Hn7].
    pose proof Hshapes as (Hws & Hwr & Hls & Hlr).
    unfold apply_timelapse_correction_slot.
    replace (M * N_PIXELS_MODULE + K) with (7 * M + K)
      by (unfold N_PIXELS_MODULE; lia).
    assert (Hidx : 0 <= 7 * M + K < Z.of_nat (length expected_pixels_id))
      by lia.
    destruct (getitem_some expected_pixels_id (7 * M + K) Hidx)
      as [p0 Ep0].
    assert (Hp0 : 0 <= p0 < np)
      by exact (Forall_getitem _ _ _ _ expected_in_range Ep0).
    rewrite Ep0. cbn [bind].
    destruct (getitem2_some _ _ _ G p0 Hws HG Hp0) as [wrow Ewrow].
    destruct (getitem2_some _ _ _ G p0 first_capacitors_shape HG Hp0)
      as [fc Efc].
    destruct (getitem2_some _ _ _ G p0 Hls HG Hp0) as [lrow Elrow].
    pose proof (All2_getitem2 _ _ _ _ _ Hwr Ewrow) as Hwlen.
    pose proof (All2_getitem2 _ _ _ _ _ Hlr Elrow) as Hllen.
    simpl in Hwlen, Hllen.
    rewrite Ewrow, Efc, Elrow. cbn [bind].
    destruct (apply_timelapse_correction_pixel_spec wrow fc time_now lrow)
      as (wrow' & Ew' & Lw' & _); [lia | lia |].
    rewrite Ew'. cbn [bind].
    destruct (setitem2_spec (waveform_of st) 2 np G p0 wrow'
                Hws HG Hp0) as (wf' & Ewf' & Hws' & Hwget & Hwother & Hwall).
    rewrite Ewf'. cbn [bind].
    assert (Hup : exists lrow',
               update_last_readout_time_of_run LAST_RUN_WITH_OLD_FIRMWARE
                 run_id K fc time_now lrow = Some lrow'
               /\ length lrow' = 4096%nat).
    { unfold update_last_readout_time_of_run.
      destruct (LAST_RUN_WITH_OLD_FIRMWARE <? run_id).
      - destruct (update_last_readout_time_spec K fc time_now lrow)
          as (l' & E & L & _); [lia|]. exists l'. split; [exact E | lia].
      - destruct (update_last_readout_time_old_firmware_spec K fc time_now
                    lrow) as (l' & E & L & _); [lia|].
        exists l'. split; [exact E | lia]. }
    destruct Hup as (lrow' & El' & Ll').
    unfold update_last_readout_time_of_run in El'. rewrite El'.
    cbn [bind].
    destruct (setitem2_spec (last_readout_time_of st) 2 np G p0 lrow'
                Hls HG Hp0) as (lr' & Elr' & Hls' & Hlget & Hlother & Hlall).
    rewrite Elr'. cbn [bind].
    eexists. split; [reflexivity|].
    assert (Hother : forall g p, 0 <= g < 2 -> 0 <= p < np ->
              (g, p) <> (G, p0) ->
              pixel_rows (mkTimelapseState wf' lr') g p
              = pixel_rows st g p).
    { intros g p Hg Hp Hne. unfold pixel_rows.
      cbn [waveform_of last_readout_time_of].
      now rewrite Hwother, Hlother by assumption. }
    assert (Horig : pixel_rows st G p0 = pixel_rows st0 G p0).
    { apply (Hdone G (7 * M + K) p0 HG ltac:(lia) Ep0). lia. }
    unfold pixel_rows in Horig.
    cbn [st0 waveform_of last_readout_time_of] in Horig.
    injection Horig as Hw0 Hl0.
    split; [|split].
    - repeat split; cbn [waveform_of last_readout_time_of];
        try apply Hws'; try apply Hls'.
      + apply Hwall; [exact Hwr|]. simpl. lia.
      + apply Hlall; [exact Hlr|]. simpl. lia.
    - intros g i p Hg Hi Ep.
      assert (Hp : 0 <= p < np)
        by exact (Forall_getitem _ _ _ _ expected_in_range Ep).
      destruct (Z.eq_dec i (7 * M + K)) as [->|Hi'].
      + assert (p = p0) by congruence. subst p.
        destruct (Z.eq_dec g G) as [->|HgG].
        * split; [intros _ | intros Hn; exfalso; apply Hn; lia].
          exists wrow, fc, lrow, time_now.
          unfold pixel_rows. cbn [fst snd waveform_of last_readout_time_of].
          replace ((7 * M + K) / 7) with M
            by (Z.div_mod_to_equations; lia).
          replace ((7 * M + K) mod 7) with K
            by (Z.div_mod_to_equations; lia).
          rewrite <- Hw0, <- Hl0, Hwget, Hlget, Ew'.
          unfold update_last_readout_time_of_run. rewrite El'. auto 10.
        * rewrite Hother by (try assumption; congruence).
          destruct (Hdone g (7 * M + K) p0 Hg Hi Ep) as [Ha Hb].
          split; intros Hc; [apply Ha | apply Hb]; lia.
      + assert (Hpp : p <> p0).
        { intros ->. apply Hi'.
          apply (NoDup_getitem expected_pixels_id i (7 * M + K) p0);
            try assumption; lia. }
        rewrite Hother by (try assumption; congruence).
        destruct (Hdone g i p Hg Hi Ep) as [Ha Hb].
        split; intros Hc; [apply Ha | apply Hb]; lia.
    - intros g p Hg Hp Hnone.
      rewrite Hother; [now apply Hrest | assumption | assumption |].
      intros [= -> ->]. apply (Hnone (7 * M + K)); [lia | exact Ep0].
  Qed.

Lemma timelapse_loops :
    exists st',
      apply_timelapse_correction LAST_RUN_WITH_OLD_FIRMWARE waveform0
        local_clock_counter first_capacitors last_readout_time0
        expected_pixels_id run_id = Some st'
      /\ progress 2 0 st'.
  Proof.
    destruct n_modules_bound as [Hn0 Hn7].
    unfold apply_timelapse_correction. fold n_modules. fold st0.
    apply (for_each_range (fun G st => progress G 0 st)).
    - unfold N_GAINS. lia.
    - split; [exact shapes0|]. split.
      + intros g i p Hg Hi Ep. split; [lia | reflexivity].
      + reflexivity.
    - intros G st HG HInv. unfold N_GAINS in HG.
      destruct (for_each_range (fun M st => progress G (7 * M) st)
                  (fun st module =>
                     time_now <- getitem local_clock_counter module ;;
                     for_each (range N_PIXELS_MODULE)
                       (apply_timelapse_correction_slot
                          LAST_RUN_WITH_OLD_FIRMWARE first_capacitors
                          expected_pixels_id run_id G module time_now) st)
                  n_modules st Hn0) as (st1 & E1 & H1).
      + exact HInv.
      + intros M st2 HM HInv2.
        destruct (getitem_some local_clock_counter M) as [time_now Et];
          [lia|].
        rewrite Et. cbn [bind].
        destruct (for_each_range
                    (fun K st => progress G (7 * M + K) st)
                    (apply_timelapse_correction_slot
                       LAST_RUN_WITH_OLD_FIRMWARE first_capacitors
                       expected_pixels_id run_id G M time_now)
                    N_PIXELS_MODULE st2) as (st3 & E3 & H3).
        * unfold N_PIXELS_MODULE. lia.
        * now rewrite Z.add_0_r.
        * intros K st4 HK HInv4. unfold N_PIXELS_MODULE in HK.
          destruct (timelapse_slot_step G M K time_now st4 HG HM HK Et
                      HInv4) as (st5 & E5 & H5).
          exists st5. split; [exact E5|].
          now rewrite <- Z.add_assoc in H5.
        * exists st3. split; [exact E3|].
          unfold N_PIXELS_MODULE in H3.
          now replace (7 * (M + 1)) with (7 * M + 7) by lia.
      + exists st1. split; [exact E1|].
        destruct H1 as (Hs & Hd & Hr). split; [exact Hs|].
        split; [|exact Hr].
        intros g i p Hg Hi Ep. destruct (Hd g i p Hg Hi Ep) as [Ha Hb].
        split; intros Hc; [apply Ha | apply Hb]; lia.
  Qed.

End TimelapsePixelwise.

(** X17.  On a waveform of shape (2, np, 40), last readout times of shape
    (2, np, 4096) and first capacitors of shape (2, np), with distinct
    pixel ids below np and a clock for every module,
    [apply_timelapse_correction] succeeds and treats every pixel once per
    gain, from the rows it had before the event: the pixel whose id
    stands at place 7 m + k gets the waveform row that
    [apply_timelapse_correction_pixel] computes with the clock of module
    m, and the last-readout row that the update of the run's firmware
    computes for pixel k of a module; a pixel whose id stands at no such
    place keeps both rows. *)
Theorem apply_timelapse_correction_pixelwise
    (LAST_RUN_WITH_OLD_FIRMWARE : Z) (np : nat)
    (waveform : list (list (list R))) (local_clock_counter : list Z)
    (first_capacitors : list (list Z))
    (last_readout_time : list (list (list Z)))
    (expected_pixels_id : list Z) (run_id : Z) :
  has_shape3 waveform 2 np 40 = true ->
  has_shape2 first_capacitors 2 np = true ->
  has_shape3 last_readout_time 2 np 4096 = true ->
  NoDup expected_pixels_id ->
  Forall (fun p => 0 <= p < Z.of_nat np) expected_pixels_id ->
  Z.of_nat (length expected_pixels_id) / 7
  <= Z.of_nat (length local_clock_counter) ->
  exists st',
    apply_timelapse_correction LAST_RUN_WITH_OLD_FIRMWARE waveform
      local_clock_counter first_capacitors last_readout_time
      expected_pixels_id run_id = Some st'
    /\ (forall g m k p, 0 <= g < 2 ->
          0 <= m < Z.of_nat (length expected_pixels_id) / 7 ->
          0 <= k < 7 ->
          getitem expected_pixels_id (7 * m + k) = Some p ->
          exists wrow fc lrow time_now,
            getitem2 waveform g p = Some wrow
            /\ getitem2 first_capacitors g p = Some fc
            /\ getitem2 last_readout_time g p = Some lrow
            /\ getitem local_clock_counter m = Some time_now
            /\ getitem2 (waveform_of st') g p
               = apply_timelapse_correction_pixel wrow fc time_now lrow
            /\ getitem2 (last_readout_time_of st') g p
               = if LAST_RUN_WITH_OLD_FIRMWARE <? run_id
                 then update_last_readout_time k fc time_now lrow
                 else update_last_readout_time_old_firmware k fc time_now
                        lrow)
    /\ (forall g p, 0 <= g < 2 -> 0 <= p < Z.of_nat np ->
          (forall i,
              0 <= i < 7 * (Z.of_nat (length expected_pixels_id) / 7) ->
              getitem expected_pixels_id i <> Some p) ->
          getitem2 (waveform_of st') g p = getitem2 waveform g p
          /\ getitem2 (last_readout_time_of st') g p
             = getitem2 last_readout_time g p).
Proof.
  intros Hwf Hfc Hlrt Hnd Hrange Hclock.
  apply has_shape3_Shape2 in Hwf as [Hws Hwr].
  apply has_shape3_Shape2 in Hlrt as [Hls Hlr].
  apply has_shape2_Shape2 in Hfc.
  change (Z.of_nat 2) with 2 in *. change (Z.of_nat 40) with 40 in *.
  change (Z.of_nat 4096) with 4096 in *.
  assert (Hshapes : TimelapseShapes (Z.of_nat np)
                      (mkTimelapseState waveform last_readout_time))
    by exact (conj Hws (conj Hwr (conj Hls Hlr))).
  destruct (timelapse_loops LAST_RUN_WITH_OLD_FIRMWARE (Z.of_nat np)
              waveform last_readout_time local_clock_counter
              first_capacitors expected_pixels_id run_id
              Hshapes Hfc Hrange Hnd Hclock)
    as (st' & E & _ & Hdone & Hrest).
  exists st'. split; [exact E|]. split.
  - intros g m k p Hg Hm Hk Ep.
    destruct (Hdone g (7 * m + k) p Hg) as [Hres _];
      [unfold N_PIXELS_MODULE; lia | exact Ep |].
    destruct Hres as (wrow & fc & lrow & t & H1 & H2 & H3 & H4 & H5 & H6);
      [lia|].
    replace ((7 * m + k) / 7) with m in H4
      by (Z.div_mod_to_equations; lia).
    replace ((7 * m + k) mod 7) with k in H6
      by (Z.div_mod_to_equations; lia).
    exists wrow, fc, lrow, t. auto 10.
  - intros g p Hg Hp Hnone.
    pose proof (Hrest g p Hg Hp Hnone) as Hrows.
    unfold pixel_rows in Hrows.
    cbn [waveform_of last_readout_time_of] in Hrows.
    injection Hrows as -> ->. auto.
Qed.

Lemma apply_timelapse_correction_pixelwise_witness :
  exists st',
    apply_timelapse_correction 1574 (ten_pixels (repeat 5%R 40)) [134000]
      (ten_pixels 1000) (ten_pixels (repeat 0 4096)) one_module_pixel_ids
      2008 = Some st'
    /\ (forall g m k p, 0 <= g < 2 ->
          0 <= m < Z.of_nat (length one_module_pixel_ids) / 7 ->
          0 <= k < 7 ->
          getitem one_module_pixel_ids (7 * m + k) = Some p ->
          exists wrow fc lrow time_now,
            getitem2 (ten_pixels (repeat 5%R 40)) g p = Some wrow
            /\ getitem2 (ten_pixels 1000) g p = Some fc
            /\ getitem2 (ten_pixels (repeat 0 4096)) g p = Some lrow
            /\ getitem [134000] m = Some time_now
            /\ getitem2 (waveform_of st') g p
               = apply_timelapse_correction_pixel wrow fc time_now lrow
            /\ getitem2 (last_readout_time_of st') g p
               = if 1574 <? 2008
                 then update_last_readout_time k fc time_now lrow
                 else update_last_readout_time_old_firmware k fc time_now
                        lrow)
    /\ (forall g p, 0 <= g < 2 -> 0 <= p < Z.of_nat 10 ->
          (forall i,
              0 <= i < 7 * (Z.of_nat (length one_module_pixel_ids) / 7) ->
              getitem one_module_pixel_ids i <> Some p) ->
          getitem2 (waveform_of st') g p
          = getitem2 (ten_pixels (repeat 5%R 40)) g p
          /\ getitem2 (last_readout_time_of st') g p
             = getitem2 (ten_pixels (repeat 0 4096)) g p).
Proof.
  apply (apply_timelapse_correction_pixelwise 1574 10
           (ten_pixels (repeat 5%R 40)) [134000] (ten_pixels 1000)
           (ten_pixels (repeat 0 4096)) one_module_pixel_ids 2008).
  - vm_compute. reflexivity.
  - vm_compute. reflexivity.
  - vm_compute. reflexivity.
  - repeat constructor; simpl; intuition lia.
  - repeat constructor; lia.
  - vm_compute. discriminate.
Defined.
